(** * gmail_unsuscribe_mcp: header parsing, subscription scan, confirmation

    A shallow embedding of [gmail_service.py]: the header parser
    ([_parse_unsubscribe_header], [_extract_sender_info],
    [_get_header_value]), the two paginated scans ([list_subscriptions],
    [search_emails]) and the keyword verdict of [unsubscribe_http].

    Conventions.
    - A Python [str] is a [string]; a character is an [ascii], read as a
      code point in U+0000..U+00FF.  [isspace] and [lower] are Python's,
      written out for that range.
    - A Python [int] is a [Z].
    - The [dict] of subscriptions is an association list in insertion
      order, which is the order [dict.values()] iterates in.
    - Calls to the mailbox API and to the HTTP client either return or
      raise; the scans record every request they issue in a log. *)

From Stdlib Require Import List String Ascii ZArith NArith Bool Lia.
From Stdlib Require Import Permutation Sorted.
Import ListNotations.

Local Open Scope string_scope.
Local Open Scope list_scope.
Local Open Scope Z_scope.

Set Implicit Arguments.

(** ** Python strings *)

Module PyStr.

Definition newline : ascii := "010"%char.

(** [str.isspace] on one character: TAB..CR, FS..US, SPACE, NEL, NBSP.
    The regex class [\s] of a [str] pattern is the same set. *)
Definition isspace (c : ascii) : bool :=
  let n := N_of_ascii c in
  ((9 <=? n) && (n <=? 13) || (28 <=? n) && (n <=? 32)
   || (n =? 133) || (n =? 160))%N.

(** [str.lower] on one character: A..Z and the Latin-1 capitals
    (U+00C0..U+00DE but for the multiplication sign U+00D7). *)
Definition lower_char (c : ascii) : ascii :=
  let n := N_of_ascii c in
  if ((65 <=? n) && (n <=? 90)
      || (192 <=? n) && (n <=? 222) && negb (n =? 215))%N
  then ascii_of_N (n + 32) else c.

Fixpoint lower (s : string) : string :=
  match s with
  | EmptyString => EmptyString
  | String c s' => String (lower_char c) (lower s')
  end.

(** [s.startswith(p)] *)
Fixpoint startswith (p s : string) : bool :=
  match p, s with
  | EmptyString, _ => true
  | String a p', String b s' => Ascii.eqb a b && startswith p' s'
  | String _ _, EmptyString => false
  end.

(** [kw in s] *)
Fixpoint contains (kw s : string) : bool :=
  startswith kw s ||
  match s with
  | EmptyString => false
  | String _ s' => contains kw s'
  end.

(** [s.lstrip(chars)] and [s.rstrip(chars)], the set of characters
    given by a predicate. *)
Fixpoint lstrip_by (p : ascii -> bool) (s : string) : string :=
  match s with
  | EmptyString => EmptyString
  | String c s' => if p c then lstrip_by p s' else s
  end.

Fixpoint rstrip_by (p : ascii -> bool) (s : string) : string :=
  match s with
  | EmptyString => EmptyString
  | String c s' =>
      match rstrip_by p s' with
      | EmptyString => if p c then EmptyString else String c EmptyString
      | r => String c r
      end
  end.

Definition strip_by (p : ascii -> bool) (s : string) : string :=
  rstrip_by p (lstrip_by p s).

(** [s.strip()] *)
Definition strip (s : string) : string := strip_by isspace s.

(** The double quote, U+0022. *)
Definition dquote : ascii := "034"%char.

(** [s.strip(chars)] with [chars] the one-character string made of
    the double quote. *)
Definition strip_quotes (s : string) : string :=
  strip_by (fun c => Ascii.eqb c dquote) s.

(** [bool(s)] of a string: non-empty. *)
Definition truthy (s : string) : bool :=
  match s with EmptyString => false | String _ _ => true end.

Fixpoint all_chars (p : ascii -> bool) (s : string) : bool :=
  match s with
  | EmptyString => true
  | String c s' => p c && all_chars p s'
  end.

End PyStr.

(** ** Header parser *)

(** [re.findall(r"<([^>]+)>", s)] *)
Module UnsubRegex.

Definition is_gt (c : ascii) : bool := Ascii.eqb c ">"%char.
Definition is_lt (c : ascii) : bool := Ascii.eqb c "<"%char.

(** A run of characters other than [>], possibly empty, and the [>]
    that ends it, at the head of [s]: the run and what follows. *)
Fixpoint until_gt (s : string) : option (string * string) :=
  match s with
  | EmptyString => None
  | String c s' =>
      if is_gt c then Some (EmptyString, s')
      else match until_gt s' with
           | Some (t, r) => Some (String c t, r)
           | None => None
           end
  end.

(** One attempt of the pattern at the head of [s]. *)
Definition match_at (s : string) : option (string * string) :=
  match s with
  | String c s' =>
      if is_lt c then
        match until_gt s' with
        | Some (String a t, r) => Some (String a t, r)
        | _ => None
        end
      else None
  | EmptyString => None
  end.

(** The scan of [findall]: a match is emitted where it starts and its
    characters, the closing [>] included, are then passed over
    ([inside]); where no match starts the scan moves on by one
    character. *)
Fixpoint scan (inside : bool) (s : string) : list string :=
  match s with
  | EmptyString => []
  | String c s' =>
      if inside then scan (negb (is_gt c)) s'
      else match match_at s with
           | Some (t, _) => t :: scan true s'
           | None => scan false s'
           end
  end.

Definition findall (s : string) : list string := scan false s.

End UnsubRegex.

Definition is_http_token (m : string) : bool :=
  PyStr.startswith "http://" m || PyStr.startswith "https://" m.

Definition is_mailto_token (m : string) : bool :=
  PyStr.startswith "mailto:" m.

(** The body of [for match in matches], on the pair of lists. *)
Definition classify_step (acc : list string * list string) (m : string)
  : list string * list string :=
  let (links, mailtos) := acc in
  if is_http_token m then (links ++ [m], mailtos)
  else if is_mailto_token m then (links, mailtos ++ [m])
  else (links, mailtos).

Definition _parse_unsubscribe_header (header_value : string)
  : list string * list string :=
  let matches := UnsubRegex.findall header_value in
  fold_left classify_step matches ([], []).

(** [re.match(r"^(.+?)\s*<(.+?)>$", s)], no flags: [.] is any character
    but the newline, [$] holds at the end of the string and just before
    a newline that ends it.  The matcher follows the order in which a
    backtracking engine tries the alternatives: the lazy groups from
    their shortest length up, the greedy [\s*] from its longest down. *)
Module SenderRegex.

Definition is_gt (c : ascii) : bool := Ascii.eqb c ">"%char.
Definition is_lt (c : ascii) : bool := Ascii.eqb c "<"%char.
Definition is_newline (c : ascii) : bool := Ascii.eqb c PyStr.newline.

(** [$] *)
Definition at_end (s : string) : bool :=
  match s with
  | EmptyString => true
  | String c EmptyString => is_newline c
  | _ => false
  end.

Definition cons_group (c : ascii) (o : option string) : option string :=
  match o with Some g => Some (String c g) | None => None end.

(** [(.*?)>$]: the lazy tail of group 2 and the end of the pattern. *)
Fixpoint address_tail (s : string) : option string :=
  match s with
  | EmptyString => None
  | String c s' =>
      if is_gt c && at_end s' then Some EmptyString
      else if is_newline c then None
      else cons_group c (address_tail s')
  end.

(** [(.+?)>$] *)
Definition address_group (s : string) : option string :=
  match s with
  | EmptyString => None
  | String c s' =>
      if is_newline c then None else cons_group c (address_tail s')
  end.

(** [\s*<(.+?)>$]: the greedy [\s*] first takes one more white space;
    when the rest then fails it gives that character back and the
    pattern goes on with [<]. *)
Fixpoint spaces_then_address (s : string) : option string :=
  match s with
  | EmptyString => None
  | String c s' =>
      match (if PyStr.isspace c then spaces_then_address s' else None) with
      | Some a => Some a
      | None => if is_lt c then address_group s' else None
      end
  end.

Definition cons_name (c : ascii) (o : option (string * string))
  : option (string * string) :=
  match o with Some (n, a) => Some (String c n, a) | None => None end.

(** [(.*?)\s*<(.+?)>$]: the lazy tail of group 1; the rest of the
    pattern is tried before the group takes one more character. *)
Fixpoint name_tail (s : string) : option (string * string) :=
  match spaces_then_address s with
  | Some a => Some (EmptyString, a)
  | None =>
      match s with
      | EmptyString => None
      | String c s' =>
          if is_newline c then None else cons_name c (name_tail s')
      end
  end.

(** The whole pattern: [Some (group 1, group 2)] on a match. *)
Definition re_match (s : string) : option (string * string) :=
  match s with
  | EmptyString => None
  | String c s' =>
      if is_newline c then None else cons_name c (name_tail s')
  end.

End SenderRegex.

(** One entry of the [headers] list of a message's metadata. *)
Record Header : Type := mkHeader {
  name : string;
  value : string
}.

Definition _extract_sender_info (headers : list Header) : string * string :=
  let from_header :=
    (fix loop (hs : list Header) : string :=
       match hs with
       | [] => ""
       | header :: hs' =>
           if String.eqb (PyStr.lower (name header)) "from"
           then value header
           else loop hs'
       end) headers in
  match SenderRegex.re_match from_header with
  | Some (g1, g2) =>
      let name := PyStr.strip_quotes (PyStr.strip g1) in
      let address := PyStr.strip g2 in
      (name, address)
  | None => (PyStr.strip from_header, PyStr.strip from_header)
  end.

Fixpoint _get_header_value (headers : list Header) (header_name : string)
  : option string :=
  match headers with
  | [] => None
  | header :: headers' =>
      if String.eqb (PyStr.lower (name header)) (PyStr.lower header_name)
      then Some (value header)
      else _get_header_value headers' header_name
  end.

(** ** Calls that may raise *)

(** The exceptions a call to a collaborator can raise.  The first group
    derives from [Exception]; the second derives from [BaseException]
    only. *)
Inductive PyExc : Type :=
| TimeoutException
| ConnectError
| SSLError
| DecodingError
| ParserError
| HttpError (status : Z)
| OtherException (what : string)
| CancelledError
| KeyboardInterrupt
| SystemExit.

(** [isinstance(e, Exception)] *)
Definition is_Exception (e : PyExc) : bool :=
  match e with
  | CancelledError | KeyboardInterrupt | SystemExit => false
  | _ => true
  end.

Inductive outcome (A : Type) : Type :=
| Returned (a : A)
| Raised (e : PyExc).

Arguments Returned {A} a.
Arguments Raised {A} e.

(** ** Data model *)

Record Subscription : Type := mkSubscription {
  sender_email : string;
  sender_name : string;
  subject_examples : list string;
  message_ids : list string;
  unsubscribe_links : list string;
  unsubscribe_mailto : list string;
  email_count : Z
}.

(** A [dict[str, V]]: the items in insertion order, keys distinct. *)
Module Dict.

Definition t (V : Type) : Type := list (string * V).

(** [d.get(k)] *)
Fixpoint get {V} (k : string) (d : t V) : option V :=
  match d with
  | [] => None
  | (k', v) :: d' => if String.eqb k k' then Some v else get k d'
  end.

(** [k in d] *)
Definition mem {V} (k : string) (d : t V) : bool :=
  match get k d with Some _ => true | None => false end.

(** [d[k] = v]: a key already there keeps its place, a new key goes
    to the end. *)
Fixpoint set {V} (k : string) (v : V) (d : t V) : t V :=
  match d with
  | [] => [(k, v)]
  | (k', v') :: d' =>
      if String.eqb k k' then (k', v) :: d' else (k', v') :: set k v d'
  end.

Definition keys {V} (d : t V) : list string := map fst d.

(** [d.values()] *)
Definition values {V} (d : t V) : list V := map snd d.

End Dict.

(** [sorted(l, key=key, reverse=True)]: non-increasing keys, elements of
    equal key in the order they have in [l].  [insert_desc x l] puts
    [x], which stood before all of [l], into the sorted [l]. *)
Fixpoint insert_desc {A} (key : A -> Z) (x : A) (l : list A) : list A :=
  match l with
  | [] => [x]
  | y :: l' =>
      if key x <? key y then y :: insert_desc key x l' else x :: y :: l'
  end.

Definition sorted_reverse {A} (key : A -> Z) (l : list A) : list A :=
  fold_right (insert_desc key) [] l.

(** ** The mailbox capability *)

(** One element of the [messages] list of a page. *)
Record Message : Type := mkMessage { id : string }.

(** The response of [users().messages().list(...)]: [messages] is the
    empty list when the key is missing, [nextPageToken] is [None] when
    it is. *)
Record ListResponse : Type := mkListResponse {
  messages : list Message;
  nextPageToken : option string
}.

(** The two calls the scans make: [messages_list q maxResults pageToken]
    and [messages_get id metadataHeaders], the latter giving the
    [headers] of the payload. *)
Record GmailService : Type := mkGmailService {
  messages_list : string -> Z -> option string -> outcome ListResponse;
  messages_get : string -> list string -> outcome (list Header)
}.

Inductive Request : Type :=
| ListRequest (q : string) (maxResults : Z) (pageToken : option string)
| GetRequest (msg_id : string) (metadataHeaders : list string).

(** The local variables of a scan, and the requests issued so far.
    [acc] is [subscriptions] in [list_subscriptions] and [results] in
    [search_emails]. *)
Record LoopState (A : Type) : Type := mkLoopState {
  acc : A;
  processed : Z;
  next_page_token : option string;
  requests : list Request
}.

Definition issue {A} (r : Request) (st : LoopState A) : LoopState A :=
  mkLoopState (acc st) (processed st) (next_page_token st)
              (requests st ++ [r]).

(** How the body of a [for] loop ends: it falls through or hits
    [continue] ([Next]), or hits [break]. *)
Inductive flow : Type := Next | Break.

Fixpoint for_each {S X} (body : S -> X -> outcome (S * flow))
         (xs : list X) (st : S) : outcome S :=
  match xs with
  | [] => Returned st
  | x :: xs' =>
      match body st x with
      | Raised e => Raised e
      | Returned (st', Break) => Returned st'
      | Returned (st', Next) => for_each body xs' st'
      end
  end.

(** [bool(tok)] of an optional string: present and non-empty. *)
Definition token_truthy (tok : option string) : bool :=
  match tok with Some s => PyStr.truthy s | None => false end.

(** [x or ""] *)
Definition or_empty (x : option string) : string :=
  match x with
  | Some s => if PyStr.truthy s then s else ""
  | None => ""
  end.

(** ** Subscription scan *)

Definition subscriptions_query : string :=
  "category:promotions OR category:updates".

Definition subscriptions_headers : list string :=
  ["From"; "Subject"; "List-Unsubscribe"].

(** The statements of the loop body from [sub = subscriptions[key]] to
    [sub.email_count += 1], on the object [sub]. *)
Definition record_message (sub : Subscription) (subject msg_id : string)
           (http_links mailto_links : list string) : Subscription :=
  mkSubscription
    (sender_email sub)
    (sender_name sub)
    (subject_examples sub ++ [subject])
    (message_ids sub ++ [msg_id])
    (unsubscribe_links sub ++ http_links)
    (unsubscribe_mailto sub ++ mailto_links)
    (email_count sub + 1).

(** The body of the loop below the [continue], on the dictionary. *)
Definition aggregate (subscriptions : Dict.t Subscription)
           (msg_id : string) (headers : list Header) (list_unsub : string)
  : Dict.t Subscription :=
  let (from_name, from_email) := _extract_sender_info headers in
  let subject := or_empty (_get_header_value headers "Subject") in
  let (http_links, mailto_links) := _parse_unsubscribe_header list_unsub in
  let key := PyStr.lower from_email in
  let subscriptions :=
    if negb (Dict.mem key subscriptions)
    then Dict.set key (mkSubscription from_email from_name [] [] [] [] 0)
                  subscriptions
    else subscriptions in
  match Dict.get key subscriptions with
  | Some sub =>
      Dict.set key (record_message sub subject msg_id http_links mailto_links)
               subscriptions
  | None => subscriptions
  end.

(** The body of [for msg in messages] in [list_subscriptions]. *)
Definition subscriptions_body (service : GmailService) (max_results : Z)
           (st : LoopState (Dict.t Subscription)) (msg : Message)
  : outcome (LoopState (Dict.t Subscription) * flow) :=
  let msg_id := id msg in
  match messages_get service msg_id subscriptions_headers with
  | Raised e => Raised e
  | Returned headers =>
      let st := issue (GetRequest msg_id subscriptions_headers) st in
      match _get_header_value headers "List-Unsubscribe" with
      | None => Returned (st, Next)
      | Some list_unsub =>
          if negb (PyStr.truthy list_unsub) then Returned (st, Next)
          else
            let subscriptions := aggregate (acc st) msg_id headers list_unsub in
            let processed := processed st + 1 in
            Returned (mkLoopState subscriptions processed
                                  (next_page_token st) (requests st),
                      if processed >=? max_results then Break else Next)
      end
  end.

(** The [while processed < max_results] loop of [list_subscriptions].
    [None]: the fuel ran out before the loop ended. *)
Fixpoint subscriptions_loop (fuel : nat) (service : GmailService)
         (max_results : Z) (st : LoopState (Dict.t Subscription))
  : option (outcome (LoopState (Dict.t Subscription))) :=
  if processed st <? max_results then
    match fuel with
    | O => None
    | S fuel' =>
        let batch_size := Z.min 100 (max_results - processed st) in
        match messages_list service subscriptions_query batch_size
                            (next_page_token st) with
        | Raised e => Some (Raised e)
        | Returned response =>
            let st := issue (ListRequest subscriptions_query batch_size
                                         (next_page_token st)) st in
            match messages response with
            | [] => Some (Returned st)
            | _ :: _ =>
                match for_each (subscriptions_body service max_results)
                               (messages response) st with
                | Raised e => Some (Raised e)
                | Returned st =>
                    let st := mkLoopState (acc st) (processed st)
                                          (nextPageToken response)
                                          (requests st) in
                    if negb (token_truthy (next_page_token st))
                    then Some (Returned st)
                    else subscriptions_loop fuel' service max_results st
                end
            end
        end
    end
  else Some (Returned st).

Definition scan_start {A} (a : A) : LoopState A := mkLoopState a 0 None [].

(** The state in which the loop of [list_subscriptions] ends. *)
Definition subscriptions_scan (fuel : nat) (service : GmailService)
           (max_results : Z)
  : option (outcome (LoopState (Dict.t Subscription))) :=
  subscriptions_loop fuel service max_results (scan_start []).

Definition list_subscriptions (fuel : nat) (service : GmailService)
           (max_results : Z) : option (outcome (list Subscription)) :=
  match subscriptions_scan fuel service max_results with
  | None => None
  | Some (Raised e) => Some (Raised e)
  | Some (Returned st) =>
      Some (Returned (sorted_reverse email_count (Dict.values (acc st))))
  end.

(** ** Search *)

Record SearchResult : Type := mkSearchResult {
  result_id : string;
  from_name : string;
  from_email : string;
  subject : string;
  date : string;
  has_unsubscribe : bool
}.

Definition search_headers : list string :=
  ["From"; "Subject"; "Date"; "List-Unsubscribe"].

(** The body of [for msg in messages] in [search_emails]. *)
Definition search_body (service : GmailService) (max_results : Z)
           (st : LoopState (list SearchResult)) (msg : Message)
  : outcome (LoopState (list SearchResult) * flow) :=
  let msg_id := id msg in
  match messages_get service msg_id search_headers with
  | Raised e => Raised e
  | Returned headers =>
      let st := issue (GetRequest msg_id search_headers) st in
      let (from_name, from_email) := _extract_sender_info headers in
      let subject := or_empty (_get_header_value headers "Subject") in
      let date := or_empty (_get_header_value headers "Date") in
      let has_unsubscribe :=
        match _get_header_value headers "List-Unsubscribe" with
        | Some _ => true
        | None => false
        end in
      let results :=
        acc st ++ [mkSearchResult msg_id from_name from_email subject date
                                  has_unsubscribe] in
      let processed := processed st + 1 in
      Returned (mkLoopState results processed
                            (next_page_token st) (requests st),
                if processed >=? max_results then Break else Next)
  end.

(** The [while processed < max_results] loop of [search_emails]. *)
Fixpoint search_loop (fuel : nat) (service : GmailService) (query : string)
         (max_results : Z) (st : LoopState (list SearchResult))
  : option (outcome (LoopState (list SearchResult))) :=
  if processed st <? max_results then
    match fuel with
    | O => None
    | S fuel' =>
        let batch_size := Z.min 100 (max_results - processed st) in
        match messages_list service query batch_size
                            (next_page_token st) with
        | Raised e => Some (Raised e)
        | Returned response =>
            let st := issue (ListRequest query batch_size
                                         (next_page_token st)) st in
            match messages response with
            | [] => Some (Returned st)
            | _ :: _ =>
                match for_each (search_body service max_results)
                               (messages response) st with
                | Raised e => Some (Raised e)
                | Returned st =>
                    let st := mkLoopState (acc st) (processed st)
                                          (nextPageToken response)
                                          (requests st) in
                    if negb (token_truthy (next_page_token st))
                    then Some (Returned st)
                    else search_loop fuel' service query max_results st
                end
            end
        end
    end
  else Some (Returned st).

Definition search_scan (fuel : nat) (service : GmailService)
           (query : string) (max_results : Z)
  : option (outcome (LoopState (list SearchResult))) :=
  search_loop fuel service query max_results (scan_start []).

Definition search_emails (fuel : nat) (service : GmailService)
           (query : string) (max_results : Z)
  : option (outcome (list SearchResult)) :=
  match search_scan fuel service query max_results with
  | None => None
  | Some (Raised e) => Some (Raised e)
  | Some (Returned st) => Some (Returned (acc st))
  end.

(** ** Confirmation engine *)

Definition keywords : list string :=
  [ "unsubscribed";
    "removed";
    "successfully unsubscribed";
    "you have been unsubscribed";
    "has been removed";
    "opted out" ].

(** What [client.get] hands back: [text] decodes the body, or raises. *)
Record Response : Type := mkResponse { text : outcome string }.

(** The two collaborators of [unsubscribe_http]: the HTTP client
    ([client_get url], redirects followed, 15 s timeout) and the HTML
    parser ([visible_text body] is
    [BeautifulSoup(body, "html.parser").get_text(separator=" ")]). *)
Record Web : Type := mkWeb {
  client_get : string -> outcome Response;
  visible_text : string -> outcome string
}.

(** [any(kw in visible_text or kw in raw_text for kw in kws)] *)
Definition any_keyword (kws : list string) (visible_text raw_text : string)
  : bool :=
  existsb (fun kw => PyStr.contains kw visible_text
                     || PyStr.contains kw raw_text) kws.

(** The body of the [try] block, for a list of keywords. *)
Definition confirm_attempt (kws : list string) (web : Web) (url : string)
  : outcome bool :=
  match client_get web url with
  | Raised e => Raised e
  | Returned resp =>
      match text resp with
      | Raised e => Raised e
      | Returned body =>
          match visible_text web body with
          | Raised e => Raised e
          | Returned soup_text =>
              let visible_text := PyStr.lower soup_text in
              let raw_text := PyStr.lower body in
              Returned (any_keyword kws visible_text raw_text)
          end
      end
  end.

(** [try: ... except Exception: return False] *)
Definition unsubscribe_http_with (kws : list string) (web : Web)
           (url : string) : outcome bool :=
  match confirm_attempt kws web url with
  | Returned b => Returned b
  | Raised e => if is_Exception e then Returned false else Raised e
  end.

Definition unsubscribe_http (web : Web) (url : string) : outcome bool :=
  unsubscribe_http_with keywords web url.

(** ** A small mailbox

    A service over a fixed list of message ids that honours
    [maxResults]: a page is the next [maxResults] ids, and the page
    token is the id at which the next page starts. *)
Module Example.

Definition unsub (v : string) : Header := mkHeader "List-Unsubscribe" v.

Definition headers_of (msg_id : string) : list Header :=
  if String.eqb msg_id "m1" then
    [ mkHeader "From" "Shop <news@shop.com>"; mkHeader "Subject" "Sale";
      unsub "<https://shop.com/u?1>, <mailto:off@shop.com>" ]
  else if String.eqb msg_id "m2" then
    [ mkHeader "From" "Bob <bob@home.org>"; mkHeader "Subject" "Lunch" ]
  else if String.eqb msg_id "m3" then
    [ mkHeader "Subject" "Post 1"; mkHeader "from" "Blog <posts@blog.io>";
      unsub "<mailto:off@blog.io>" ]
  else if String.eqb msg_id "m4" then
    [ mkHeader "FROM" "SHOP NEWS <News@Shop.com>"; mkHeader "Subject" "";
      mkHeader "list-unsubscribe" "<https://shop.com/u?4>" ]
  else if String.eqb msg_id "m5" then
    [ mkHeader "From" "Blog <posts@blog.io>"; mkHeader "Subject" "Post 2";
      unsub "<ftp://blog.io/off>" ]
  else if String.eqb msg_id "m6" then
    [ mkHeader "From" "deals@mart.com"; unsub "<http://mart.com/off>" ]
  else if String.eqb msg_id "m7" then
    [ mkHeader "From" "deals@mart.com"; unsub "<http://mart.com/off>" ]
  else if String.eqb msg_id "m8" then
    [ mkHeader "From" "deals@mart.com"; unsub "<http://mart.com/off>" ]
  else if String.eqb msg_id "m9" then
    [ mkHeader "From" "Quiet <q@quiet.net>"; unsub "" ]
  else [].

Fixpoint from_token (tok : string) (box : list string) : list string :=
  match box with
  | [] => []
  | m :: box' => if String.eqb m tok then box else from_token tok box'
  end.

Definition service (box : list string) : GmailService :=
  mkGmailService
    (fun _ maxResults pageToken =>
       let rest :=
         match pageToken with
         | None => box
         | Some t => from_token t box
         end in
       Returned
         (mkListResponse
            (map mkMessage (firstn (Z.to_nat maxResults) rest))
            (match skipn (Z.to_nat maxResults) rest with
             | [] => None
             | m :: _ => Some m
             end)))
    (fun msg_id _ => Returned (headers_of msg_id)).

Definition inbox : list string :=
  ["m1"; "m2"; "m3"; "m4"; "m5"; "m6"; "m7"; "m8"; "m9"].

(** A service whose pages are empty and yet carry a page token. *)
Definition hollow : GmailService :=
  mkGmailService
    (fun _ _ _ => Returned (mkListResponse [] (Some "page-2")))
    (fun _ _ => Returned []).

(** A page that was fetched and decoded, and its visible text. *)
Definition landing_page : string :=
  "<html><body><h1>You Have Been UNSUBSCRIBED</h1></body></html>".

Definition web_ok (body soup_text : string) : Web :=
  mkWeb (fun _ => Returned (mkResponse (Returned body)))
        (fun _ => Returned soup_text).

Definition web_down (e : PyExc) : Web :=
  mkWeb (fun _ => Raised e) (fun _ => Returned "").

End Example.

Unset Implicit Arguments.

(** ** Vocabulary of the statements *)

(** [kw] occurs in [s]. *)
Definition Substring (kw s : string) : Prop :=
  exists pre post : string, s = (pre ++ kw ++ post)%string.

(** [t] stands between angle brackets in [s]. *)
Definition Enclosed (t s : string) : Prop :=
  exists pre post : string, s = (pre ++ "<" ++ t ++ ">" ++ post)%string.

(** No character of [s] is [>]. *)
Definition gt_free (s : string) : bool :=
  PyStr.all_chars (fun c => negb (UnsubRegex.is_gt c)) s.

(** The single-word keywords of [keywords]. *)
Definition short_keywords : list string :=
  ["unsubscribed"; "removed"; "opted out"].

(** The failures of the confirmation fetch: timeout, connection error,
    TLS error, a response that does not decode, an HTML parse error. *)
Definition transport_failure (e : PyExc) : Prop :=
  In e [TimeoutException; ConnectError; SSLError; DecodingError; ParserError].

(** The fetch of [url] fails with [e]: in the request, in decoding the
    body, or in parsing it. *)
Inductive fetch_fails (web : Web) (url : string) (e : PyExc) : Prop :=
| fails_in_get :
    client_get web url = Raised e -> fetch_fails web url e
| fails_in_decode (resp : Response) :
    client_get web url = Returned resp ->
    text resp = Raised e -> fetch_fails web url e
| fails_in_parse (resp : Response) (body : string) :
    client_get web url = Returned resp ->
    text resp = Returned body ->
    visible_text web body = Raised e -> fetch_fails web url e.

(** No token starts in [pre]: each [<] of [pre] has a [>] right after
    it.  (In a value that goes on with a token, any other [<] of [pre]
    would open a token of its own.) *)
Definition no_token_starts (pre : string) : Prop :=
  forall a b : string,
    pre = (a ++ "<" ++ b)%string -> exists b', b = (">" ++ b')%string.

(** [ts] is the list of all the tokens of [s], from left to right: [s]
    holds no token and [ts] is empty, or [s] reads as a part where no
    token starts, the first token between its brackets, and a rest
    whose tokens are the others.  A token is a run, not empty, of
    characters other than [>], between a [<] and the next [>]. *)
Inductive Tokens : string -> list string -> Prop :=
| Tokens_none (s : string) :
    (forall t : string, t <> "" -> gt_free t = true -> ~ Enclosed t s) ->
    Tokens s []
| Tokens_first (pre t rest : string) (ts : list string) :
    t <> "" ->
    gt_free t = true ->
    no_token_starts pre ->
    Tokens rest ts ->
    Tokens (pre ++ "<" ++ t ++ ">" ++ rest)%string (t :: ts).

(** The tokens [ts] stand in [s] in this order, each between its own
    pair of angle brackets, none empty, none holding a [>]. *)
Inductive InOrder : list string -> string -> Prop :=
| InOrder_nil (s : string) : InOrder [] s
| InOrder_cons (pre t rest : string) (ts : list string) :
    t <> "" ->
    gt_free t = true ->
    InOrder ts rest ->
    InOrder (t :: ts) (pre ++ "<" ++ t ++ ">" ++ rest)%string.

(** No character of [s] is a newline: every character is one that the
    regex [.] takes. *)
Definition newline_free (s : string) : bool :=
  PyStr.all_chars (fun c => negb (SenderRegex.is_newline c)) s.

Definition all_space (s : string) : bool := PyStr.all_chars PyStr.isspace s.

(** [v] reads as a display name [n], white space, the address [a]
    between angle brackets, and the end of the value (a final newline
    allowed): a way for the sender pattern to match [v]. *)
Definition SenderPattern (v n a : string) : Prop :=
  exists ws tl : string,
    v = (n ++ ws ++ "<" ++ a ++ ">" ++ tl)%string /\
    n <> "" /\ newline_free n = true /\
    all_space ws = true /\
    a <> "" /\ newline_free a = true /\
    SenderRegex.at_end tl = true.

(** [first] is the first header of [headers] whose name is
    [header_name] up to case. *)
Definition FirstNamed (header_name : string) (headers : list Header)
           (first : Header) : Prop :=
  exists pre post : list Header,
    headers = pre ++ first :: post /\
    PyStr.lower (name first) = PyStr.lower header_name /\
    Forall (fun h => PyStr.lower (name h) <> PyStr.lower header_name) pre.

(** *** The sender pattern as the specification words it

    A greedy display name, and one layer of surrounding double quotes
    taken off the name. *)
Module Claimed.

Import SenderRegex.

(** The tail of a greedy group 1 and the rest of the pattern: the
    group takes one more character before the rest is tried. *)
Fixpoint greedy_name_tail (s : string) : option (string * string) :=
  match
    match s with
    | EmptyString => None
    | String c s' =>
        if is_newline c then None else cons_name c (greedy_name_tail s')
    end
  with
  | Some r => Some r
  | None =>
      match spaces_then_address s with
      | Some a => Some (EmptyString, a)
      | None => None
      end
  end.

Definition re_match_greedy (s : string) : option (string * string) :=
  match s with
  | EmptyString => None
  | String c s' =>
      if is_newline c then None else cons_name c (greedy_name_tail s')
  end.

(** [s] without its last character, when that is a double quote. *)
Fixpoint drop_closing_quote (s : string) : option string :=
  match s with
  | EmptyString => None
  | String c EmptyString =>
      if Ascii.eqb c PyStr.dquote then Some EmptyString else None
  | String c s' =>
      match drop_closing_quote s' with
      | Some r => Some (String c r)
      | None => None
      end
  end.

Definition strip_one_quote_layer (s : string) : string :=
  match s with
  | String c s' =>
      if Ascii.eqb c PyStr.dquote then
        match drop_closing_quote s' with
        | Some r => r
        | None => s
        end
      else s
  | EmptyString => s
  end.

Definition extractSenderIdentity (headers : list Header) : string * string :=
  let from_header :=
    match _get_header_value headers "From" with
    | Some v => v
    | None => ""
    end in
  match re_match_greedy from_header with
  | Some (g1, g2) =>
      (strip_one_quote_layer (PyStr.strip g1), PyStr.strip g2)
  | None => (PyStr.strip from_header, PyStr.strip from_header)
  end.

End Claimed.

(** The first, the last character of [s] is in the set [p]. *)
Definition starts_in (p : ascii -> bool) (s : string) : bool :=
  match s with
  | EmptyString => false
  | String c _ => p c
  end.

Fixpoint ends_in (p : ascii -> bool) (s : string) : bool :=
  match s with
  | EmptyString => false
  | String c EmptyString => p c
  | String _ s' => ends_in p s'
  end.

(** [t] is [s] without the characters of the set [p] at its two ends. *)
Definition Stripped (p : ascii -> bool) (s t : string) : Prop :=
  exists l r : string,
    s = (l ++ t ++ r)%string /\
    PyStr.all_chars p l = true /\ PyStr.all_chars p r = true /\
    starts_in p t = false /\ ends_in p t = false.

(** [x] stands before [y] in [l]. *)
Definition Precedes {A : Type} (x y : A) (l : list A) : Prop :=
  exists l1 l2 l3 : list A, l = l1 ++ x :: l2 ++ y :: l3.

(** Non-increasing keys. *)
Definition Descending {A : Type} (key : A -> Z) (l : list A) : Prop :=
  StronglySorted (fun a b => key b <= key a) l.

(** *** Reading the request log of a subscription scan *)

(** The dictionary key of the message a request fetched, when the scan
    retained it: its List-Unsubscribe value is there and not empty. *)
Definition retained_key (service : GmailService) (r : Request)
  : option string :=
  match r with
  | ListRequest _ _ _ => None
  | GetRequest msg_id metadataHeaders =>
      match messages_get service msg_id metadataHeaders with
      | Raised _ => None
      | Returned headers =>
          match _get_header_value headers "List-Unsubscribe" with
          | None => None
          | Some list_unsub =>
              if PyStr.truthy list_unsub
              then Some (PyStr.lower (snd (_extract_sender_info headers)))
              else None
          end
      end
  end.

(** The senders of the retained messages, one entry per message, in the
    order the messages were fetched. *)
Definition senders_met (service : GmailService) (log : list Request)
  : list string :=
  flat_map (fun r => match retained_key service r with
                     | Some k => [k]
                     | None => []
                     end) log.

(** The messages fetched, retained or not. *)
Definition examined (log : list Request) : list string :=
  flat_map (fun r => match r with
                     | GetRequest msg_id _ => [msg_id]
                     | ListRequest _ _ _ => []
                     end) log.

(** The pages requested. *)
Definition pages_requested (log : list Request) : nat :=
  List.length (filter (fun r => match r with
                                | ListRequest _ _ _ => true
                                | GetRequest _ _ => false
                                end) log).

Definition mem_string (k : string) (l : list string) : bool :=
  existsb (String.eqb k) l.

Definition add_new (seen : list string) (k : string) : list string :=
  if mem_string k seen then seen else seen ++ [k].

(** The distinct elements of [l], each at its first occurrence. *)
Definition first_seen (l : list string) : list string :=
  fold_left add_new l [].

(** What holds of every item of the dictionary. *)
Definition entry_ok (kv : string * Subscription) : Prop :=
  fst kv = PyStr.lower (sender_email (snd kv)) /\
  email_count (snd kv) = Z.of_nat (List.length (message_ids (snd kv))).

(** What holds of the state of a subscription scan at every step. *)
Record ScanInv (service : GmailService) (max_results : Z)
       (st : LoopState (Dict.t Subscription)) : Prop := mkScanInv {
  inv_keys :
    Dict.keys (acc st) = first_seen (senders_met service (requests st));
  inv_entries : Forall entry_ok (acc st);
  inv_processed :
    processed st = Z.of_nat (List.length (senders_met service (requests st)));
  inv_budget : processed st <= Z.max 0 max_results
}.


(** ** Vocabulary of the further properties *)

(** A page request asks for at least one message, for at most 100, and
    for no more than the budget of the scan. *)
Definition batch_ok (max_results : Z) (r : Request) : Prop :=
  match r with
  | ListRequest _ n _ => 1 <= n <= 100 /\ n <= max_results
  | GetRequest _ _ => True
  end.

(** The page token that the last page request of the log was answered
    with; [None] before the first page. *)
Definition last_token (service : GmailService) (log : list Request)
  : option string :=
  fold_left
    (fun tok r =>
       match r with
       | ListRequest q n t =>
           match messages_list service q n t with
           | Returned response => nextPageToken response
           | Raised _ => tok
           end
       | GetRequest _ _ => tok
       end) log None.

(** Every page request of the log carries the token that the page
    before it was answered with. *)
Definition TokensChained (service : GmailService) (log : list Request)
  : Prop :=
  forall (l1 l2 : list Request) (q : string) (n : Z) (tok : option string),
    log = l1 ++ ListRequest q n tok :: l2 -> tok = last_token service l1.

(** The messages that a list of subscriptions accounts for. *)
Definition total_emails (l : list Subscription) : Z :=
  fold_right (fun s n => email_count s + n) 0 l.

(** A search result says what the headers of its message say. *)
Definition result_reflects (service : GmailService) (r : SearchResult)
  : Prop :=
  exists headers : list Header,
    messages_get service (result_id r) search_headers = Returned headers /\
    (from_name r, from_email r) = _extract_sender_info headers /\
    subject r = or_empty (_get_header_value headers "Subject") /\
    date r = or_empty (_get_header_value headers "Date") /\
    (has_unsubscribe r = true <->
     exists v, _get_header_value headers "List-Unsubscribe" = Some v).

(** No character of [s] is [<]. *)
Definition lt_free (s : string) : bool :=
  PyStr.all_chars (fun c => negb (UnsubRegex.is_lt c)) s.

(** A subscription stands for at least one message, has one subject
    per message, and every message id in it is one that the scan
    fetched. *)
Definition well_formed_record (log : list Request) (s : Subscription)
  : Prop :=
  1 <= email_count s /\
  List.length (subject_examples s) = List.length (message_ids s) /\
  incl (message_ids s) (examined log).

(** ** The tool layer ([server.py]) *)

From Stdlib Require DecimalString.

(** [sep.join(l)] *)
Fixpoint str_join (sep : string) (l : list string) : string :=
  match l with
  | [] => EmptyString
  | [x] => x
  | x :: l' => (x ++ sep ++ str_join sep l')%string
  end.

(** [str(z)] of an [int]. *)
Definition str_of_int (z : Z) : string :=
  DecimalString.NilZero.string_of_int (Z.to_int z).

(** The one-character string of a line feed. *)
Definition nl : string := String PyStr.newline EmptyString.

(** The letters of the messages that are not ASCII. *)
Definition a_acute : string := String "225"%char EmptyString.
Definition i_acute : string := String "237"%char EmptyString.
Definition o_acute : string := String "243"%char EmptyString.
Definition u_acute : string := String "250"%char EmptyString.

(** [json.dumps] with its default settings, for the objects the tools
    build: string keys, values that are booleans or strings.  A string
    goes between double quotes; the double quote, the backslash and
    the characters outside the range from the space to the tilde are
    escaped. *)
Module Json.

Local Open Scope string_scope.

Inductive value : Type :=
| Bool (b : bool)
| Str (s : string).

Definition hex_digit (n : N) : ascii :=
  if (n <? 10)%N then ascii_of_N (48 + n) else ascii_of_N (87 + n).

Definition backslash : ascii := "092"%char.

(** The escape of a character by its code point, four hexadecimal
    digits in lower case. *)
Definition u_escape (c : ascii) : string :=
  let n := N_of_ascii c in
  String backslash
         ("u00" ++ String (hex_digit (n / 16)) (String (hex_digit (n mod 16)) "")).

Definition escape_char (c : ascii) : string :=
  let n := N_of_ascii c in
  if Ascii.eqb c PyStr.dquote then String backslash (String PyStr.dquote "")
  else if Ascii.eqb c backslash then String backslash (String backslash "")
  else if (n =? 8)%N then String backslash "b"
  else if (n =? 12)%N then String backslash "f"
  else if (n =? 10)%N then String backslash "n"
  else if (n =? 13)%N then String backslash "r"
  else if (n =? 9)%N then String backslash "t"
  else if ((n <? 32) || (126 <? n))%N then u_escape c
  else String c "".

Fixpoint escape (s : string) : string :=
  match s with
  | EmptyString => EmptyString
  | String c s' => escape_char c ++ escape s'
  end.

Definition dumps_str (s : string) : string :=
  String PyStr.dquote (escape s ++ String PyStr.dquote "").

Definition dumps_value (v : value) : string :=
  match v with
  | Bool true => "true"
  | Bool false => "false"
  | Str s => dumps_str s
  end.

Definition dumps (items : list (string * value)) : string :=
  "{" ++ str_join ", "
           (map (fun kv => dumps_str (fst kv) ++ ": " ++ dumps_value (snd kv))
                items)
      ++ "}".

End Json.

(** The test on the url in [desuscribirse]. *)
Definition url_accepted (url : string) : bool :=
  PyStr.startswith "http://" (PyStr.lower url)
  || PyStr.startswith "https://" (PyStr.lower url).

Definition invalid_url_message : string :=
  ("URL inv" ++ a_acute ++ "lida. Debe empezar por http o https.")%string.

Definition desuscribirse (web : Web) (url_desuscripcion : string)
  : outcome string :=
  if negb (url_accepted url_desuscripcion) then
    Returned (Json.dumps [("ok"%string, Json.Bool false);
                          ("error"%string, Json.Str invalid_url_message)])
  else
    match unsubscribe_http web url_desuscripcion with
    | Raised e => Raised e
    | Returned ok =>
        Returned (Json.dumps [("ok"%string, Json.Bool ok);
                              ("url"%string, Json.Str url_desuscripcion)])
    end.

(** The lines that the loop of [_listar_suscripciones] appends for the
    [i]-th subscription. *)
Definition subscription_lines (i : Z) (sub : Subscription) : list string :=
  [ (str_of_int i ++ ". **" ++ sender_name sub ++ "** (<"
                  ++ sender_email sub ++ ">)  ")%string;
    ("   - Emails recibidos: " ++ str_of_int (email_count sub))%string ]
  ++ match subject_examples sub with
     | [] => []
     | _ :: _ =>
         [ ("   - Ejemplos de asunto: "
              ++ str_join ", " (firstn 3 (subject_examples sub)))%string ]
     end
  ++ map (fun link =>
            ("   - [Desuscribirse](" ++ link ++ ")  (Autom" ++ a_acute
                                     ++ "tico)")%string)
         (unsubscribe_links sub)
  ++ map (fun mailto =>
            ("   - Opci" ++ o_acute ++ "n de desuscripci" ++ o_acute
                         ++ "n por email: " ++ mailto)%string)
         (unsubscribe_mailto sub)
  ++ [ EmptyString ].

(** [for i, sub in enumerate(subs, i): ...]: the lines appended. *)
Fixpoint listing_lines (i : Z) (subs : list Subscription) : list string :=
  match subs with
  | [] => []
  | sub :: subs' => subscription_lines i sub ++ listing_lines (i + 1) subs'
  end.

Definition no_subscriptions_message : string :=
  "No se encontraron suscripciones.".

Definition subscriptions_heading : string :=
  ("# Suscripciones detectadas:" ++ nl)%string.

(** [_listar_suscripciones] from the list that [list_subscriptions]
    returned. *)
Definition render_subscriptions (subs : list Subscription) : string :=
  match subs with
  | [] => no_subscriptions_message
  | _ :: _ => str_join nl (subscriptions_heading :: listing_lines 1 subs)
  end.

Definition _listar_suscripciones (fuel : nat) (service : GmailService)
           (max_resultados : Z) : option (outcome string) :=
  match list_subscriptions fuel service max_resultados with
  | None => None
  | Some (Raised e) => Some (Raised e)
  | Some (Returned subs) => Some (Returned (render_subscriptions subs))
  end.

(** The lines that the loop of [buscar_emails] appends for a result. *)
Definition result_lines (r : SearchResult) : list string :=
  [ ("- **" ++ from_name r ++ "** (<" ++ from_email r ++ ">)  ")%string;
    ("   - Asunto: " ++ subject r)%string;
    ("   - Fecha: " ++ date r)%string;
    ("   - Opci" ++ o_acute ++ "n de desuscripci" ++ o_acute ++ "n: "
                 ++ (if has_unsubscribe r then "S" ++ i_acute else "No")
                 ++ nl)%string ].

Definition no_emails_message : string := "No se encontraron emails.".

Definition results_heading : string :=
  ("# Resultados de b" ++ u_acute ++ "squeda:" ++ nl)%string.

Definition render_results (resultados : list SearchResult) : string :=
  match resultados with
  | [] => no_emails_message
  | _ :: _ => str_join nl (results_heading :: flat_map result_lines resultados)
  end.

Definition buscar_emails (fuel : nat) (service : GmailService)
           (consulta : string) (max_resultados : Z)
  : option (outcome string) :=
  match search_emails fuel service consulta max_resultados with
  | None => None
  | Some (Raised e) => Some (Raised e)
  | Some (Returned resultados) => Some (Returned (render_results resultados))
  end.

(** ** Authentication ([gmail_auth.py]) *)

Module Auth.

(** What [get_credentials] reads of a [Credentials] object. *)
Record Credentials : Type := mkCredentials {
  valid : bool;
  expired : bool;
  refresh_token : option string;
  to_json : string
}.

(** The two files, by their contents when they exist, and the
    collaborators: [from_authorized_user_file] reads the token file,
    [refresh c] is the object [c] after [c.refresh(Request())],
    [run_local_server] is the whole browser flow on the client
    secrets, [write_token] opens the token file and writes to it. *)
Record World : Type := mkWorld {
  token_file : option string;
  credentials_file : option string;
  from_authorized_user_file : string -> outcome Credentials;
  refresh : Credentials -> outcome Credentials;
  run_local_server : string -> outcome Credentials;
  write_token : string -> outcome unit
}.

(** What a call did: a refresh or a browser flow that was started, a
    token that was written. *)
Inductive Step : Type :=
| Refresh
| BrowserFlow
| WriteToken (json : string).

Record Run : Type := mkRun {
  result : outcome Credentials;
  steps : list Step
}.

Definition FileNotFoundError : PyExc := OtherException "FileNotFoundError".

(** Paso 5: the token is saved, then returned. *)
Definition save (w : World) (done : list Step) (creds : Credentials) : Run :=
  match write_token w (to_json creds) with
  | Raised e => mkRun (Raised e) done
  | Returned _ => mkRun (Returned creds) (done ++ [WriteToken (to_json creds)])
  end.

(** Paso 3 *)
Definition refresh_and_save (w : World) (creds : Credentials) : Run :=
  match refresh w creds with
  | Raised e => mkRun (Raised e) [Refresh]
  | Returned creds' => save w [Refresh] creds'
  end.

(** Paso 4 *)
Definition authorize_and_save (w : World) : Run :=
  match credentials_file w with
  | None => mkRun (Raised FileNotFoundError) []
  | Some secrets =>
      match run_local_server w secrets with
      | Raised e => mkRun (Raised e) [BrowserFlow]
      | Returned creds => save w [BrowserFlow] creds
      end
  end.

Definition get_credentials (w : World) : Run :=
  match
    match token_file w with
    | Some content =>
        match from_authorized_user_file w content with
        | Returned creds => Returned (Some creds)
        | Raised e => Raised e
        end
    | None => Returned None
    end
  with
  | Raised e => mkRun (Raised e) []
  | Returned (Some creds) =>
      if valid creds then mkRun (Returned creds) []
      else if expired creds && token_truthy (refresh_token creds)
           then refresh_and_save w creds
           else authorize_and_save w
  | Returned None => authorize_and_save w
  end.

(** The stored token, when there is one and it loads. *)
Definition stored (w : World) (creds : Credentials) : Prop :=
  exists content,
    token_file w = Some content /\
    from_authorized_user_file w content = Returned creds.

(** A world with a stored token that has expired and can be
    refreshed. *)
Definition example_world : World :=
  mkWorld (Some "old") None
          (fun _ => Returned (mkCredentials false true (Some "r1") "old"))
          (fun c => Returned (mkCredentials true false (refresh_token c) "new"))
          (fun _ => Raised ConnectError)
          (fun _ => Returned tt).

End Auth.

(** The number of messages that the dictionary counts for a sender. *)
Definition emails_of (k : string) (d : Dict.t Subscription) : Z :=
  match Dict.get k d with
  | Some s => email_count s
  | None => 0
  end.

(** ** The scans as they are called *)

(** [get_gmail_service()]: the credentials, then the client that
    [build('gmail', 'v1', credentials=creds)] makes of them, for which
    [build] stands. *)
Definition get_gmail_service
           (w : Auth.World) (build : Auth.Credentials -> outcome GmailService)
  : outcome GmailService :=
  match Auth.result (Auth.get_credentials w) with
  | Raised e => Raised e
  | Returned creds => build creds
  end.

(** [list_subscriptions(max_results)] from its first statement on:
    the service is obtained, then the scan runs on it. *)
Definition list_subscriptions_call
           (fuel : nat) (w : Auth.World)
           (build : Auth.Credentials -> outcome GmailService)
           (max_results : Z) : option (outcome (list Subscription)) :=
  match get_gmail_service w build with
  | Raised e => Some (Raised e)
  | Returned service => list_subscriptions fuel service max_results
  end.

(** [search_emails(query, max_results)] from its first statement on. *)
Definition search_emails_call
           (fuel : nat) (w : Auth.World)
           (build : Auth.Credentials -> outcome GmailService)
           (query : string) (max_results : Z)
  : option (outcome (list SearchResult)) :=
  match get_gmail_service w build with
  | Raised e => Some (Raised e)
  | Returned service => search_emails fuel service query max_results
  end.

(** ** Strings *)

Section StringFacts.

Local Open Scope string_scope.

Lemma append_nil_r (s : string) : s ++ "" = s.
Proof. induction s as [|c s IH]; simpl; [reflexivity | now rewrite IH]. Qed.

Lemma append_assoc (a b c : string) : (a ++ b) ++ c = a ++ (b ++ c).
Proof. induction a as [|x a IH]; simpl; [reflexivity | now rewrite IH]. Qed.

Lemma length_append (a b : string) :
  String.length (a ++ b) = (String.length a + String.length b)%nat.
Proof. induction a as [|x a IH]; simpl; [reflexivity | now rewrite IH]. Qed.

Lemma lower_append (a b : string) :
  PyStr.lower (a ++ b) = PyStr.lower a ++ PyStr.lower b.
Proof. induction a as [|x a IH]; simpl; [reflexivity | now rewrite IH]. Qed.

Lemma startswith_spec (p s : string) :
  PyStr.startswith p s = true <-> exists r, s = p ++ r.
Proof.
  revert s; induction p as [|a p IH]; intros s; simpl.
  - split; [intros _; now exists s | reflexivity].
  - destruct s as [|b s].
    + split; [discriminate | intros [r Hr]; discriminate].
    + rewrite andb_true_iff, Ascii.eqb_eq, IH. split.
      * intros [-> [r ->]]. now exists r.
      * intros [r Hr]. injection Hr as -> ->. split; [reflexivity | now exists r].
Qed.

Lemma contains_spec (kw s : string) :
  PyStr.contains kw s = true <-> Substring kw s.
Proof.
  unfold Substring. induction s as [|c s IH].
  - simpl. rewrite orb_false_r, startswith_spec. split.
    + intros [r Hr]. now exists "", r.
    + intros [pre [post H]]. destruct pre; [now exists post | discriminate].
  - cbn [PyStr.contains]. rewrite orb_true_iff, startswith_spec, IH. split.
    + intros [[r Hr] | [pre [post H]]].
      * now exists "", r.
      * exists (String c pre), post. simpl. now rewrite H.
    + intros [pre [post H]]. destruct pre as [|x pre]; simpl in H.
      * left. now exists post.
      * right. injection H as _ H. now exists pre, post.
Qed.

Lemma Substring_trans (a b s : string) :
  Substring a b -> Substring b s -> Substring a s.
Proof.
  intros [p1 [q1 ->]] [p2 [q2 ->]].
  exists (p2 ++ p1), (q1 ++ q2). now rewrite !append_assoc.
Qed.

Lemma Substring_lower (c s : string) :
  Substring c s -> Substring (PyStr.lower c) (PyStr.lower s).
Proof.
  intros [pre [post ->]]. exists (PyStr.lower pre), (PyStr.lower post).
  now rewrite !lower_append.
Qed.

Lemma contains_trans (a b s : string) :
  PyStr.contains a b = true ->
  PyStr.contains b s = true -> PyStr.contains a s = true.
Proof. rewrite !contains_spec. apply Substring_trans. Qed.

End StringFacts.

(** ** Confirmation engine: the verdict *)

Section Engine.

Variable web : Web.
Variable url : string.

Lemma any_keyword_spec (kws : list string) (visible raw : string) :
  any_keyword kws visible raw = true <->
  exists kw, In kw kws /\ (Substring kw visible \/ Substring kw raw).
Proof.
  unfold any_keyword. rewrite existsb_exists.
  split; intros [kw [Hin H]]; exists kw; split; trivial.
  - apply orb_true_iff in H. now rewrite <- !contains_spec.
  - apply orb_true_iff. now rewrite !contains_spec.
Qed.

Lemma attempt_of_page (kws : list string) (resp : Response)
      (body soup_text : string) :
  client_get web url = Returned resp ->
  text resp = Returned body ->
  visible_text web body = Returned soup_text ->
  unsubscribe_http_with kws web url =
  Returned (any_keyword kws (PyStr.lower soup_text) (PyStr.lower body)).
Proof.
  intros Hget Htext Hsoup. unfold unsubscribe_http_with, confirm_attempt.
  now rewrite Hget, Htext, Hsoup.
Qed.

Lemma exception_swallowed (kws : list string) (e : PyExc) :
  is_Exception e = true ->
  fetch_fails web url e ->
  unsubscribe_http_with kws web url = Returned false.
Proof.
  intros He Hfail. unfold unsubscribe_http_with, confirm_attempt.
  destruct Hfail as [Hget | resp Hget Htext | resp body Hget Htext Hsoup].
  - now rewrite Hget, He.
  - now rewrite Hget, Htext, He.
  - now rewrite Hget, Htext, Hsoup, He.
Qed.

Lemma transport_failure_is_Exception (e : PyExc) :
  transport_failure e -> is_Exception e = true.
Proof.
  unfold transport_failure. simpl.
  intros [<- | [<- | [<- | [<- | [<- | []]]]]]; reflexivity.
Qed.

End Engine.

(** C2. When the page was fetched, decoded and parsed, [unsubscribe_http]
    returns a verdict, and the verdict is [true] exactly when one of the
    six keywords occurs in the lowercased visible text or in the
    lowercased raw body.  A body holding any casing of "you have been
    unsubscribed" gives [true]; a page with none of the keywords gives
    [false]. *)
Theorem confirm_verdict_iff_keyword
        (web : Web) (url : string) (resp : Response)
        (body soup_text : string) :
  client_get web url = Returned resp ->
  text resp = Returned body ->
  visible_text web body = Returned soup_text ->
  exists verdict : bool,
    unsubscribe_http web url = Returned verdict /\
    (verdict = true <->
     exists kw, In kw keywords /\
                (Substring kw (PyStr.lower soup_text) \/
                 Substring kw (PyStr.lower body))) /\
    (forall casing : string,
        PyStr.lower casing = "you have been unsubscribed" ->
        Substring casing body -> verdict = true) /\
    ((forall kw, In kw keywords ->
                 ~ Substring kw (PyStr.lower soup_text) /\
                 ~ Substring kw (PyStr.lower body)) ->
     verdict = false).
Proof.
  intros Hget Htext Hsoup.
  exists (any_keyword keywords (PyStr.lower soup_text) (PyStr.lower body)).
  split; [| split; [| split]].
  - unfold unsubscribe_http. eapply attempt_of_page; eassumption.
  - apply any_keyword_spec.
  - intros casing Hlow Hsub. apply any_keyword_spec.
    exists "you have been unsubscribed". split.
    + unfold keywords. simpl. tauto.
    + right. rewrite <- Hlow. now apply Substring_lower.
  - intros Hnone.
    destruct (any_keyword keywords (PyStr.lower soup_text) (PyStr.lower body))
      eqn:E; [| reflexivity].
    apply any_keyword_spec in E. destruct E as [kw [Hin [H | H]]];
      destruct (Hnone kw Hin); contradiction.
Qed.

Lemma confirm_verdict_iff_keyword_witness :
  exists verdict : bool,
    unsubscribe_http
      (Example.web_ok Example.landing_page "You Have Been UNSUBSCRIBED")
      "https://shop.com/u?1" = Returned verdict /\
    (verdict = true <->
     exists kw, In kw keywords /\
                (Substring kw (PyStr.lower "You Have Been UNSUBSCRIBED") \/
                 Substring kw (PyStr.lower Example.landing_page))) /\
    (forall casing : string,
        PyStr.lower casing = "you have been unsubscribed" ->
        Substring casing Example.landing_page -> verdict = true) /\
    ((forall kw, In kw keywords ->
                 ~ Substring kw (PyStr.lower "You Have Been UNSUBSCRIBED") /\
                 ~ Substring kw (PyStr.lower Example.landing_page)) ->
     verdict = false).
Proof.
  apply (confirm_verdict_iff_keyword
           (Example.web_ok Example.landing_page "You Have Been UNSUBSCRIBED")
           "https://shop.com/u?1"
           (mkResponse (Returned Example.landing_page))
           Example.landing_page "You Have Been UNSUBSCRIBED");
    reflexivity.
Defined.

(** C3. Whatever the url, when the fetch fails with a timeout, a
    connection error, a TLS error, a decoding error or a parse error,
    [unsubscribe_http] returns [False]: it does not raise. *)
Theorem transport_failure_gives_false
        (web : Web) (url : string) (e : PyExc) :
  transport_failure e ->
  fetch_fails web url e ->
  unsubscribe_http web url = Returned false.
Proof.
  intros He Hfail. unfold unsubscribe_http.
  eapply exception_swallowed; [| eassumption].
  now apply transport_failure_is_Exception.
Qed.

Lemma transport_failure_gives_false_witness :
  transport_failure TimeoutException /\
  fetch_fails (Example.web_down TimeoutException) "https://shop.com/u?1"
              TimeoutException /\
  unsubscribe_http (Example.web_down TimeoutException) "https://shop.com/u?1"
  = Returned false.
Proof.
  assert (Ht : transport_failure TimeoutException) by (left; reflexivity).
  assert (Hf : fetch_fails (Example.web_down TimeoutException)
                           "https://shop.com/u?1" TimeoutException)
    by (apply fails_in_get; reflexivity).
  split; [exact Ht | split; [exact Hf |]].
  exact (transport_failure_gives_false _ _ _ Ht Hf).
Defined.

(** C10. The verdict over the six keywords is the verdict over
    "unsubscribed", "removed" and "opted out" alone: each of the three
    other keywords holds one of these, so it never changes the
    verdict. *)
Theorem multiword_keywords_redundant :
  Substring "unsubscribed" "successfully unsubscribed" /\
  Substring "unsubscribed" "you have been unsubscribed" /\
  Substring "removed" "has been removed" /\
  (forall visible raw : string,
      any_keyword keywords visible raw
      = any_keyword short_keywords visible raw) /\
  (forall (web : Web) (url : string),
      unsubscribe_http web url = unsubscribe_http_with short_keywords web url).
Proof.
  assert (H3 : Substring "unsubscribed" "successfully unsubscribed")
    by (now exists "successfully ", "").
  assert (H4 : Substring "unsubscribed" "you have been unsubscribed")
    by (now exists "you have been ", "").
  assert (H5 : Substring "removed" "has been removed")
    by (now exists "has been ", "").
  assert (Hany : forall visible raw : string,
             any_keyword keywords visible raw
             = any_keyword short_keywords visible raw).
  { intros visible raw.
    assert (K3 : forall t, PyStr.contains "successfully unsubscribed" t = true ->
                           PyStr.contains "unsubscribed" t = true)
      by (intros t; apply contains_trans; now apply contains_spec).
    assert (K4 : forall t, PyStr.contains "you have been unsubscribed" t = true ->
                           PyStr.contains "unsubscribed" t = true)
      by (intros t; apply contains_trans; now apply contains_spec).
    assert (K5 : forall t, PyStr.contains "has been removed" t = true ->
                           PyStr.contains "removed" t = true)
      by (intros t; apply contains_trans; now apply contains_spec).
    unfold any_keyword, keywords, short_keywords. cbn [existsb].
    pose proof (K3 visible) as V3. pose proof (K3 raw) as R3.
    pose proof (K4 visible) as V4. pose proof (K4 raw) as R4.
    pose proof (K5 visible) as V5. pose proof (K5 raw) as R5.
    destruct (PyStr.contains "successfully unsubscribed" visible);
      destruct (PyStr.contains "successfully unsubscribed" raw);
      destruct (PyStr.contains "you have been unsubscribed" visible);
      destruct (PyStr.contains "you have been unsubscribed" raw);
      destruct (PyStr.contains "has been removed" visible);
      destruct (PyStr.contains "has been removed" raw);
      try rewrite V3 by reflexivity; try rewrite R3 by reflexivity;
      try rewrite V4 by reflexivity; try rewrite R4 by reflexivity;
      try rewrite V5 by reflexivity; try rewrite R5 by reflexivity;
      repeat rewrite ?orb_true_r, ?orb_true_l, ?orb_false_r, ?orb_false_l;
      reflexivity. }
  repeat split; trivial.
  intros web url. unfold unsubscribe_http, unsubscribe_http_with, confirm_attempt.
  destruct (client_get web url) as [resp |]; [| reflexivity].
  destruct (text resp) as [body |]; [| reflexivity].
  destruct (visible_text web body); [| reflexivity].
  now rewrite Hany.
Qed.

(** ** Header parser: the List-Unsubscribe value *)

Section FindAll.

Import UnsubRegex.
Local Open Scope string_scope.

Lemma until_gt_spec (s t r : string) :
  until_gt s = Some (t, r) -> s = t ++ ">" ++ r /\ gt_free t = true.
Proof.
  revert t r; induction s as [|c s IH]; intros t r; simpl; [discriminate |].
  destruct (is_gt c) eqn:Ec.
  - intros H; injection H as <- <-. apply Ascii.eqb_eq in Ec. subst c.
    now split.
  - destruct (until_gt s) as [[t' r'] |]; [| discriminate].
    intros H; injection H as <- <-.
    destruct (IH t' r' eq_refl) as [-> Hfree]. split; [reflexivity |].
    unfold gt_free in *. simpl. now rewrite Ec.
Qed.

Lemma until_gt_complete (t r : string) :
  gt_free t = true -> until_gt (t ++ ">" ++ r) = Some (t, r).
Proof.
  unfold gt_free. induction t as [|c t IH]; [reflexivity |].
  cbn [PyStr.all_chars]. intros H. apply andb_true_iff in H.
  destruct H as [Hc Ht]. apply negb_true_iff in Hc.
  change (String c t ++ ">" ++ r) with (String c (t ++ ">" ++ r)).
  cbn [until_gt]. now rewrite Hc, IH.
Qed.

Lemma match_at_spec (s t r : string) :
  match_at s = Some (t, r) ->
  s = "<" ++ t ++ ">" ++ r /\ t <> "" /\ gt_free t = true.
Proof.
  destruct s as [|c s]; simpl; [discriminate |].
  destruct (is_lt c) eqn:Ec; [| discriminate].
  apply Ascii.eqb_eq in Ec. subst c.
  destruct (until_gt s) as [[[|a t'] r'] |] eqn:E; try discriminate.
  intros H; injection H as <- <-.
  destruct (until_gt_spec _ _ _ E) as [-> Hfree]. now repeat split.
Qed.

Lemma match_at_complete (t r : string) :
  t <> "" -> gt_free t = true ->
  match_at ("<" ++ t ++ ">" ++ r) = Some (t, r).
Proof.
  intros Hne Hfree.
  change ("<" ++ t ++ ">" ++ r) with (String "<"%char (t ++ ">" ++ r)).
  unfold match_at. change (is_lt "<"%char) with true. cbv iota.
  rewrite (until_gt_complete t r Hfree).
  destruct t; [contradiction | reflexivity].
Qed.

Lemma scan_inside (s t r : string) :
  until_gt s = Some (t, r) -> scan true s = scan false r.
Proof.
  revert t r; induction s as [|c s IH]; intros t r; simpl; [discriminate |].
  destruct (is_gt c) eqn:Ec; simpl.
  - intros H; now injection H as <- <-.
  - destruct (until_gt s) as [[t' r'] |]; [| discriminate].
    intros H; injection H as <- <-. now apply (IH t').
Qed.

(** [findall] as the engine runs it: a match at the head is taken and
    the search goes on after it; otherwise the search moves on by one
    character. *)
Lemma findall_unfold (s : string) :
  findall s =
  match s with
  | EmptyString => []
  | String _ s' =>
      match match_at s with
      | Some (t, r) => t :: findall r
      | None => findall s'
      end
  end.
Proof.
  unfold findall. destruct s as [|c s]; [reflexivity |].
  cbn [scan]. destruct (match_at (String c s)) as [[t r] |] eqn:E;
    [| reflexivity].
  f_equal. simpl in E. destruct (is_lt c); [| discriminate].
  destruct (until_gt s) as [[[|a t'] r'] |] eqn:Eu; try discriminate.
  injection E as <- <-. now apply (scan_inside _ _ _ Eu).
Qed.

Lemma findall_in_order (s : string) : InOrder (findall s) s.
Proof.
  remember (String.length s) as n eqn:Hn.
  revert s Hn. induction n as [n IH] using lt_wf_ind. intros s Hn.
  rewrite findall_unfold. destruct s as [|c s]; [constructor |].
  destruct (match_at (String c s)) as [[t r] |] eqn:E.
  - destruct (match_at_spec _ _ _ E) as [Hs [Hne Hfree]]. rewrite Hs.
    apply (InOrder_cons "" _ _ _ Hne Hfree).
    apply (IH (String.length r)); [| reflexivity].
    subst n. rewrite Hs. simpl. rewrite !length_append. simpl. lia.
  - assert (H : InOrder (findall s) s)
      by (apply (IH (String.length s)); [subst n; simpl; lia | reflexivity]).
    inversion H as [s0 Hnil | pre t rest ts Hne Hfree Hrest Hts Hs].
    + constructor.
    + apply (InOrder_cons (String c pre) _ _ _ Hne Hfree Hrest).
Qed.

Lemma findall_finds (t pre post : string) :
  t <> "" -> gt_free t = true ->
  findall (pre ++ "<" ++ t ++ ">" ++ post) <> [].
Proof.
  intros Hne Hfree. induction pre as [|c pre IH].
  - rewrite findall_unfold.
    change ("" ++ "<" ++ t ++ ">" ++ post) with ("<" ++ t ++ ">" ++ post).
    rewrite (match_at_complete t post Hne Hfree). discriminate.
  - rewrite findall_unfold.
    change (String c pre ++ "<" ++ t ++ ">" ++ post)
      with (String c (pre ++ "<" ++ t ++ ">" ++ post)).
    cbv beta iota.
    destruct (match_at (String c (pre ++ "<" ++ t ++ ">" ++ post)))
      as [[t' r'] |]; [discriminate | exact IH].
Qed.

Lemma until_gt_some (x u v : string) :
  x = u ++ ">" ++ v -> exists t r, until_gt x = Some (t, r).
Proof.
  revert u. induction x as [|e x IH]; intros u H.
  - destruct u; discriminate.
  - cbn [until_gt]. destruct (is_gt e) eqn:Ee; [now exists "", x |].
    destruct u as [|e' u]; simpl in H; injection H as -> H.
    + discriminate.
    + destruct (IH u H) as [t [r ->]]. now exists (String e' t), r.
Qed.

(** Where a [<] opens no token although a [>] follows, the [>] follows
    at once. *)
Lemma match_at_lt_none (x u v : string) :
  match_at (String "<"%char x) = None ->
  x = u ++ ">" ++ v -> exists b', x = ">" ++ b'.
Proof.
  intros Hnone Hx. unfold match_at in Hnone.
  change (is_lt "<"%char) with true in Hnone. cbv iota in Hnone.
  destruct (until_gt_some x u v Hx) as [t [r E]]. rewrite E in Hnone.
  destruct t as [|a t]; [| discriminate].
  destruct (until_gt_spec _ _ _ E) as [-> _]. now exists r.
Qed.

Lemma no_token_starts_tail (c : ascii) (pre : string) :
  no_token_starts (String c pre) -> no_token_starts pre.
Proof.
  intros H a b E. apply (H (String c a) b). simpl. now rewrite E.
Qed.

(** The first token, whatever stands before it. *)
Lemma findall_first (pre t rest : string) :
  no_token_starts pre -> t <> "" -> gt_free t = true ->
  findall (pre ++ "<" ++ t ++ ">" ++ rest) = t :: findall rest.
Proof.
  intros Hpre Hne Hfree. induction pre as [|c pre IH].
  - change ("" ++ "<" ++ t ++ ">" ++ rest) with ("<" ++ t ++ ">" ++ rest).
    rewrite findall_unfold, (match_at_complete t rest Hne Hfree).
    reflexivity.
  - change (String c pre ++ "<" ++ t ++ ">" ++ rest)
      with (String c (pre ++ "<" ++ t ++ ">" ++ rest)).
    rewrite findall_unfold.
    assert (Hnone : match_at (String c (pre ++ "<" ++ t ++ ">" ++ rest))
                    = None).
    { unfold match_at. destruct (is_lt c) eqn:Ec; [| reflexivity].
      apply Ascii.eqb_eq in Ec. subst c.
      destruct (Hpre "" pre eq_refl) as [b' ->]. reflexivity. }
    rewrite Hnone. apply IH. now apply (no_token_starts_tail c).
Qed.

Lemma findall_none (s : string) :
  (forall t : string, t <> "" -> gt_free t = true -> ~ Enclosed t s) ->
  findall s = [].
Proof.
  intros Hno. pose proof (findall_in_order s) as H.
  destruct (findall s) as [|t ts]; [reflexivity |].
  exfalso. inversion H as [| pre t0 rest ts0 Hne Hfree Hrest]. subst.
  eapply Hno; [exact Hne | exact Hfree |].
  eexists. eexists. reflexivity.
Qed.

(** A reading of [s] as all its tokens is what [findall] returns. *)
Lemma Tokens_findall (s : string) (ts : list string) :
  Tokens s ts -> findall s = ts.
Proof.
  induction 1 as [s Hno | pre t rest ts Hne Hfree Hpre _ IH].
  - now apply findall_none.
  - rewrite (findall_first pre t rest Hpre Hne Hfree). now rewrite IH.
Qed.

Lemma Tokens_skip (c : ascii) (s : string) (ts : list string) :
  match_at (String c s) = None -> Tokens s ts -> Tokens (String c s) ts.
Proof.
  intros Hnone H. destruct H as [s Hno | pre t rest ts Hne Hfree Hpre Hrest].
  - apply Tokens_none. intros t Hne Hfree [pre [post E]].
    destruct pre as [|c' pre].
    + change ("" ++ "<" ++ t ++ ">" ++ post) with ("<" ++ t ++ ">" ++ post)
        in E.
      rewrite E, (match_at_complete t post Hne Hfree) in Hnone. discriminate.
    + simpl in E. injection E as _ E. apply (Hno t Hne Hfree).
      now exists pre, post.
  - change (String c (pre ++ "<" ++ t ++ ">" ++ rest))
      with (String c pre ++ "<" ++ t ++ ">" ++ rest).
    apply Tokens_first; trivial.
    intros a b E. destruct a as [|c' a].
    + simpl in E. injection E as Hc Hb. subst c. subst b.
      destruct (match_at_lt_none (pre ++ "<" ++ t ++ ">" ++ rest)
                                 (pre ++ "<" ++ t) rest Hnone)
        as [b' Hb].
      { now rewrite !append_assoc. }
      destruct pre as [|e pre]; simpl in Hb; injection Hb as Hb _.
      * discriminate.
      * subst e. now exists pre.
    + simpl in E. injection E as _ E. now apply (Hpre a b).
Qed.

(** What [findall] returns is a reading of [s] as all its tokens. *)
Lemma findall_Tokens (s : string) : Tokens s (findall s).
Proof.
  remember (String.length s) as n eqn:Hn.
  revert s Hn. induction n as [n IH] using lt_wf_ind. intros s Hn.
  rewrite findall_unfold. destruct s as [|c s].
  - apply Tokens_none. intros t _ _ [pre [post E]].
    destruct pre; discriminate.
  - destruct (match_at (String c s)) as [[t r] |] eqn:E.
    + destruct (match_at_spec _ _ _ E) as [Hs [Hne Hfree]]. rewrite Hs.
      apply (Tokens_first "" t r); trivial.
      * intros a b Ha. destruct a; discriminate.
      * apply (IH (String.length r)); [| reflexivity].
        subst n. rewrite Hs. simpl. rewrite !length_append. simpl. lia.
    + apply Tokens_skip; [exact E |].
      apply (IH (String.length s)); [subst n; simpl; lia | reflexivity].
Qed.

End FindAll.

Section Classify.

Lemma http_not_mailto (m : string) :
  is_http_token m = true -> is_mailto_token m = false.
Proof.
  unfold is_http_token, is_mailto_token. intros H.
  destruct (PyStr.startswith "mailto:" m) eqn:E; [| reflexivity].
  apply startswith_spec in E. destruct E as [r ->].
  simpl in H. discriminate.
Qed.

Lemma classify_fold (toks links mailtos : list string) :
  fold_left classify_step toks (links, mailtos)
  = (links ++ filter is_http_token toks,
     mailtos ++ filter is_mailto_token toks).
Proof.
  revert links mailtos; induction toks as [|m toks IH]; intros links mailtos.
  - simpl. now rewrite !app_nil_r.
  - cbn [fold_left filter]. unfold classify_step at 2.
    destruct (is_http_token m) eqn:Eh.
    + rewrite (http_not_mailto _ Eh), IH. now rewrite <- app_assoc.
    + destruct (is_mailto_token m); rewrite IH; [| reflexivity].
      now rewrite <- app_assoc.
Qed.

Lemma parse_as_filters (header_value : string) :
  _parse_unsubscribe_header header_value
  = (filter is_http_token (UnsubRegex.findall header_value),
     filter is_mailto_token (UnsubRegex.findall header_value)).
Proof.
  unfold _parse_unsubscribe_header. now rewrite classify_fold.
Qed.

Lemma filter_two_length {A} (p q : A -> bool) (l : list A) :
  (forall x, p x = true -> q x = false) ->
  (List.length (filter p l) + List.length (filter q l) <= List.length l)%nat.
Proof.
  intros Hpq. induction l as [|x l IH]; simpl; [lia |].
  destruct (p x) eqn:Ep.
  - rewrite (Hpq x Ep). simpl. lia.
  - destruct (q x); simpl; lia.
Qed.

End Classify.

(** C6. The tokens of a List-Unsubscribe value are all its bracketed
    runs, met from left to right: [findall] returns the one reading of
    the value as the list of all its tokens, each of them, not the
    first alone.  The tokens that start with "http://" or "https://"
    make up [http_links], those that start with "mailto:" make up
    [mailto_links], each in the order of the tokens; a token of another
    scheme is in neither; and the two lists together are no longer than
    the list of tokens. *)
Theorem parse_unsubscribe_header_classifies (header_value : string) :
  let tokens := UnsubRegex.findall header_value in
  let http_links := fst (_parse_unsubscribe_header header_value) in
  let mailto_links := snd (_parse_unsubscribe_header header_value) in
  Tokens header_value tokens /\
  (forall ts : list string, Tokens header_value ts -> ts = tokens) /\
  InOrder tokens header_value /\
  (forall t : string,
      t <> "" -> gt_free t = true -> Enclosed t header_value ->
      tokens <> []) /\
  http_links = filter is_http_token tokens /\
  mailto_links = filter is_mailto_token tokens /\
  (forall t : string,
      In t tokens -> is_http_token t = false -> is_mailto_token t = false ->
      ~ In t http_links /\ ~ In t mailto_links) /\
  (List.length http_links + List.length mailto_links
   <= List.length tokens)%nat.
Proof.
  cbv zeta. rewrite parse_as_filters. cbn [fst snd].
  split; [apply findall_Tokens |].
  split; [intros ts Hts; symmetry; now apply Tokens_findall |].
  split; [apply findall_in_order |].
  split; [intros t Hne Hfree [pre [post ->]]; now apply findall_finds |].
  split; [reflexivity |]. split; [reflexivity |].
  split.
  - intros t _ Hh Hm. rewrite !filter_In. split; intros [_ H]; congruence.
  - apply filter_two_length, http_not_mailto.
Qed.

(** A value with several tokens: both http links and the mailto entry
    are kept, the token of another scheme and the empty brackets are
    not. *)
Example parse_unsubscribe_header_sample :
  _parse_unsubscribe_header
    "<mailto:off@shop.com>, <https://shop.com/u>, <ftp://x>, <>, <http://a/b>"
  = (["https://shop.com/u"; "http://a/b"], ["mailto:off@shop.com"]).
Proof. reflexivity. Qed.

(** ** Header parser: the sender *)

Section SenderPatternFacts.

Import SenderRegex.
Local Open Scope string_scope.

Lemma at_end_gt_false (g tl : string) : at_end (g ++ ">" ++ tl) = false.
Proof.
  destruct g as [|c [|d g]]; simpl; try reflexivity.
  destruct tl; reflexivity.
Qed.

Lemma address_tail_sound (s g : string) :
  address_tail s = Some g ->
  newline_free g = true /\
  exists tl, s = g ++ ">" ++ tl /\ at_end tl = true.
Proof.
  revert g; induction s as [|c s IH]; intros g; simpl; [discriminate |].
  destruct (is_gt c && at_end s) eqn:E.
  - intros H; injection H as <-. apply andb_true_iff in E.
    destruct E as [Ec Hend]. apply Ascii.eqb_eq in Ec. subst c.
    split; [reflexivity | now exists s].
  - destruct (is_newline c) eqn:En; [discriminate |].
    destruct (address_tail s) as [g' |]; [| discriminate].
    intros H; injection H as <-.
    destruct (IH g' eq_refl) as [Hfree [tl [-> Hend]]]. split.
    + unfold newline_free in *. simpl. now rewrite En.
    + now exists tl.
Qed.

Lemma address_tail_complete (g tl : string) :
  newline_free g = true -> at_end tl = true ->
  address_tail (g ++ ">" ++ tl) = Some g.
Proof.
  unfold newline_free. intros Hg Hend. induction g as [|c g IH].
  - change ("" ++ ">" ++ tl) with (String ">"%char tl). cbn [address_tail].
    change (is_gt ">"%char) with true. now rewrite Hend.
  - cbn [PyStr.all_chars] in Hg. apply andb_true_iff in Hg.
    destruct Hg as [Hc Hg]. apply negb_true_iff in Hc.
    change (String c g ++ ">" ++ tl) with (String c (g ++ ">" ++ tl)).
    cbn [address_tail]. rewrite at_end_gt_false, andb_false_r, Hc.
    now rewrite (IH Hg).
Qed.

Lemma address_group_sound (s a : string) :
  address_group s = Some a ->
  a <> "" /\ newline_free a = true /\
  exists tl, s = a ++ ">" ++ tl /\ at_end tl = true.
Proof.
  destruct s as [|c s]; simpl; [discriminate |].
  destruct (is_newline c) eqn:En; [discriminate |].
  destruct (address_tail s) as [g |] eqn:E; [| discriminate].
  intros H; injection H as <-.
  destruct (address_tail_sound _ _ E) as [Hfree [tl [-> Hend]]].
  split; [discriminate | split].
  - unfold newline_free in *. simpl. now rewrite En.
  - now exists tl.
Qed.

Lemma address_group_complete (a tl : string) :
  a <> "" -> newline_free a = true -> at_end tl = true ->
  address_group (a ++ ">" ++ tl) = Some a.
Proof.
  intros Hne Ha Hend. destruct a as [|c a]; [contradiction |].
  unfold newline_free in Ha. cbn [PyStr.all_chars] in Ha.
  apply andb_true_iff in Ha. destruct Ha as [Hc Ha].
  apply negb_true_iff in Hc.
  change (String c a ++ ">" ++ tl) with (String c (a ++ ">" ++ tl)).
  cbn [address_group]. rewrite Hc.
  now rewrite (address_tail_complete a tl Ha Hend).
Qed.

Lemma spaces_then_address_sound (s a : string) :
  spaces_then_address s = Some a ->
  exists ws rest,
    s = ws ++ "<" ++ rest /\ all_space ws = true /\
    address_group rest = Some a.
Proof.
  revert a; induction s as [|c s IH]; intros a; [discriminate |].
  cbn [spaces_then_address].
  destruct (PyStr.isspace c) eqn:Es.
  - destruct (spaces_then_address s) as [a' |] eqn:E.
    + intros H; injection H as <-.
      destruct (IH a' eq_refl) as [ws [rest [-> [Hws Hrest]]]].
      exists (String c ws), rest. repeat split; trivial.
      unfold all_space in *. simpl. now rewrite Es.
    + destruct (is_lt c) eqn:El; [| discriminate].
      apply Ascii.eqb_eq in El. subst c. discriminate.
  - destruct (is_lt c) eqn:El; [| discriminate].
    apply Ascii.eqb_eq in El. subst c. intros H.
    now exists "", s.
Qed.

Lemma spaces_then_address_complete (ws rest a : string) :
  all_space ws = true -> address_group rest = Some a ->
  spaces_then_address (ws ++ "<" ++ rest) = Some a.
Proof.
  unfold all_space. intros Hws Hrest. induction ws as [|c ws IH].
  - change ("" ++ "<" ++ rest) with (String "<"%char rest).
    cbn [spaces_then_address].
    change (PyStr.isspace "<"%char) with false.
    change (is_lt "<"%char) with true. exact Hrest.
  - cbn [PyStr.all_chars] in Hws. apply andb_true_iff in Hws.
    destruct Hws as [Hc Hws].
    change (String c ws ++ "<" ++ rest) with (String c (ws ++ "<" ++ rest)).
    cbn [spaces_then_address]. now rewrite Hc, (IH Hws).
Qed.

(** What follows the display name in a match of the pattern. *)
Lemma after_name_iff (rest a : string) :
  spaces_then_address rest = Some a <->
  exists ws tl,
    rest = ws ++ "<" ++ a ++ ">" ++ tl /\ all_space ws = true /\
    a <> "" /\ newline_free a = true /\ at_end tl = true.
Proof.
  split.
  - intros H. destruct (spaces_then_address_sound _ _ H)
      as [ws [r [-> [Hws Hr]]]].
    destruct (address_group_sound _ _ Hr) as [Hne [Hfree [tl [-> Hend]]]].
    now exists ws, tl.
  - intros [ws [tl [-> [Hws [Hne [Hfree Hend]]]]]].
    apply spaces_then_address_complete; [assumption |].
    now apply address_group_complete.
Qed.

Lemma SenderPattern_iff (v n a : string) :
  SenderPattern v n a <->
  n <> "" /\ newline_free n = true /\
  exists rest, v = n ++ rest /\ spaces_then_address rest = Some a.
Proof.
  unfold SenderPattern. split.
  - intros [ws [tl [-> [Hn [Hnf [Hws [Ha [Haf Hend]]]]]]]].
    repeat split; trivial. eexists; split; [reflexivity |].
    apply after_name_iff. now exists ws, tl.
  - intros [Hn [Hnf [rest [-> Hrest]]]].
    apply after_name_iff in Hrest.
    destruct Hrest as [ws [tl [-> [Hws [Ha [Haf Hend]]]]]].
    now exists ws, tl.
Qed.

Lemma name_tail_sound (s n a : string) :
  name_tail s = Some (n, a) ->
  newline_free n = true /\
  exists rest, s = n ++ rest /\ spaces_then_address rest = Some a.
Proof.
  revert n a; induction s as [|c s IH]; intros n a.
  - cbn [name_tail spaces_then_address]. discriminate.
  - cbn [name_tail].
    destruct (spaces_then_address (String c s)) as [a0 |] eqn:E.
    + intros H; injection H as <- <-. split; [reflexivity |].
      now exists (String c s).
    + destruct (is_newline c) eqn:En; [discriminate |].
      destruct (name_tail s) as [[n0 a0] |]; [| discriminate].
      intros H; injection H as <- <-.
      destruct (IH n0 a0 eq_refl) as [Hfree [rest [-> Hrest]]]. split.
      * unfold newline_free in *. simpl. now rewrite En.
      * now exists rest.
Qed.

Lemma name_tail_shortest (s n a : string) :
  name_tail s = Some (n, a) ->
  forall n' rest',
    s = n' ++ rest' -> spaces_then_address rest' <> None ->
    (String.length n <= String.length n')%nat.
Proof.
  revert n a; induction s as [|c s IH]; intros n a.
  - cbn [name_tail spaces_then_address]. discriminate.
  - cbn [name_tail].
    destruct (spaces_then_address (String c s)) as [a0 |] eqn:E.
    + intros H; injection H as <- <-. intros. simpl. lia.
    + destruct (is_newline c) eqn:En; [discriminate |].
      destruct (name_tail s) as [[n0 a0] |] eqn:En0; [| discriminate].
      intros H; injection H as <- <-. intros n' rest' Hs Hrest.
      destruct n' as [|c' n'].
      * simpl in Hs. subst rest'. congruence.
      * simpl in Hs. injection Hs as _ Hs. simpl.
        specialize (IH n0 a0 eq_refl n' rest' Hs Hrest). lia.
Qed.

Lemma name_tail_complete (n rest : string) :
  newline_free n = true -> spaces_then_address rest <> None ->
  name_tail (n ++ rest) <> None.
Proof.
  unfold newline_free. intros Hn Hrest. induction n as [|c n IH].
  - change ("" ++ rest) with rest. destruct rest as [|d rest];
      cbn [name_tail]; destruct (spaces_then_address _); congruence.
  - cbn [PyStr.all_chars] in Hn. apply andb_true_iff in Hn.
    destruct Hn as [Hc Hn]. apply negb_true_iff in Hc.
    change (String c n ++ rest) with (String c (n ++ rest)).
    cbn [name_tail].
    destruct (spaces_then_address (String c (n ++ rest)));
      [discriminate |].
    rewrite Hc. specialize (IH Hn).
    destruct (name_tail (n ++ rest)) as [[n0 a0] |];
      [discriminate | contradiction].
Qed.

(** A match gives a reading of the value as the pattern. *)
Lemma re_match_sound (v n a : string) :
  re_match v = Some (n, a) -> SenderPattern v n a.
Proof.
  intros H. apply SenderPattern_iff.
  destruct v as [|c v]; simpl in H; [discriminate |].
  destruct (is_newline c) eqn:En; [discriminate |].
  destruct (name_tail v) as [[n0 a0] |] eqn:E; [| discriminate].
  injection H as <- <-.
  destruct (name_tail_sound _ _ _ E) as [Hfree [rest [-> Hrest]]].
  split; [discriminate | split].
  - unfold newline_free in *. simpl. now rewrite En.
  - now exists rest.
Qed.

(** The display name of a match is the shortest one any reading has. *)
Lemma re_match_lazy (v n a : string) :
  re_match v = Some (n, a) ->
  forall n' a', SenderPattern v n' a' ->
                (String.length n <= String.length n')%nat.
Proof.
  intros H n' a' Hp. apply SenderPattern_iff in Hp.
  destruct Hp as [Hne [Hfree [rest [Hv Hrest]]]].
  destruct v as [|c v]; simpl in H; [discriminate |].
  destruct (is_newline c) eqn:En; [discriminate |].
  destruct (name_tail v) as [[n0 a0] |] eqn:E; [| discriminate].
  injection H as <- <-.
  destruct n' as [|c' n']; [contradiction |].
  simpl in Hv. injection Hv as _ Hv. simpl.
  assert (Hr : spaces_then_address rest <> None) by congruence.
  pose proof (name_tail_shortest _ _ _ E _ _ Hv Hr). lia.
Qed.

(** A value that has a reading is matched. *)
Lemma re_match_complete (v n a : string) :
  SenderPattern v n a -> re_match v <> None.
Proof.
  intros Hp. apply SenderPattern_iff in Hp.
  destruct Hp as [Hne [Hfree [rest [-> Hrest]]]].
  destruct n as [|c n]; [contradiction |].
  unfold newline_free in Hfree. cbn [PyStr.all_chars] in Hfree.
  apply andb_true_iff in Hfree. destruct Hfree as [Hc Hn].
  apply negb_true_iff in Hc.
  change (String c n ++ rest) with (String c (n ++ rest)).
  cbn [re_match]. rewrite Hc.
  assert (Hr : spaces_then_address rest <> None) by congruence.
  pose proof (name_tail_complete n rest Hn Hr) as Hnt.
  destruct (name_tail (n ++ rest)) as [[n0 a0] |];
    [discriminate | contradiction].
Qed.

Lemma append_same_length (a b c d : string) :
  a ++ b = c ++ d -> String.length a = String.length c ->
  a = c /\ b = d.
Proof.
  revert c; induction a as [|x a IH]; intros [|y c]; simpl;
    try discriminate.
  - now intros -> _.
  - intros H Hl. injection H as -> H. injection Hl as Hl.
    destruct (IH c H Hl) as [-> ->]. now split.
Qed.

(** The match is the reading with the shortest display name. *)
Lemma re_match_of_shortest (v n a : string) :
  SenderPattern v n a ->
  (forall n' a', SenderPattern v n' a' ->
                 (String.length n <= String.length n')%nat) ->
  re_match v = Some (n, a).
Proof.
  intros Hp Hmin.
  destruct (re_match v) as [[n0 a0] |] eqn:E.
  - pose proof (re_match_sound _ _ _ E) as Hp0.
    pose proof (re_match_lazy _ _ _ E _ _ Hp) as H1.
    pose proof (Hmin _ _ Hp0) as H2.
    apply SenderPattern_iff in Hp, Hp0.
    destruct Hp as [_ [_ [rest [Hv Hrest]]]].
    destruct Hp0 as [_ [_ [rest0 [Hv0 Hrest0]]]].
    rewrite Hv in Hv0.
    destruct (append_same_length _ _ _ _ Hv0 ltac:(lia)) as [-> ->].
    congruence.
  - exfalso. now apply (re_match_complete _ _ _ Hp).
Qed.

End SenderPatternFacts.


Section Strip.

Local Open Scope string_scope.
Variable p : ascii -> bool.

Lemma lstrip_by_spec (s : string) :
  exists l, s = l ++ PyStr.lstrip_by p s /\
            PyStr.all_chars p l = true /\
            starts_in p (PyStr.lstrip_by p s) = false.
Proof.
  induction s as [|c s [l [Hs [Hl Hstart]]]].
  - now exists "".
  - simpl. destruct (p c) eqn:Ec.
    + exists (String c l). simpl. rewrite Ec, <- Hs. now repeat split.
    + exists "". simpl. now repeat split.
Qed.

Lemma rstrip_by_spec (s : string) :
  exists r, s = PyStr.rstrip_by p s ++ r /\
            PyStr.all_chars p r = true /\
            ends_in p (PyStr.rstrip_by p s) = false.
Proof.
  induction s as [|c s [r [Hs [Hr Hend]]]].
  - now exists "".
  - cbn [PyStr.rstrip_by].
    destruct (PyStr.rstrip_by p s) as [|d t] eqn:E.
    + simpl in Hs. subst r. destruct (p c) eqn:Ec.
      * exists (String c s). cbn [PyStr.all_chars]. rewrite Ec, Hr.
        now repeat split.
      * exists s. cbn [ends_in]. now repeat split.
    + exists r. change (String c (String d t) ++ r)
        with (String c (String d t ++ r)). rewrite <- Hs.
      repeat split; trivial.
Qed.

Lemma rstrip_keeps_start (s : string) :
  starts_in p s = false -> starts_in p (PyStr.rstrip_by p s) = false.
Proof.
  destruct s as [|c s]; [reflexivity |]. cbn [PyStr.rstrip_by starts_in].
  intros Hc. destruct (PyStr.rstrip_by p s); [now rewrite Hc | exact Hc].
Qed.

Lemma strip_by_Stripped (s : string) : Stripped p s (PyStr.strip_by p s).
Proof.
  unfold Stripped, PyStr.strip_by.
  destruct (lstrip_by_spec s) as [l [Hs [Hl Hstart]]].
  destruct (rstrip_by_spec (PyStr.lstrip_by p s)) as [r [Hm [Hr Hend]]].
  exists l, r. repeat split; trivial.
  - rewrite <- Hm. exact Hs.
  - now apply rstrip_keeps_start.
Qed.

End Strip.

Section SenderInfo.

Lemma get_header_value_first (headers : list Header) (nm v : string) :
  _get_header_value headers nm = Some v <->
  exists first, FirstNamed nm headers first /\ value first = v.
Proof.
  unfold FirstNamed. induction headers as [|h hs IH]; simpl.
  - split; [discriminate |].
    intros [first [[pre [post [H _]]] _]]. destruct pre; discriminate.
  - destruct (String.eqb_spec (PyStr.lower (name h)) (PyStr.lower nm))
      as [E | E].
    + split.
      * intros H; injection H as <-. exists h. split; [| reflexivity].
        now exists [], hs.
      * intros [first [[pre [post [H [Hn Hpre]]]] <-]].
        destruct pre as [|h' pre]; simpl in H; injection H as -> ->.
        -- reflexivity.
        -- inversion Hpre; contradiction.
    + rewrite IH. split.
      * intros [first [[pre [post [-> [Hn Hpre]]]] <-]].
        exists first. split; [| reflexivity].
        exists (h :: pre), post. repeat split; trivial.
        now constructor.
      * intros [first [[pre [post [H [Hn Hpre]]]] <-]].
        exists first. split; [| reflexivity].
        destruct pre as [|h' pre]; simpl in H; injection H as -> ->.
        -- contradiction.
        -- exists pre, post. inversion Hpre; now repeat split.
Qed.

Lemma get_header_value_none (headers : list Header) (nm : string) :
  _get_header_value headers nm = None <->
  Forall (fun h => PyStr.lower (name h) <> PyStr.lower nm) headers.
Proof.
  induction headers as [|h hs IH]; simpl.
  - split; [constructor | reflexivity].
  - destruct (String.eqb_spec (PyStr.lower (name h)) (PyStr.lower nm))
      as [E | E].
    + split; [discriminate | intros H; inversion H; contradiction].
    + rewrite IH. split; [now constructor | intros H; now inversion H].
Qed.

(** The loop over the headers in [_extract_sender_info] is
    [_get_header_value] for the name "From", with the empty string
    when there is none. *)
Lemma extract_sender_info_from (headers : list Header) :
  _extract_sender_info headers =
  let from_header :=
    match _get_header_value headers "From" with
    | Some v => v
    | None => ""
    end in
  match SenderRegex.re_match from_header with
  | Some (g1, g2) =>
      (PyStr.strip_quotes (PyStr.strip g1), PyStr.strip g2)
  | None => (PyStr.strip from_header, PyStr.strip from_header)
  end.
Proof.
  unfold _extract_sender_info. cbv zeta.
  match goal with
  | |- match SenderRegex.re_match ?a with _ => _ end
       = match SenderRegex.re_match ?b with _ => _ end =>
      assert (E : a = b); [| now rewrite E]
  end.
  induction headers as [|h hs IH]; [reflexivity |].
  cbn [_get_header_value]. change (PyStr.lower "From") with "from".
  destruct (String.eqb (PyStr.lower (name h)) "from"); [reflexivity |].
  exact IH.
Qed.

End SenderInfo.

(** C5, as the code has it.  [_extract_sender_info] reads the first
    header named "From" up to case.  When its value reads as display
    name, white space, bracketed address, the function takes the
    reading with the shortest display name and returns that name
    without the white space at its ends and then without the double
    quotes at its ends, and the address without the white space at its
    ends.  When the value has no such reading both results are the
    value without the white space at its ends.  With no From header
    both are empty.  ([strip_by_Stripped] says what the stripping
    removes.) *)
Theorem extract_sender_info_shortest_name (headers : list Header) :
  (Forall (fun h => PyStr.lower (name h) <> "from") headers ->
   _extract_sender_info headers = ("", "")) /\
  (forall first : Header,
      FirstNamed "From" headers first ->
      (forall n a : string,
          SenderPattern (value first) n a ->
          (forall n' a', SenderPattern (value first) n' a' ->
                         (String.length n <= String.length n')%nat) ->
          _extract_sender_info headers
          = (PyStr.strip_quotes (PyStr.strip n), PyStr.strip a)) /\
      ((forall n a : string, ~ SenderPattern (value first) n a) ->
       _extract_sender_info headers
       = (PyStr.strip (value first), PyStr.strip (value first)))).
Proof.
  split.
  - intros Hnone. rewrite extract_sender_info_from.
    assert (E : _get_header_value headers "From" = None)
      by (now apply get_header_value_none).
    now rewrite E.
  - intros first Hfirst.
    assert (E : _get_header_value headers "From" = Some (value first))
      by (apply get_header_value_first; now exists first).
    rewrite extract_sender_info_from, E. cbv zeta. split.
    + intros n a Hp Hmin.
      now rewrite (re_match_of_shortest _ _ _ Hp Hmin).
    + intros Hno.
      destruct (SenderRegex.re_match (value first)) as [[n a] |] eqn:Em;
        [| reflexivity].
      exfalso. exact (Hno n a (re_match_sound _ _ _ Em)).
Qed.

Lemma extract_sender_info_shortest_name_witness :
  _extract_sender_info
    [mkHeader "Subject" "Sale"; mkHeader "FROM" "A <b> <c>";
     mkHeader "From" "Z <y>"]
  = ("A", "b> <c").
Proof.
  pose (hs := [mkHeader "Subject" "Sale"; mkHeader "FROM" "A <b> <c>";
               mkHeader "From" "Z <y>"]).
  destruct (extract_sender_info_shortest_name hs) as [_ H].
  destruct (H (mkHeader "FROM" "A <b> <c>")) as [Hmatch _].
  - exists [mkHeader "Subject" "Sale"], [mkHeader "From" "Z <y>"].
    split; [reflexivity | split; [reflexivity |]].
    constructor; [discriminate | constructor].
  - apply (Hmatch "A" "b> <c")%string.
    + exists " "%string, ""%string. repeat split; discriminate.
    + intros n' a' [ws [tl [_ [Hne _]]]].
      destruct n'; [contradiction | simpl; lia].
Defined.

(** C5, as the specification words it, fails: with two bracketed parts
    a greedy display name would run up to the last one, and the code
    takes off every double quote at the ends of the name, not one
    layer. *)
Lemma extract_sender_info_not_greedy :
  let q := String PyStr.dquote "" in
  let two_brackets := [mkHeader "From" "A <b> <c>"] in
  let two_quotes :=
    [mkHeader "From" (q ++ q ++ "Bob" ++ q ++ q ++ " <b@c.d>")%string] in
  (_extract_sender_info two_brackets = ("A", "b> <c") /\
   Claimed.extractSenderIdentity two_brackets = ("A <b>", "c") /\
   _extract_sender_info two_brackets
   <> Claimed.extractSenderIdentity two_brackets) /\
  (_extract_sender_info two_quotes = ("Bob", "b@c.d") /\
   Claimed.extractSenderIdentity two_quotes
   = ((q ++ "Bob" ++ q)%string, "b@c.d") /\
   _extract_sender_info two_quotes
   <> Claimed.extractSenderIdentity two_quotes).
Proof.
  cbv zeta. repeat split; try reflexivity; vm_compute; discriminate.
Qed.

(** ** Lists: order and the stable sort *)

Section ListOrder.

Context {A : Type}.

Lemma filter_eq_app (p : A -> bool) (l a b : list A) :
  filter p l = a ++ b ->
  exists la lb, l = la ++ lb /\ filter p la = a /\ filter p lb = b.
Proof.
  revert a; induction l as [|x l IH]; intros a H.
  - simpl in H. symmetry in H. apply app_eq_nil in H.
    destruct H as [-> ->]. now exists [], [].
  - simpl in H. destruct (p x) eqn:Ex.
    + destruct a as [|y a].
      * exists [], (x :: l). simpl. rewrite Ex. now repeat split.
      * simpl in H. injection H as <- H.
        destruct (IH a H) as [la [lb [-> [Ha Hb]]]].
        exists (x :: la), lb. simpl. rewrite Ex, Ha. now repeat split.
    + destruct (IH a H) as [la [lb [-> [Ha Hb]]]].
      exists (x :: la), lb. simpl. rewrite Ex. now repeat split.
Qed.

Lemma filter_eq_cons (p : A -> bool) (l r : list A) (x : A) :
  filter p l = x :: r ->
  exists l1 l2, l = l1 ++ x :: l2 /\ filter p l2 = r.
Proof.
  induction l as [|y l IH]; simpl; [discriminate |].
  destruct (p y).
  - intros H; injection H as -> <-. now exists [], l.
  - intros H. destruct (IH H) as [l1 [l2 [-> Hr]]].
    now exists (y :: l1), l2.
Qed.

Lemma Precedes_of_filter (p : A -> bool) (x y : A) (l : list A) :
  Precedes x y (filter p l) -> Precedes x y l.
Proof.
  intros [l1 [l2 [l3 H]]].
  destruct (filter_eq_app _ _ _ _ H) as [la [lb [-> [_ Hb]]]].
  destruct (filter_eq_cons _ _ _ _ Hb) as [lb1 [lb2 [-> Hb2]]].
  destruct (filter_eq_app _ _ _ _ Hb2) as [lc [ld [-> [_ Hd]]]].
  destruct (filter_eq_cons _ _ _ _ Hd) as [ld1 [ld2 [-> _]]].
  exists (la ++ lb1), (lc ++ ld1), ld2.
  now rewrite <- !app_assoc.
Qed.

Lemma Precedes_in_filter (p : A -> bool) (x y : A) (l : list A) :
  Precedes x y l -> p x = true -> p y = true ->
  Precedes x y (filter p l).
Proof.
  intros [l1 [l2 [l3 ->]]] Hx Hy.
  exists (filter p l1), (filter p l2), (filter p l3).
  rewrite filter_app. simpl. rewrite Hx, filter_app. simpl.
  now rewrite Hy.
Qed.

Lemma Precedes_In (x y : A) (l : list A) :
  Precedes x y l -> In x l /\ In y l.
Proof.
  intros [l1 [l2 [l3 ->]]]. split.
  - apply in_or_app. right. now left.
  - apply in_or_app. right. right. apply in_or_app. right. now left.
Qed.

Lemma Precedes_total (x y : A) (l : list A) :
  In x l -> In y l -> x <> y -> Precedes x y l \/ Precedes y x l.
Proof.
  intros Hx Hy Hne. apply in_split in Hx. destruct Hx as [l1 [l2 ->]].
  apply in_app_or in Hy. destruct Hy as [Hy | [Hy | Hy]].
  - right. apply in_split in Hy. destruct Hy as [m1 [m2 ->]].
    exists m1, m2, l2. now rewrite <- app_assoc.
  - contradiction.
  - left. apply in_split in Hy. destruct Hy as [m1 [m2 ->]].
    now exists l1, m1, m2.
Qed.

Lemma split_at_unique (a b c d : list A) (z : A) :
  ~ In z (a ++ b) -> a ++ z :: b = c ++ z :: d -> a = c.
Proof.
  revert b c d. induction a as [|u a IH]; intros b [|v c] d Hz E.
  - reflexivity.
  - simpl in E, Hz. injection E as -> E. exfalso. apply Hz.
    rewrite E. apply in_or_app. right. simpl. now left.
  - simpl in E, Hz. injection E as -> E. exfalso. apply Hz. now left.
  - simpl in E, Hz. injection E as -> E. f_equal.
    apply (IH b c d); [| exact E].
    intros Hin. apply Hz. now right.
Qed.

Lemma Precedes_NoDup_asym (x y : A) (l : list A) :
  NoDup l -> Precedes x y l -> ~ Precedes y x l.
Proof.
  intros Hnd [l1 [l2 [l3 ->]]] [m1 [m2 [m3 H]]].
  pose proof (NoDup_remove_2 _ _ _ Hnd) as Hx.
  assert (E : l1 = m1 ++ y :: m2).
  { apply (split_at_unique l1 (l2 ++ y :: l3) (m1 ++ y :: m2) m3 x Hx).
    rewrite H. now rewrite <- app_assoc. }
  subst l1. rewrite <- app_assoc in Hnd. simpl in Hnd.
  apply NoDup_remove_2 in Hnd. apply Hnd.
  apply in_or_app. right. apply in_or_app. right. right.
  apply in_or_app. right. now left.
Qed.

End ListOrder.

Lemma Precedes_map {A B : Type} (f : A -> B) (x y : A) (l : list A) :
  Precedes x y l -> Precedes (f x) (f y) (map f l).
Proof.
  intros [l1 [l2 [l3 ->]]]. exists (map f l1), (map f l2), (map f l3).
  rewrite map_app. simpl. now rewrite map_app.
Qed.

Lemma Precedes_of_map {A B : Type} (f : A -> B) (x y : A) (l : list A) :
  NoDup (map f l) -> In x l -> In y l ->
  Precedes (f x) (f y) (map f l) -> Precedes x y l.
Proof.
  intros Hnd Hx Hy Hp.
  assert (Hne : x <> y).
  { intros ->. apply (Precedes_NoDup_asym _ _ _ Hnd Hp). exact Hp. }
  destruct (Precedes_total x y l Hx Hy Hne) as [H | H]; [exact H |].
  exfalso. apply (Precedes_NoDup_asym _ _ _ Hnd Hp).
  now apply Precedes_map.
Qed.

Section StableSort.

Context {A : Type}.
Variable key : A -> Z.

Lemma insert_desc_perm (x : A) (l : list A) :
  Permutation (insert_desc key x l) (x :: l).
Proof.
  induction l as [|y l IH]; simpl; [apply Permutation_refl |].
  destruct (key x <? key y); [| apply Permutation_refl].
  eapply Permutation_trans; [apply perm_skip, IH | apply perm_swap].
Qed.

Lemma sorted_reverse_perm (l : list A) :
  Permutation (sorted_reverse key l) l.
Proof.
  induction l as [|x l IH]; simpl; [constructor |].
  eapply Permutation_trans; [apply insert_desc_perm |].
  now apply perm_skip.
Qed.

Lemma insert_desc_sorted (x : A) (l : list A) :
  Descending key l -> Descending key (insert_desc key x l).
Proof.
  unfold Descending. induction l as [|y l IH]; intros Hs; simpl.
  - constructor; constructor.
  - apply StronglySorted_inv in Hs. destruct Hs as [Hl Hy].
    destruct (key x <? key y) eqn:E.
    + apply Z.ltb_lt in E. constructor; [now apply IH |].
      apply Forall_forall. intros z Hz.
      apply (Permutation_in _ (insert_desc_perm x l)) in Hz.
      destruct Hz as [<- | Hz]; [lia |].
      rewrite Forall_forall in Hy. now apply Hy.
    + apply Z.ltb_ge in E. constructor.
      * now constructor.
      * constructor; [exact E |].
        apply Forall_forall. intros z Hz.
        rewrite Forall_forall in Hy. specialize (Hy z Hz). lia.
Qed.

Lemma sorted_reverse_sorted (l : list A) :
  Descending key (sorted_reverse key l).
Proof.
  induction l as [|x l IH]; simpl; [constructor |].
  now apply insert_desc_sorted.
Qed.

Lemma insert_desc_stable (c : Z) (x : A) (l : list A) :
  filter (fun y => key y =? c) (insert_desc key x l)
  = filter (fun y => key y =? c) (x :: l).
Proof.
  induction l as [|y l IH]; [reflexivity |].
  cbn [insert_desc]. destruct (key x <? key y) eqn:E; [| reflexivity].
  apply Z.ltb_lt in E. cbn [filter] in *. rewrite IH.
  destruct (key x =? c) eqn:Ex; [| reflexivity].
  apply Z.eqb_eq in Ex.
  assert (Ey : (key y =? c) = false) by (apply Z.eqb_neq; lia).
  now rewrite Ey.
Qed.

(** The elements of one key keep the order they had. *)
Lemma sorted_reverse_stable (c : Z) (l : list A) :
  filter (fun y => key y =? c) (sorted_reverse key l)
  = filter (fun y => key y =? c) l.
Proof.
  induction l as [|x l IH]; [reflexivity |].
  cbn [sorted_reverse fold_right]. rewrite insert_desc_stable.
  cbn [filter]. fold (sorted_reverse key l). now rewrite IH.
Qed.

Lemma sorted_reverse_order (x y : A) (l : list A) :
  key x = key y ->
  (Precedes x y (sorted_reverse key l) <-> Precedes x y l).
Proof.
  intros E. split; intros H.
  - apply (Precedes_of_filter (fun z => key z =? key x)).
    rewrite <- sorted_reverse_stable.
    apply Precedes_in_filter; [exact H | apply Z.eqb_refl |].
    apply Z.eqb_eq. now symmetry.
  - apply (Precedes_of_filter (fun z => key z =? key x)).
    rewrite sorted_reverse_stable.
    apply Precedes_in_filter; [exact H | apply Z.eqb_refl |].
    apply Z.eqb_eq. now symmetry.
Qed.

End StableSort.

(** ** The dictionary *)

Section DictFacts.

Context {V : Type}.

Lemma Dict_mem_keys (k : string) (d : Dict.t V) :
  Dict.mem k d = mem_string k (Dict.keys d).
Proof.
  unfold Dict.mem, mem_string. induction d as [|[k' v] d IH]; simpl;
    [reflexivity |].
  destruct (String.eqb k k'); [reflexivity | exact IH].
Qed.

Lemma Dict_keys_set (k : string) (v : V) (d : Dict.t V) :
  Dict.keys (Dict.set k v d) = add_new (Dict.keys d) k.
Proof.
  unfold add_new, mem_string. induction d as [|[k' v'] d IH]; simpl;
    [reflexivity |].
  destruct (String.eqb k k'); simpl; [reflexivity |].
  unfold Dict.keys in *. rewrite IH.
  destruct (existsb (String.eqb k) (map fst d)); reflexivity.
Qed.

Lemma Dict_get_set (k : string) (v : V) (d : Dict.t V) :
  Dict.get k (Dict.set k v d) = Some v.
Proof.
  induction d as [|[k' v'] d IH]; simpl.
  - now rewrite String.eqb_refl.
  - destruct (String.eqb k k') eqn:E; simpl; rewrite E; [reflexivity | exact IH].
Qed.

Lemma Dict_get_In (k : string) (v : V) (d : Dict.t V) :
  Dict.get k d = Some v -> In (k, v) d.
Proof.
  induction d as [|[k' v'] d IH]; simpl; [discriminate |].
  destruct (String.eqb_spec k k') as [<- | _].
  - intros H; injection H as <-. now left.
  - intros H. right. now apply IH.
Qed.

Lemma Dict_mem_get (k : string) (d : Dict.t V) :
  Dict.mem k d = true -> exists v, Dict.get k d = Some v.
Proof.
  unfold Dict.mem. destruct (Dict.get k d) as [v |]; [| discriminate].
  intros _. now exists v.
Qed.

Lemma Dict_set_Forall (P : string * V -> Prop) (k : string) (v : V)
      (d : Dict.t V) :
  Forall P d -> P (k, v) -> Forall P (Dict.set k v d).
Proof.
  intros Hd Hv. induction d as [|[k' v'] d IH]; simpl.
  - now constructor.
  - apply Forall_cons_iff in Hd. destruct Hd as [Hh Hd].
    destruct (String.eqb_spec k k') as [<- | _]; constructor; auto.
Qed.

End DictFacts.

Section FirstSeen.

Lemma mem_string_In (k : string) (l : list string) :
  mem_string k l = true <-> In k l.
Proof.
  unfold mem_string. rewrite existsb_exists. split.
  - intros [x [Hx E]]. apply String.eqb_eq in E. now subst.
  - intros H. exists k. split; [exact H | apply String.eqb_refl].
Qed.

Lemma add_new_idem (l : list string) (k : string) :
  add_new (add_new l k) k = add_new l k.
Proof.
  unfold add_new at 2 3. destruct (mem_string k l) eqn:E.
  - unfold add_new. now rewrite E.
  - unfold add_new.
    assert (H : mem_string k (l ++ [k]) = true).
    { apply mem_string_In, in_or_app. right. now left. }
    now rewrite H.
Qed.

Lemma add_new_NoDup (l : list string) (k : string) :
  NoDup l -> NoDup (add_new l k).
Proof.
  intros Hl. unfold add_new. destruct (mem_string k l) eqn:E; [exact Hl |].
  assert (Hk : ~ In k l).
  { intros H. apply mem_string_In in H. congruence. }
  clear E. induction l as [|x l IH]; simpl.
  - constructor; [intros [] | constructor].
  - inversion Hl as [| ? ? Hx Hl']; subst. constructor.
    + intros H. apply in_app_or in H. destruct H as [H | [H | []]].
      * contradiction.
      * subst. apply Hk. now left.
    + apply IH; [exact Hl' |]. intros H. apply Hk. now right.
Qed.

Lemma first_seen_NoDup (l : list string) : NoDup (first_seen l).
Proof.
  unfold first_seen.
  assert (H : forall seen, NoDup seen -> NoDup (fold_left add_new l seen)).
  { induction l as [|k l IH]; intros seen Hs; simpl; [exact Hs |].
    apply IH. now apply add_new_NoDup. }
  apply H. constructor.
Qed.

Lemma first_seen_snoc (l : list string) (k : string) :
  first_seen (l ++ [k]) = add_new (first_seen l) k.
Proof. unfold first_seen. now rewrite fold_left_app. Qed.

Variable service : GmailService.

Lemma senders_met_snoc (log : list Request) (r : Request) :
  senders_met service (log ++ [r])
  = senders_met service log
    ++ match retained_key service r with Some k => [k] | None => [] end.
Proof.
  unfold senders_met. rewrite flat_map_app. simpl. now rewrite app_nil_r.
Qed.

End FirstSeen.

(** ** One message *)

Section Aggregate.

Variable d : Dict.t Subscription.
Variables msg_id list_unsub : string.
Variable headers : list Header.

Local Abbreviation key :=
  (PyStr.lower (snd (_extract_sender_info headers))).

(** The record of the sender after the message: the record it had, or
    a new one, with the message written into it. *)
Lemma aggregate_get :
  exists sub : Subscription,
    (Dict.get key d = Some sub \/
     Dict.get key d = None /\
     sub = mkSubscription (snd (_extract_sender_info headers))
                          (fst (_extract_sender_info headers))
                          [] [] [] [] 0) /\
    aggregate d msg_id headers list_unsub
    = Dict.set key
        (record_message sub
           (or_empty (_get_header_value headers "Subject")) msg_id
           (fst (_parse_unsubscribe_header list_unsub))
           (snd (_parse_unsubscribe_header list_unsub)))
        (if Dict.mem key d then d else Dict.set key sub d).
Proof.
  unfold aggregate.
  destruct (_extract_sender_info headers) as [from_name from_email].
  destruct (_parse_unsubscribe_header list_unsub) as [http mailto].
  cbn [fst snd].
  destruct (Dict.mem (PyStr.lower from_email) d) eqn:Em; cbn [negb].
  - destruct (Dict_mem_get _ _ Em) as [sub Hsub]. exists sub.
    rewrite Hsub. split; [now left | reflexivity].
  - exists (mkSubscription from_email from_name [] [] [] [] 0).
    rewrite Dict_get_set. split; [| reflexivity].
    right. split; [| reflexivity].
    unfold Dict.mem in Em. now destruct (Dict.get _ d).
Qed.

Lemma aggregate_keys :
  Dict.keys (aggregate d msg_id headers list_unsub)
  = add_new (Dict.keys d) key.
Proof.
  destruct aggregate_get as [sub [_ ->]]. rewrite Dict_keys_set.
  destruct (Dict.mem key d) eqn:Em.
  - unfold add_new. rewrite <- Dict_mem_keys, Em. reflexivity.
  - rewrite Dict_keys_set. apply add_new_idem.
Qed.

Lemma aggregate_entries :
  Forall entry_ok d ->
  Forall entry_ok (aggregate d msg_id headers list_unsub).
Proof.
  intros Hd. destruct aggregate_get as [sub [Hsub ->]].
  assert (Hok : entry_ok (key, sub)).
  { destruct Hsub as [Hget | [_ ->]].
    - apply Dict_get_In in Hget. rewrite Forall_forall in Hd.
      now apply Hd.
    - split; reflexivity. }
  apply Dict_set_Forall.
  - destruct (Dict.mem key d); [exact Hd |].
    now apply Dict_set_Forall.
  - destruct Hok as [Hk Hc]. cbn [fst snd] in *. split; cbn [fst snd].
    + exact Hk.
    + unfold record_message. cbn [email_count message_ids].
      rewrite length_app. simpl. lia.
Qed.

Lemma aggregate_records_message :
  exists sub : Subscription,
    Dict.get key (aggregate d msg_id headers list_unsub) = Some sub /\
    exists ids, message_ids sub = ids ++ [msg_id].
Proof.
  destruct aggregate_get as [sub [_ ->]]. rewrite Dict_get_set.
  eexists. split; [reflexivity |]. now exists (message_ids sub).
Qed.

End Aggregate.

(** ** The subscription scan *)

Section SubscriptionScan.

Variable service : GmailService.
Variable max_results : Z.

Local Abbreviation State := (LoopState (Dict.t Subscription)).
Local Abbreviation get_request msg :=
  (GetRequest (id msg) subscriptions_headers).

(** A message whose List-Unsubscribe value is missing or empty:
    [continue]. *)
Lemma body_skipped (st : State) (msg : Message) (headers : list Header) :
  messages_get service (id msg) subscriptions_headers = Returned headers ->
  or_empty (_get_header_value headers "List-Unsubscribe") = "" ->
  subscriptions_body service max_results st msg
  = Returned (issue (get_request msg) st, Next).
Proof.
  intros Hget Hnone. unfold subscriptions_body. rewrite Hget.
  destruct (_get_header_value headers "List-Unsubscribe") as [v |];
    [| reflexivity].
  simpl in Hnone. destruct (PyStr.truthy v) eqn:Ev; [| reflexivity].
  subst v. discriminate.
Qed.

(** A message with a List-Unsubscribe value: aggregated and counted. *)
Lemma body_retained (st : State) (msg : Message) (headers : list Header)
      (list_unsub : string) :
  messages_get service (id msg) subscriptions_headers = Returned headers ->
  _get_header_value headers "List-Unsubscribe" = Some list_unsub ->
  PyStr.truthy list_unsub = true ->
  subscriptions_body service max_results st msg
  = Returned
      (mkLoopState (aggregate (acc st) (id msg) headers list_unsub)
                   (processed st + 1) (next_page_token st)
                   (requests st ++ [get_request msg]),
       if processed st + 1 >=? max_results then Break else Next).
Proof.
  intros Hget Hv Ht. unfold subscriptions_body.
  rewrite Hget, Hv, Ht. reflexivity.
Qed.

Lemma body_cases (st : State) (msg : Message) (st' : State) (f : flow) :
  subscriptions_body service max_results st msg = Returned (st', f) ->
  exists headers,
    messages_get service (id msg) subscriptions_headers = Returned headers /\
    (or_empty (_get_header_value headers "List-Unsubscribe") = "" \/
     exists v, _get_header_value headers "List-Unsubscribe" = Some v /\
               PyStr.truthy v = true).
Proof.
  unfold subscriptions_body.
  destruct (messages_get service (id msg) subscriptions_headers)
    as [headers |] eqn:Hget; [| discriminate].
  intros _. exists headers. split; [reflexivity |].
  destruct (_get_header_value headers "List-Unsubscribe") as [v |];
    [| now left].
  destruct (PyStr.truthy v) eqn:Ev.
  - right. now exists v.
  - left. simpl. now rewrite Ev.
Qed.

Lemma scan_start_inv : ScanInv service max_results (scan_start []).
Proof. constructor; simpl; try reflexivity; [constructor | lia]. Qed.

Lemma issue_list_inv (st : State) (q : string) (n : Z)
      (tok : option string) :
  ScanInv service max_results st ->
  ScanInv service max_results (issue (ListRequest q n tok) st).
Proof.
  intros [Hk He Hp Hb]. constructor; simpl; trivial;
    rewrite senders_met_snoc; simpl; now rewrite app_nil_r.
Qed.

Lemma set_token_inv (st : State) (tok : option string) :
  ScanInv service max_results st ->
  ScanInv service max_results
          (mkLoopState (acc st) (processed st) tok (requests st)).
Proof. intros [Hk He Hp Hb]. now constructor. Qed.

Lemma body_inv (st : State) (msg : Message) (st' : State) (f : flow) :
  ScanInv service max_results st ->
  processed st < max_results ->
  subscriptions_body service max_results st msg = Returned (st', f) ->
  ScanInv service max_results st' /\
  (f = Next -> processed st' < max_results).
Proof.
  intros [Hk He Hp Hb] Hlt Hbody.
  destruct (body_cases _ _ _ _ Hbody) as [headers [Hget [Hskip | Hkeep]]].
  - rewrite (body_skipped st msg headers Hget Hskip) in Hbody.
    injection Hbody as <- <-. split; [| intros _; exact Hlt].
    assert (Hr : retained_key service (get_request msg) = None).
    { simpl. rewrite Hget.
      destruct (_get_header_value headers "List-Unsubscribe") as [v |];
        [| reflexivity].
      simpl in Hskip. destruct (PyStr.truthy v) eqn:Ev; [| reflexivity].
      subst v. discriminate. }
    constructor; simpl; trivial;
      rewrite senders_met_snoc, Hr, app_nil_r; assumption.
  - destruct Hkeep as [v [Hv Ht]].
    rewrite (body_retained st msg headers v Hget Hv Ht) in Hbody.
    injection Hbody as <- <-.
    assert (Hr : retained_key service (get_request msg)
                 = Some (PyStr.lower (snd (_extract_sender_info headers)))).
    { simpl. now rewrite Hget, Hv, Ht. }
    split.
    + constructor; simpl.
      * rewrite senders_met_snoc, Hr, first_seen_snoc, <- Hk.
        apply aggregate_keys.
      * now apply aggregate_entries.
      * rewrite senders_met_snoc, Hr, length_app. simpl. lia.
      * lia.
    + simpl. destruct (processed st + 1 >=? max_results) eqn:E;
        [discriminate |].
      intros _. rewrite Z.geb_leb in E. apply Z.leb_gt in E. exact E.
Qed.

Lemma for_each_inv (msgs : list Message) (st st' : State) :
  ScanInv service max_results st ->
  processed st < max_results ->
  for_each (subscriptions_body service max_results) msgs st = Returned st' ->
  ScanInv service max_results st'.
Proof.
  revert st. induction msgs as [|msg msgs IH]; intros st Hinv Hlt; simpl.
  - intros H; now injection H as <-.
  - destruct (subscriptions_body service max_results st msg)
      as [[st1 f] |] eqn:Hbody; [| discriminate].
    destruct (body_inv _ _ _ _ Hinv Hlt Hbody) as [Hinv1 Hlt1].
    destruct f.
    + apply IH; [exact Hinv1 | now apply Hlt1].
    + intros H; now injection H as <-.
Qed.

Lemma subscriptions_loop_inv (fuel : nat) (st st' : State) :
  ScanInv service max_results st ->
  subscriptions_loop fuel service max_results st = Some (Returned st') ->
  ScanInv service max_results st'.
Proof.
  revert st. induction fuel as [|fuel IH]; intros st Hinv; simpl.
  - destruct (processed st <? max_results); [discriminate |].
    intros H; now injection H as <-.
  - destruct (processed st <? max_results) eqn:Hlt;
      [| intros H; now injection H as <-].
    apply Z.ltb_lt in Hlt.
    destruct (messages_list service subscriptions_query
                            (Z.min 100 (max_results - processed st))
                            (next_page_token st))
      as [response |]; [| discriminate].
    pose proof (issue_list_inv st subscriptions_query
                               (Z.min 100 (max_results - processed st))
                               (next_page_token st) Hinv) as Hinv1.
    destruct (messages response) as [|m ms].
    + intros H; now injection H as <-.
    + destruct (for_each _ (m :: ms) _) as [st2 |] eqn:Hfor;
        [| discriminate].
      apply for_each_inv in Hfor; [| exact Hinv1 | exact Hlt].
      pose proof (set_token_inv st2 (nextPageToken response) Hfor)
        as Hinv2.
      cbn [next_page_token].
      destruct (negb (token_truthy (nextPageToken response))).
      * intros H; now injection H as <-.
      * now apply IH.
Qed.

Lemma subscriptions_scan_inv (fuel : nat) (st : State) :
  subscriptions_scan fuel service max_results = Some (Returned st) ->
  ScanInv service max_results st.
Proof. apply subscriptions_loop_inv, scan_start_inv. Qed.

(** What [list_subscriptions] returns, from the state the loop ends
    in. *)
Lemma list_subscriptions_of_scan (fuel : nat) (out : list Subscription) :
  list_subscriptions fuel service max_results = Some (Returned out) <->
  exists st,
    subscriptions_scan fuel service max_results = Some (Returned st) /\
    out = sorted_reverse email_count (Dict.values (acc st)).
Proof.
  unfold list_subscriptions.
  destruct (subscriptions_scan fuel service max_results) as [[st | e] |].
  - split.
    + intros H; injection H as <-. now exists st.
    + intros [st0 [H ->]]. now injection H as <-.
  - split; [discriminate | intros [st0 [H _]]; discriminate].
  - split; [discriminate | intros [st0 [H _]]; discriminate].
Qed.

End SubscriptionScan.

(** ** The scan ends *)

Section Termination.

Variable service : GmailService.
Variable max_results : Z.

(** More fuel does not change what the loop returns. *)
Lemma subscriptions_loop_fuel (fuel extra : nat)
      (st : LoopState (Dict.t Subscription))
      (r : outcome (LoopState (Dict.t Subscription))) :
  subscriptions_loop fuel service max_results st = Some r ->
  subscriptions_loop (fuel + extra) service max_results st = Some r.
Proof.
  revert st. induction fuel as [|fuel IH]; intros st; simpl.
  - destruct (processed st <? max_results) eqn:E; [discriminate |].
    intros H. destruct extra; simpl; now rewrite E.
  - destruct (processed st <? max_results); [| trivial].
    destruct (messages_list _ _ _ _) as [response |]; [| trivial].
    destruct (messages response); [trivial |].
    destruct (for_each _ _ _) as [st' |]; [| trivial].
    destruct (negb _); [trivial | apply IH].
Qed.

(** The mailbox is finite: every page token that is handed out is
    nearer to the end than the one it answers. *)
Variable rank : option string -> nat.
Hypothesis rank_decreases :
  forall (q : string) (n : Z) (tok : option string) (resp : ListResponse),
    messages_list service q n tok = Returned resp ->
    token_truthy (nextPageToken resp) = true ->
    (rank (nextPageToken resp) < rank tok)%nat.

Lemma subscriptions_loop_returns (fuel : nat)
      (st : LoopState (Dict.t Subscription)) :
  (rank (next_page_token st) < fuel)%nat ->
  subscriptions_loop fuel service max_results st <> None.
Proof.
  revert st. induction fuel as [|fuel IH]; intros st Hr; [lia |]. simpl.
  destruct (processed st <? max_results); [| discriminate].
  destruct (messages_list _ _ _ _) as [response |] eqn:Hlist;
    [| discriminate].
  destruct (messages response); [discriminate |].
  destruct (for_each _ _ _) as [st' |]; [| discriminate].
  cbn [next_page_token].
  destruct (token_truthy (nextPageToken response)) eqn:Ht;
    [| discriminate].
  cbn [negb]. apply IH. cbn [next_page_token].
  pose proof (rank_decreases _ _ _ _ Hlist Ht). lia.
Qed.

Lemma search_loop_returns (fuel : nat) (query : string)
      (st : LoopState (list SearchResult)) :
  (rank (next_page_token st) < fuel)%nat ->
  search_loop fuel service query max_results st <> None.
Proof.
  revert st. induction fuel as [|fuel IH]; intros st Hr; [lia |]. simpl.
  destruct (processed st <? max_results); [| discriminate].
  destruct (messages_list _ _ _ _) as [response |] eqn:Hlist;
    [| discriminate].
  destruct (messages response); [discriminate |].
  destruct (for_each _ _ _) as [st' |]; [| discriminate].
  cbn [next_page_token].
  destruct (token_truthy (nextPageToken response)) eqn:Ht;
    [| discriminate].
  cbn [negb]. apply IH. cbn [next_page_token].
  pose proof (rank_decreases _ _ _ _ Hlist Ht). lia.
Qed.

(** On a finite mailbox [list_subscriptions] returns or raises. *)
Lemma list_subscriptions_returns :
  list_subscriptions (S (rank None)) service max_results <> None.
Proof.
  unfold list_subscriptions, subscriptions_scan.
  pose proof (subscriptions_loop_returns (S (rank None)) (scan_start [])) as H.
  destruct (subscriptions_loop _ _ _ _) as [[st | e] |]; try discriminate.
  exfalso. apply H; [simpl; lia | reflexivity].
Qed.

End Termination.

(** ** The claims on the scan *)

Lemma senders_met_examined (service : GmailService) (log : list Request) :
  (List.length (senders_met service log) <= List.length (examined log))%nat.
Proof.
  unfold senders_met, examined. induction log as [|r log IH]; simpl; [lia |].
  rewrite !length_app. destruct r as [q n tok | msg_id hs]; simpl; [lia |].
  destruct (messages_get service msg_id hs) as [headers |]; simpl; [| lia].
  destruct (_get_header_value headers "List-Unsubscribe") as [v |];
    simpl; [| lia].
  destruct (PyStr.truthy v); simpl; lia.
Qed.

(** C1, as the code has it.  A message without a List-Unsubscribe value
    is skipped before the count: [processed] stays as it was.  A
    message with a value adds one.  So when a scan ends, [processed] is
    the number of messages retained; it never exceeds [max_results],
    while the number of messages examined may be larger. *)
Theorem budget_counts_retained_messages
        (service : GmailService) (max_results : Z) :
  (forall (st : LoopState (Dict.t Subscription)) (msg : Message)
          (headers : list Header),
      messages_get service (id msg) subscriptions_headers = Returned headers ->
      (_get_header_value headers "List-Unsubscribe" = None ->
       exists st',
         subscriptions_body service max_results st msg = Returned (st', Next) /\
         processed st' = processed st) /\
      (forall v : string,
          _get_header_value headers "List-Unsubscribe" = Some v ->
          PyStr.truthy v = true ->
          exists st' f,
            subscriptions_body service max_results st msg = Returned (st', f) /\
            processed st' = processed st + 1)) /\
  (forall (fuel : nat) (st : LoopState (Dict.t Subscription)),
      subscriptions_scan fuel service max_results = Some (Returned st) ->
      processed st
      = Z.of_nat (List.length (senders_met service (requests st))) /\
      processed st <= Z.max 0 max_results /\
      (List.length (senders_met service (requests st))
       <= List.length (examined (requests st)))%nat).
Proof.
  split.
  - intros st msg headers Hget. split.
    + intros Hnone. eexists. split.
      * apply (body_skipped service max_results st msg headers Hget).
        now rewrite Hnone.
      * reflexivity.
    + intros v Hv Ht. eexists. eexists. split.
      * apply (body_retained service max_results st msg headers v Hget Hv Ht).
      * reflexivity.
  - intros fuel st Hscan.
    destruct (subscriptions_scan_inv _ _ _ _ Hscan) as [_ _ Hp Hb].
    split; [exact Hp | split; [exact Hb |]].
    apply senders_met_examined.
Qed.

Lemma budget_counts_retained_messages_witness :
  exists st,
    subscriptions_scan 5 (Example.service ["m2"; "m1"; "m3"]) 1
    = Some (Returned st) /\
    processed st
    = Z.of_nat (List.length
                  (senders_met (Example.service ["m2"; "m1"; "m3"])
                               (requests st))) /\
    processed st <= Z.max 0 1 /\
    (List.length (senders_met (Example.service ["m2"; "m1"; "m3"])
                              (requests st))
     <= List.length (examined (requests st)))%nat.
Proof.
  eexists. split; [vm_compute; reflexivity |].
  apply (proj2 (budget_counts_retained_messages
                  (Example.service ["m2"; "m1"; "m3"]) 1) 5%nat).
  vm_compute; reflexivity.
Defined.

(** C1, as the specification words it, fails.  The message "m2" has no
    List-Unsubscribe header; the loop body leaves [processed] at 0 for
    it, and a scan with a budget of one message goes on to examine "m1"
    and retains it. *)
Lemma skipped_message_not_counted :
  let service := Example.service ["m2"; "m1"; "m3"] in
  let start := scan_start ([] : Dict.t Subscription) in
  messages_get service "m2" subscriptions_headers
  = Returned (Example.headers_of "m2") /\
  _get_header_value (Example.headers_of "m2") "List-Unsubscribe" = None /\
  (exists st',
      subscriptions_body service 1 start (mkMessage "m2")
      = Returned (st', Next) /\
      processed st' = 0 /\ processed st' <> processed start + 1) /\
  (exists st,
      subscriptions_scan 5 service 1 = Some (Returned st) /\
      examined (requests st) = ["m2"; "m1"] /\
      processed st = 1 /\
      map message_ids (Dict.values (acc st)) = [["m1"]]).
Proof.
  cbv zeta. split; [reflexivity | split; [reflexivity | split]].
  - eexists. split; [vm_compute; reflexivity |].
    split; [reflexivity | discriminate].
  - eexists. split; [vm_compute; reflexivity |]. now repeat split.
Qed.

(** C4. In every list that [list_subscriptions] returns, the
    [email_count] of each subscription is the length of its
    [message_ids]. *)
Theorem email_count_is_number_of_message_ids
        (fuel : nat) (service : GmailService) (max_results : Z)
        (out : list Subscription) :
  list_subscriptions fuel service max_results = Some (Returned out) ->
  Forall (fun s => email_count s = Z.of_nat (List.length (message_ids s))) out.
Proof.
  intros H. apply list_subscriptions_of_scan in H.
  destruct H as [st [Hscan ->]].
  destruct (subscriptions_scan_inv _ _ _ _ Hscan) as [_ He _ _].
  apply (Permutation_Forall
           (Permutation_sym (sorted_reverse_perm email_count _))).
  unfold Dict.values. apply Forall_map.
  revert He. apply Forall_impl. intros [k s] [_ Hc]. exact Hc.
Qed.

Lemma email_count_is_number_of_message_ids_witness :
  exists out,
    list_subscriptions 5 (Example.service Example.inbox) 100
    = Some (Returned out) /\
    Forall (fun s => email_count s = Z.of_nat (List.length (message_ids s)))
           out.
Proof.
  eexists. split; [vm_compute; reflexivity |].
  apply (email_count_is_number_of_message_ids
           5 (Example.service Example.inbox) 100).
  vm_compute; reflexivity.
Defined.

Lemma entries_keyed_by_sender (d : Dict.t Subscription) :
  Forall entry_ok d ->
  map (fun s => PyStr.lower (sender_email s)) (Dict.values d) = Dict.keys d.
Proof.
  unfold Dict.values, Dict.keys. induction 1 as [|[k s] d [Hk _] _ IH];
    simpl; [reflexivity |].
  simpl in Hk. now rewrite IH, Hk.
Qed.

(** C7. The list that [list_subscriptions] returns has non-increasing
    [email_count]s, and two subscriptions of equal [email_count] stand
    in it in the order in which their senders were first met in the
    scan: the order of first occurrence among the retained messages,
    read off the log of requests. *)
Theorem list_subscriptions_sorted_stable
        (fuel : nat) (service : GmailService) (max_results : Z)
        (out : list Subscription) :
  list_subscriptions fuel service max_results = Some (Returned out) ->
  Descending email_count out /\
  exists st,
    subscriptions_scan fuel service max_results = Some (Returned st) /\
    NoDup (first_seen (senders_met service (requests st))) /\
    forall a b : Subscription,
      In a out -> In b out -> email_count a = email_count b ->
      (Precedes a b out <->
       Precedes (PyStr.lower (sender_email a)) (PyStr.lower (sender_email b))
                (first_seen (senders_met service (requests st)))).
Proof.
  intros H. apply list_subscriptions_of_scan in H.
  destruct H as [st [Hscan ->]].
  split; [apply sorted_reverse_sorted |].
  exists st. split; [exact Hscan |]. split; [apply first_seen_NoDup |].
  destruct (subscriptions_scan_inv _ _ _ _ Hscan) as [Hk He _ _].
  pose proof (entries_keyed_by_sender _ He) as Hmap.
  rewrite <- Hk, <- Hmap.
  intros a b Ha Hb Hab.
  rewrite (sorted_reverse_order email_count a b _ Hab).
  pose proof (sorted_reverse_perm email_count (Dict.values (acc st))) as Hp.
  apply (Permutation_in _ Hp) in Ha. apply (Permutation_in _ Hp) in Hb.
  split.
  - apply (Precedes_map (fun s => PyStr.lower (sender_email s))).
  - apply (Precedes_of_map (fun s => PyStr.lower (sender_email s)));
      trivial.
    rewrite Hmap, Hk. apply first_seen_NoDup.
Qed.

Lemma list_subscriptions_sorted_stable_witness :
  exists out,
    list_subscriptions 5 (Example.service Example.inbox) 100
    = Some (Returned out) /\
    map (fun s => (sender_email s, email_count s)) out
    = [("deals@mart.com", 3); ("news@shop.com", 2); ("posts@blog.io", 2)] /\
    Descending email_count out /\
    exists st,
      subscriptions_scan 5 (Example.service Example.inbox) 100
      = Some (Returned st) /\
      NoDup (first_seen (senders_met (Example.service Example.inbox)
                                     (requests st))) /\
      forall a b : Subscription,
        In a out -> In b out -> email_count a = email_count b ->
        (Precedes a b out <->
         Precedes (PyStr.lower (sender_email a))
                  (PyStr.lower (sender_email b))
                  (first_seen (senders_met (Example.service Example.inbox)
                                           (requests st)))).
Proof.
  eexists. split; [vm_compute; reflexivity |].
  split; [reflexivity |].
  apply (list_subscriptions_sorted_stable
           5 (Example.service Example.inbox) 100).
  vm_compute; reflexivity.
Defined.

(** C8, as the code has it.  A message goes through the loop body with
    the dictionary as it was, adding no record and changing none, when
    its headers have no List-Unsubscribe entry, and also when they have
    one with an empty value.  Nothing else is asked of a message: one
    whose List-Unsubscribe value is there and not empty is written into
    the record of its sender, whatever its other headers. *)
Theorem message_without_list_unsubscribe_value_is_skipped
        (service : GmailService) (max_results : Z)
        (st : LoopState (Dict.t Subscription)) (msg : Message)
        (headers : list Header) :
  messages_get service (id msg) subscriptions_headers = Returned headers ->
  (Forall (fun h => PyStr.lower (name h) <> "list-unsubscribe") headers ->
   exists st',
     subscriptions_body service max_results st msg = Returned (st', Next) /\
     acc st' = acc st) /\
  (_get_header_value headers "List-Unsubscribe" = Some "" ->
   exists st',
     subscriptions_body service max_results st msg = Returned (st', Next) /\
     acc st' = acc st) /\
  (forall v : string,
      _get_header_value headers "List-Unsubscribe" = Some v ->
      v <> "" ->
      exists st' f sub,
        subscriptions_body service max_results st msg = Returned (st', f) /\
        Dict.get (PyStr.lower (snd (_extract_sender_info headers))) (acc st')
        = Some sub /\
        exists ids, message_ids sub = ids ++ [id msg]).
Proof.
  intros Hget. split; [| split].
  - intros Hnone.
    assert (E : _get_header_value headers "List-Unsubscribe" = None)
      by (now apply get_header_value_none).
    eexists. split.
    + apply (body_skipped service max_results st msg headers Hget).
      now rewrite E.
    + reflexivity.
  - intros Hempty. eexists. split.
    + apply (body_skipped service max_results st msg headers Hget).
      now rewrite Hempty.
    + reflexivity.
  - intros v Hv Hne.
    assert (Ht : PyStr.truthy v = true) by (destruct v; [contradiction | reflexivity]).
    destruct (aggregate_records_message (acc st) (id msg) v headers)
      as [sub [Hsub Hids]].
    eexists. eexists. exists sub. split.
    + apply (body_retained service max_results st msg headers v Hget Hv Ht).
    + split; [exact Hsub | exact Hids].
Qed.

Lemma message_without_list_unsubscribe_value_is_skipped_witness :
  (exists st',
      subscriptions_body (Example.service Example.inbox) 100
                         (scan_start []) (mkMessage "m2")
      = Returned (st', Next) /\
      acc st' = acc (scan_start ([] : Dict.t Subscription))) /\
  (exists st',
      subscriptions_body (Example.service Example.inbox) 100
                         (scan_start []) (mkMessage "m9")
      = Returned (st', Next) /\
      acc st' = acc (scan_start ([] : Dict.t Subscription))).
Proof.
  split.
  - apply (proj1 (message_without_list_unsubscribe_value_is_skipped
                    (Example.service Example.inbox) 100 (scan_start [])
                    (mkMessage "m2") (Example.headers_of "m2") eq_refl)).
    repeat constructor; discriminate.
  - apply (proj1 (proj2 (message_without_list_unsubscribe_value_is_skipped
                           (Example.service Example.inbox) 100 (scan_start [])
                           (mkMessage "m9") (Example.headers_of "m9")
                           eq_refl))).
    reflexivity.
Defined.

(** C8, as the specification words it, fails: the absence of the header
    is not the only thing that keeps a message out.  The message "m9"
    has a List-Unsubscribe header, with an empty value; the loop body
    skips it all the same, and a scan of a mailbox that holds this one
    message returns no subscription. *)
Lemma empty_list_unsubscribe_is_skipped :
  let service := Example.service ["m9"] in
  let start := scan_start ([] : Dict.t Subscription) in
  messages_get service "m9" subscriptions_headers
  = Returned (Example.headers_of "m9") /\
  _get_header_value (Example.headers_of "m9") "List-Unsubscribe" = Some "" /\
  ~ Forall (fun h => PyStr.lower (name h) <> "list-unsubscribe")
           (Example.headers_of "m9") /\
  (exists st',
      subscriptions_body service 100 start (mkMessage "m9")
      = Returned (st', Next) /\
      acc st' = []) /\
  list_subscriptions 5 service 100 = Some (Returned []).
Proof.
  cbv zeta. split; [reflexivity | split; [reflexivity | split; [| split]]].
  - intros H.
    pose proof (proj2 (get_header_value_none (Example.headers_of "m9")
                                             "List-Unsubscribe") H) as E.
    discriminate E.
  - eexists. split; [vm_compute; reflexivity | reflexivity].
  - vm_compute. reflexivity.
Qed.

Lemma pages_requested_issue {A : Type} (st : LoopState A) (q : string)
      (n : Z) (tok : option string) :
  pages_requested (requests (issue (ListRequest q n tok) st))
  = S (pages_requested (requests st)).
Proof.
  unfold pages_requested. simpl. rewrite filter_app, length_app. simpl. lia.
Qed.

(** C9. In both scans, when a page comes back with no message the loop
    ends there, also when [processed] is below [max_results] and the
    page carries a token: the state it returns is the state it had with
    that one page request added to the log, so one page more was
    requested and no other. *)
Theorem empty_page_ends_pagination :
  (forall (fuel : nat) (service : GmailService) (max_results : Z)
          (st : LoopState (Dict.t Subscription)) (response : ListResponse),
      processed st < max_results ->
      messages_list service subscriptions_query
                    (Z.min 100 (max_results - processed st))
                    (next_page_token st) = Returned response ->
      messages response = [] ->
      exists st',
        subscriptions_loop (S fuel) service max_results st
        = Some (Returned st') /\
        st' = issue (ListRequest subscriptions_query
                                 (Z.min 100 (max_results - processed st))
                                 (next_page_token st)) st /\
        pages_requested (requests st') = S (pages_requested (requests st))) /\
  (forall (fuel : nat) (service : GmailService) (query : string)
          (max_results : Z) (st : LoopState (list SearchResult))
          (response : ListResponse),
      processed st < max_results ->
      messages_list service query
                    (Z.min 100 (max_results - processed st))
                    (next_page_token st) = Returned response ->
      messages response = [] ->
      exists st',
        search_loop (S fuel) service query max_results st
        = Some (Returned st') /\
        st' = issue (ListRequest query
                                 (Z.min 100 (max_results - processed st))
                                 (next_page_token st)) st /\
        pages_requested (requests st') = S (pages_requested (requests st))).
Proof.
  split.
  - intros fuel service max_results st response Hlt Hlist Hempty.
    eexists. split; [| split; [reflexivity | apply pages_requested_issue]].
    cbn [subscriptions_loop]. apply Z.ltb_lt in Hlt.
    now rewrite Hlt, Hlist, Hempty.
  - intros fuel service query max_results st response Hlt Hlist Hempty.
    eexists. split; [| split; [reflexivity | apply pages_requested_issue]].
    cbn [search_loop]. apply Z.ltb_lt in Hlt.
    now rewrite Hlt, Hlist, Hempty.
Qed.

Lemma empty_page_ends_pagination_witness :
  (exists st',
      subscriptions_loop 1 Example.hollow 10 (scan_start []) = Some (Returned st') /\
      st' = issue (ListRequest subscriptions_query 10 None) (scan_start []) /\
      pages_requested (requests st') = 1%nat) /\
  (exists st',
      search_loop 1 Example.hollow "from:shop" 10 (scan_start [])
      = Some (Returned st') /\
      st' = issue (ListRequest "from:shop" 10 None) (scan_start []) /\
      pages_requested (requests st') = 1%nat).
Proof.
  split.
  - apply (proj1 empty_page_ends_pagination 0%nat Example.hollow 10
                 (scan_start []) (mkListResponse [] (Some "page-2")));
      reflexivity.
  - apply (proj2 empty_page_ends_pagination 0%nat Example.hollow "from:shop"
                 10 (scan_start []) (mkListResponse [] (Some "page-2")));
      reflexivity.
Defined.


(** ** Further properties of the scans *)

Section SubscriptionLoopInvariant.

Variable service : GmailService.
Variable max_results : Z.
Variable I : LoopState (Dict.t Subscription) -> Prop.

Hypothesis I_skip :
  forall st msg headers,
    I st ->
    messages_get service (id msg) subscriptions_headers = Returned headers ->
    or_empty (_get_header_value headers "List-Unsubscribe") = "" ->
    I (issue (GetRequest (id msg) subscriptions_headers) st).

Hypothesis I_keep :
  forall st msg headers v,
    I st -> processed st < max_results ->
    messages_get service (id msg) subscriptions_headers = Returned headers ->
    _get_header_value headers "List-Unsubscribe" = Some v ->
    PyStr.truthy v = true ->
    I (mkLoopState (aggregate (acc st) (id msg) headers v)
                   (processed st + 1) (next_page_token st)
                   (requests st ++ [GetRequest (id msg) subscriptions_headers])).

(** An invariant of the two kinds of step of the loop body holds after
    the [for] loop. *)
Lemma subscriptions_for_each_invariant (msgs : list Message)
      (st st' : LoopState (Dict.t Subscription)) :
  I st -> processed st < max_results ->
  for_each (subscriptions_body service max_results) msgs st = Returned st' ->
  I st'.
Proof.
  revert st. induction msgs as [|msg msgs IH]; intros st Hi Hlt; simpl.
  - intros H; now injection H as <-.
  - destruct (subscriptions_body service max_results st msg)
      as [[st1 f] |] eqn:Hbody; [| discriminate].
    destruct (body_cases _ _ _ _ _ _ Hbody)
      as [headers [Hget [Hskip | [v [Hv Ht]]]]].
    + rewrite (body_skipped service max_results st msg headers Hget Hskip)
        in Hbody.
      injection Hbody as <- <-. apply IH; [| exact Hlt].
      now apply (I_skip st msg headers).
    + rewrite (body_retained service max_results st msg headers v Hget Hv Ht)
        in Hbody.
      injection Hbody as <- Hf.
      pose proof (I_keep st msg headers v Hi Hlt Hget Hv Ht) as Hi1.
      destruct (processed st + 1 >=? max_results) eqn:E; subst f.
      * intros H; now injection H as <-.
      * apply IH; [exact Hi1 |]. simpl.
        rewrite Z.geb_leb in E. now apply Z.leb_gt in E.
Qed.

Hypothesis I_page :
  forall st,
    I st -> processed st < max_results ->
    I (issue (ListRequest subscriptions_query
                          (Z.min 100 (max_results - processed st))
                          (next_page_token st)) st).

Hypothesis I_token :
  forall st tok,
    I st -> I (mkLoopState (acc st) (processed st) tok (requests st)).

(** An invariant of every step of the scan holds of the state in which
    the scan ends. *)
Lemma subscriptions_loop_invariant (fuel : nat)
      (st st' : LoopState (Dict.t Subscription)) :
  I st ->
  subscriptions_loop fuel service max_results st = Some (Returned st') ->
  I st'.
Proof.
  revert st. induction fuel as [|fuel IH]; intros st Hi; simpl.
  - destruct (processed st <? max_results); [discriminate |].
    intros H; now injection H as <-.
  - destruct (processed st <? max_results) eqn:Hlt;
      [| intros H; now injection H as <-].
    apply Z.ltb_lt in Hlt.
    destruct (messages_list service subscriptions_query
                            (Z.min 100 (max_results - processed st))
                            (next_page_token st))
      as [response |]; [| discriminate].
    pose proof (I_page st Hi Hlt) as Hi1.
    destruct (messages response) as [|m ms].
    + intros H; now injection H as <-.
    + destruct (for_each _ (m :: ms) _) as [st2 |] eqn:Hfor;
        [| discriminate].
      apply subscriptions_for_each_invariant in Hfor;
        [| exact Hi1 | exact Hlt].
      pose proof (I_token st2 (nextPageToken response) Hfor) as Hi2.
      cbn [next_page_token].
      destruct (negb (token_truthy (nextPageToken response))).
      * intros H; now injection H as <-.
      * now apply IH.
Qed.

End SubscriptionLoopInvariant.

Section SearchLoopInvariant.

Variable service : GmailService.
Variable query : string.
Variable max_results : Z.

(** The record that the body of the search loop appends for a message. *)
Lemma search_body_returned (st : LoopState (list SearchResult))
      (msg : Message) (headers : list Header) :
  messages_get service (id msg) search_headers = Returned headers ->
  search_body service max_results st msg
  = Returned
      (mkLoopState
         (acc st ++
          [mkSearchResult
             (id msg)
             (fst (_extract_sender_info headers))
             (snd (_extract_sender_info headers))
             (or_empty (_get_header_value headers "Subject"))
             (or_empty (_get_header_value headers "Date"))
             (match _get_header_value headers "List-Unsubscribe" with
              | Some _ => true
              | None => false
              end)])
         (processed st + 1) (next_page_token st)
         (requests st ++ [GetRequest (id msg) search_headers]),
       if processed st + 1 >=? max_results then Break else Next).
Proof.
  intros Hget. unfold search_body. rewrite Hget.
  destruct (_extract_sender_info headers) as [n a]. reflexivity.
Qed.

Variable J : LoopState (list SearchResult) -> Prop.

Hypothesis J_message :
  forall st msg headers,
    J st -> processed st < max_results ->
    messages_get service (id msg) search_headers = Returned headers ->
    J (mkLoopState
         (acc st ++
          [mkSearchResult
             (id msg)
             (fst (_extract_sender_info headers))
             (snd (_extract_sender_info headers))
             (or_empty (_get_header_value headers "Subject"))
             (or_empty (_get_header_value headers "Date"))
             (match _get_header_value headers "List-Unsubscribe" with
              | Some _ => true
              | None => false
              end)])
         (processed st + 1) (next_page_token st)
         (requests st ++ [GetRequest (id msg) search_headers])).

Lemma search_for_each_invariant (msgs : list Message)
      (st st' : LoopState (list SearchResult)) :
  J st -> processed st < max_results ->
  for_each (search_body service max_results) msgs st = Returned st' ->
  J st'.
Proof.
  revert st. induction msgs as [|msg msgs IH]; intros st Hj Hlt; simpl.
  - intros H; now injection H as <-.
  - destruct (messages_get service (id msg) search_headers)
      as [headers |] eqn:Hget.
    + rewrite (search_body_returned st msg headers Hget).
      pose proof (J_message st msg headers Hj Hlt Hget) as Hj1.
      destruct (processed st + 1 >=? max_results) eqn:E.
      * intros H; now injection H as <-.
      * apply IH; [exact Hj1 |]. simpl.
        rewrite Z.geb_leb in E. now apply Z.leb_gt in E.
    + unfold search_body. rewrite Hget. discriminate.
Qed.

Hypothesis J_page :
  forall st,
    J st -> processed st < max_results ->
    J (issue (ListRequest query
                          (Z.min 100 (max_results - processed st))
                          (next_page_token st)) st).

Hypothesis J_token :
  forall st tok,
    J st -> J (mkLoopState (acc st) (processed st) tok (requests st)).

Lemma search_loop_invariant (fuel : nat)
      (st st' : LoopState (list SearchResult)) :
  J st ->
  search_loop fuel service query max_results st = Some (Returned st') ->
  J st'.
Proof.
  revert st. induction fuel as [|fuel IH]; intros st Hj; simpl.
  - destruct (processed st <? max_results); [discriminate |].
    intros H; now injection H as <-.
  - destruct (processed st <? max_results) eqn:Hlt;
      [| intros H; now injection H as <-].
    apply Z.ltb_lt in Hlt.
    destruct (messages_list service query
                            (Z.min 100 (max_results - processed st))
                            (next_page_token st))
      as [response |]; [| discriminate].
    pose proof (J_page st Hj Hlt) as Hj1.
    destruct (messages response) as [|m ms].
    + intros H; now injection H as <-.
    + destruct (for_each _ (m :: ms) _) as [st2 |] eqn:Hfor;
        [| discriminate].
      apply search_for_each_invariant in Hfor; [| exact Hj1 | exact Hlt].
      pose proof (J_token st2 (nextPageToken response) Hfor) as Hj2.
      cbn [next_page_token].
      destruct (negb (token_truthy (nextPageToken response))).
      * intros H; now injection H as <-.
      * now apply IH.
Qed.

End SearchLoopInvariant.

Lemma search_emails_of_scan (fuel : nat) (service : GmailService)
      (query : string) (max_results : Z) (out : list SearchResult) :
  search_emails fuel service query max_results = Some (Returned out) <->
  exists st,
    search_scan fuel service query max_results = Some (Returned st) /\
    out = acc st.
Proof.
  unfold search_emails.
  destruct (search_scan fuel service query max_results) as [[st | e] |].
  - split.
    + intros H; injection H as <-. now exists st.
    + intros [st0 [H ->]]. now injection H as <-.
  - split; [discriminate | intros [st0 [H _]]; discriminate].
  - split; [discriminate | intros [st0 [H _]]; discriminate].
Qed.

Lemma examined_snoc (log : list Request) (r : Request) :
  examined (log ++ [r])
  = examined log ++ match r with
                    | GetRequest msg_id _ => [msg_id]
                    | ListRequest _ _ _ => []
                    end.
Proof.
  unfold examined. rewrite flat_map_app. simpl. now rewrite app_nil_r.
Qed.

(** X1. [search_emails] returns one record per message it fetched, in
    the order of the fetches, and never more than [max_results]
    records. *)
Theorem search_emails_one_result_per_message
        (fuel : nat) (service : GmailService) (query : string)
        (max_results : Z) (out : list SearchResult) :
  search_emails fuel service query max_results = Some (Returned out) ->
  Z.of_nat (List.length out) <= Z.max 0 max_results /\
  exists st,
    search_scan fuel service query max_results = Some (Returned st) /\
    map result_id out = examined (requests st) /\
    processed st = Z.of_nat (List.length out).
Proof.
  intros H. apply search_emails_of_scan in H. destruct H as [st [Hscan ->]].
  pose (J := fun st : LoopState (list SearchResult) =>
               map result_id (acc st) = examined (requests st) /\
               processed st = Z.of_nat (List.length (acc st)) /\
               processed st <= Z.max 0 max_results).
  assert (Hj : J st).
  { unfold search_scan in Hscan.
    apply (search_loop_invariant service query max_results J)
      with (fuel := fuel) (st := scan_start []); try exact Hscan.
    - intros s msg headers [Hm [Hp Hb]] Hlt Hget. unfold J. simpl.
      rewrite map_app, examined_snoc, length_app, Hm. simpl.
      split; [reflexivity | split; lia].
    - intros s [Hm [Hp Hb]] Hlt. unfold J. simpl.
      rewrite examined_snoc, app_nil_r. now repeat split.
    - intros s tok Hs. exact Hs.
    - unfold J. simpl. split; [reflexivity | split; [reflexivity | lia]]. }
  destruct Hj as [Hm [Hp Hb]]. split; [lia |].
  exists st. now repeat split.
Qed.

Lemma search_emails_one_result_per_message_witness :
  exists out,
    search_emails 5 (Example.service Example.inbox) "is:unread" 4
    = Some (Returned out) /\
    map result_id out = ["m1"; "m2"; "m3"; "m4"] /\
    Z.of_nat (List.length out) <= Z.max 0 4 /\
    exists st,
      search_scan 5 (Example.service Example.inbox) "is:unread" 4
      = Some (Returned st) /\
      map result_id out = examined (requests st) /\
      processed st = Z.of_nat (List.length out).
Proof.
  eexists. split; [vm_compute; reflexivity |].
  split; [reflexivity |].
  apply (search_emails_one_result_per_message
           5 (Example.service Example.inbox) "is:unread" 4).
  vm_compute; reflexivity.
Defined.

(** X2. Every record that [search_emails] returns says what the headers
    of its message say: the sender as [_extract_sender_info] reads it,
    the subject and the date (empty when missing), and
    [has_unsubscribe] is true exactly when a List-Unsubscribe header is
    there, be its value empty or not. *)
Theorem search_results_reflect_headers
        (fuel : nat) (service : GmailService) (query : string)
        (max_results : Z) (out : list SearchResult) :
  search_emails fuel service query max_results = Some (Returned out) ->
  Forall (result_reflects service) out.
Proof.
  intros H. apply search_emails_of_scan in H. destruct H as [st [Hscan ->]].
  unfold search_scan in Hscan.
  apply (search_loop_invariant
           service query max_results
           (fun s => Forall (result_reflects service) (acc s)))
    with (fuel := fuel) (st := scan_start []); try exact Hscan.
  - intros s msg headers Hs Hlt Hget. simpl.
    apply Forall_app. split; [exact Hs |]. constructor; [| constructor].
    exists headers. simpl. split; [exact Hget |].
    split; [now destruct (_extract_sender_info headers) |].
    split; [reflexivity |]. split; [reflexivity |].
    destruct (_get_header_value headers "List-Unsubscribe") as [v |].
    + split; [intros _; now exists v | reflexivity].
    + split; [discriminate | intros [v Hv]; discriminate].
  - intros s Hs Hlt. exact Hs.
  - intros s tok Hs. exact Hs.
  - constructor.
Qed.

Lemma search_results_reflect_headers_witness :
  exists out,
    search_emails 5 (Example.service ["m9"; "m2"]) "is:unread" 10
    = Some (Returned out) /\
    map has_unsubscribe out = [true; false] /\
    Forall (result_reflects (Example.service ["m9"; "m2"])) out.
Proof.
  eexists. split; [vm_compute; reflexivity |].
  split; [reflexivity |].
  apply (search_results_reflect_headers
           5 (Example.service ["m9"; "m2"]) "is:unread" 10).
  vm_compute; reflexivity.
Defined.

(** X3. With a budget of zero or less neither scan asks the mailbox for
    anything: the loop is not entered, whatever the fuel and the
    service, and the state it ends in has an empty log.  The call
    itself first obtains the service: it raises what
    [get_gmail_service] raises, and returns the empty list when a
    service is returned. *)
Theorem nonpositive_budget_fetches_nothing
        (fuel : nat) (w : Auth.World)
        (build : Auth.Credentials -> outcome GmailService)
        (query : string) (max_results : Z) :
  max_results <= 0 ->
  (forall service : GmailService,
      subscriptions_scan fuel service max_results
      = Some (Returned (scan_start [])) /\
      search_scan fuel service query max_results
      = Some (Returned (scan_start []))) /\
  list_subscriptions_call fuel w build max_results
  = Some (match get_gmail_service w build with
          | Raised e => Raised e
          | Returned _ => Returned []
          end) /\
  search_emails_call fuel w build query max_results
  = Some (match get_gmail_service w build with
          | Raised e => Raised e
          | Returned _ => Returned []
          end).
Proof.
  intros Hmax.
  assert (E : (0 <? max_results) = false) by (apply Z.ltb_ge; lia).
  assert (H1 : forall service,
             subscriptions_scan fuel service max_results
             = Some (Returned (scan_start []))).
  { intros service. unfold subscriptions_scan.
    destruct fuel; simpl; now rewrite E. }
  assert (H2 : forall service,
             search_scan fuel service query max_results
             = Some (Returned (scan_start []))).
  { intros service. unfold search_scan.
    destruct fuel; simpl; now rewrite E. }
  split; [intros service; now split |].
  unfold list_subscriptions_call, search_emails_call.
  destruct (get_gmail_service w build) as [service | e]; [| now split].
  unfold list_subscriptions, search_emails. rewrite H1, H2. now split.
Qed.

Lemma nonpositive_budget_fetches_nothing_witness :
  let build := fun _ : Auth.Credentials =>
                 Returned (Example.service Example.inbox) in
  let no_files :=
    Auth.mkWorld None None (fun _ => Raised DecodingError)
                 (fun c => Returned c) (fun _ => Raised ConnectError)
                 (fun _ => Returned tt) in
  list_subscriptions_call 0 Auth.example_world build (-3)
  = Some (Returned []) /\
  search_emails_call 0 Auth.example_world build "is:unread" (-3)
  = Some (Returned []) /\
  list_subscriptions_call 0 no_files build (-3)
  = Some (Raised Auth.FileNotFoundError).
Proof.
  cbv zeta. split; [| split].
  - apply (proj1 (proj2 (nonpositive_budget_fetches_nothing
                           0 Auth.example_world
                           (fun _ => Returned (Example.service Example.inbox))
                           "is:unread" (-3) ltac:(lia)))).
  - apply (proj2 (proj2 (nonpositive_budget_fetches_nothing
                           0 Auth.example_world
                           (fun _ => Returned (Example.service Example.inbox))
                           "is:unread" (-3) ltac:(lia)))).
  - apply (proj1 (proj2 (nonpositive_budget_fetches_nothing
                           0 (Auth.mkWorld None None
                                           (fun _ => Raised DecodingError)
                                           (fun c => Returned c)
                                           (fun _ => Raised ConnectError)
                                           (fun _ => Returned tt))
                           (fun _ => Returned (Example.service Example.inbox))
                           "is:unread" (-3) ltac:(lia)))).
Defined.

Lemma batch_ok_snoc_get (max_results : Z) (log : list Request)
      (msg_id : string) (hs : list string) :
  Forall (batch_ok max_results) log ->
  Forall (batch_ok max_results) (log ++ [GetRequest msg_id hs]).
Proof.
  intros H. apply Forall_app. split; [exact H |].
  constructor; [exact I | constructor].
Qed.

Lemma batch_ok_snoc_list (max_results processed : Z) (log : list Request)
      (q : string) (tok : option string) :
  0 <= processed < max_results ->
  Forall (batch_ok max_results) log ->
  Forall (batch_ok max_results)
         (log ++ [ListRequest q (Z.min 100 (max_results - processed)) tok]).
Proof.
  intros Hp H. apply Forall_app. split; [exact H |].
  constructor; [simpl; lia | constructor].
Qed.

(** X4. In both scans every page request asks for at least one message
    and for at most 100, and for no more than [max_results]. *)
Theorem page_sizes_within_bounds
        (fuel : nat) (service : GmailService) (query : string)
        (max_results : Z) :
  (forall st,
      subscriptions_scan fuel service max_results = Some (Returned st) ->
      Forall (batch_ok max_results) (requests st)) /\
  (forall st,
      search_scan fuel service query max_results = Some (Returned st) ->
      Forall (batch_ok max_results) (requests st)).
Proof.
  split; intros st Hscan.
  - unfold subscriptions_scan in Hscan.
    apply (subscriptions_loop_invariant
             service max_results
             (fun s => 0 <= processed s /\
                       Forall (batch_ok max_results) (requests s)))
      with (fuel := fuel) (st := scan_start []) (st' := st); trivial.
    + intros s msg headers [Hp Hl] _ _. simpl.
      split; [exact Hp | now apply batch_ok_snoc_get].
    + intros s msg headers v [Hp Hl] _ _ _ _. simpl.
      split; [lia | now apply batch_ok_snoc_get].
    + intros s [Hp Hl] Hlt. simpl.
      split; [exact Hp | apply batch_ok_snoc_list; [lia | exact Hl]].
    + simpl. split; [lia | constructor].
  - unfold search_scan in Hscan.
    apply (search_loop_invariant
             service query max_results
             (fun s => 0 <= processed s /\
                       Forall (batch_ok max_results) (requests s)))
      with (fuel := fuel) (st := scan_start []) (st' := st); trivial.
    + intros s msg headers [Hp Hl] _ _. simpl.
      split; [lia | now apply batch_ok_snoc_get].
    + intros s [Hp Hl] Hlt. simpl.
      split; [exact Hp | apply batch_ok_snoc_list; [lia | exact Hl]].
    + simpl. split; [lia | constructor].
Qed.

Lemma page_sizes_within_bounds_witness :
  exists st,
    subscriptions_scan 5 (Example.service Example.inbox) 3
    = Some (Returned st) /\
    Forall (batch_ok 3) (requests st).
Proof.
  eexists. split; [vm_compute; reflexivity |].
  apply (proj1 (page_sizes_within_bounds
                  5 (Example.service Example.inbox) "is:unread" 3)).
  vm_compute; reflexivity.
Defined.

Section TokenChain.

Variable service : GmailService.

Lemma last_token_snoc_get (log : list Request) (msg_id : string)
      (hs : list string) :
  last_token service (log ++ [GetRequest msg_id hs]) = last_token service log.
Proof. unfold last_token. now rewrite fold_left_app. Qed.

Lemma last_token_snoc_list (log : list Request) (q : string) (n : Z)
      (tok : option string) (response : ListResponse) :
  messages_list service q n tok = Returned response ->
  last_token service (log ++ [ListRequest q n tok]) = nextPageToken response.
Proof.
  intros H. unfold last_token. rewrite fold_left_app. simpl. now rewrite H.
Qed.

Lemma snoc_split {A : Type} (log l1 l2 : list A) (r x : A) :
  log ++ [r] = l1 ++ x :: l2 ->
  (l2 = [] /\ l1 = log /\ x = r) \/
  (exists l2', l2 = l2' ++ [r] /\ log = l1 ++ x :: l2').
Proof.
  intros H. destruct (exists_last (l := x :: l2)) as [l' [a E]];
    [discriminate |].
  rewrite E, app_assoc in H. apply app_inj_tail in H. destruct H as [H ->].
  destruct l2 as [|y l2].
  - left. destruct l' as [|z l'].
    + simpl in E. injection E as ->. rewrite app_nil_r in H. now repeat split.
    + simpl in E. injection E as _ E. destruct l'; discriminate.
  - right. destruct l' as [|z l']; [simpl in E; discriminate |].
    simpl in E. injection E as -> E. exists l'. split; [exact E |].
    exact H.
Qed.

Lemma chained_snoc_get (log : list Request) (msg_id : string)
      (hs : list string) :
  TokensChained service log ->
  TokensChained service (log ++ [GetRequest msg_id hs]).
Proof.
  intros Hc l1 l2 q n tok H.
  destruct (snoc_split _ _ _ _ _ H) as [[_ [_ E]] | [l2' [_ E]]].
  - discriminate.
  - now apply (Hc l1 l2' q n tok).
Qed.

Lemma chained_snoc_list (log : list Request) (q : string) (n : Z) :
  TokensChained service log ->
  TokensChained service (log ++ [ListRequest q n (last_token service log)]).
Proof.
  intros Hc l1 l2 q' n' tok H.
  destruct (snoc_split _ _ _ _ _ H) as [[_ [-> E]] | [l2' [_ E]]].
  - now injection E as _ _ ->.
  - now apply (Hc l1 l2' q' n' tok).
Qed.

Lemma subscriptions_loop_chained (max_results : Z) (fuel : nat)
      (st st' : LoopState (Dict.t Subscription)) :
  TokensChained service (requests st) ->
  next_page_token st = last_token service (requests st) ->
  subscriptions_loop fuel service max_results st = Some (Returned st') ->
  TokensChained service (requests st').
Proof.
  revert st. induction fuel as [|fuel IH]; intros st Hc Ht; simpl.
  - destruct (processed st <? max_results); [discriminate |].
    intros H; now injection H as <-.
  - destruct (processed st <? max_results) eqn:Hlt;
      [| intros H; now injection H as <-].
    apply Z.ltb_lt in Hlt.
    destruct (messages_list service subscriptions_query
                            (Z.min 100 (max_results - processed st))
                            (next_page_token st))
      as [response |] eqn:Hlist; [| discriminate].
    pose proof (last_token_snoc_list (requests st) _ _ _ _ Hlist) as Hlast.
    rewrite Ht in Hlist |- *.
    pose proof (chained_snoc_list
                  (requests st) subscriptions_query
                  (Z.min 100 (max_results - processed st)) Hc) as Hc1.
    destruct (messages response) as [|m ms].
    + intros H; now injection H as <-.
    + destruct (for_each _ (m :: ms) _) as [st2 |] eqn:Hfor;
        [| discriminate].
      apply (subscriptions_for_each_invariant
               service max_results
               (fun s => TokensChained service (requests s) /\
                         last_token service (requests s)
                         = nextPageToken response)) in Hfor.
      * destruct Hfor as [Hc2 Ht2]. cbn [next_page_token].
        destruct (negb (token_truthy (nextPageToken response))).
        -- intros H; now injection H as <-.
        -- apply IH; simpl; [exact Hc2 | now symmetry].
      * intros s msg headers [Hcs Hts] _ _. simpl.
        split; [now apply chained_snoc_get |].
        now rewrite last_token_snoc_get.
      * intros s msg headers v [Hcs Hts] _ _ _ _. simpl.
        split; [now apply chained_snoc_get |].
        now rewrite last_token_snoc_get.
      * simpl. split; [exact Hc1 |]. now rewrite <- Ht.
      * exact Hlt.
Qed.

Lemma search_loop_chained (query : string) (max_results : Z) (fuel : nat)
      (st st' : LoopState (list SearchResult)) :
  TokensChained service (requests st) ->
  next_page_token st = last_token service (requests st) ->
  search_loop fuel service query max_results st = Some (Returned st') ->
  TokensChained service (requests st').
Proof.
  revert st. induction fuel as [|fuel IH]; intros st Hc Ht; simpl.
  - destruct (processed st <? max_results); [discriminate |].
    intros H; now injection H as <-.
  - destruct (processed st <? max_results) eqn:Hlt;
      [| intros H; now injection H as <-].
    apply Z.ltb_lt in Hlt.
    destruct (messages_list service query
                            (Z.min 100 (max_results - processed st))
                            (next_page_token st))
      as [response |] eqn:Hlist; [| discriminate].
    pose proof (last_token_snoc_list (requests st) _ _ _ _ Hlist) as Hlast.
    rewrite Ht in Hlist |- *.
    pose proof (chained_snoc_list
                  (requests st) query
                  (Z.min 100 (max_results - processed st)) Hc) as Hc1.
    destruct (messages response) as [|m ms].
    + intros H; now injection H as <-.
    + destruct (for_each _ (m :: ms) _) as [st2 |] eqn:Hfor;
        [| discriminate].
      apply (search_for_each_invariant
               service max_results
               (fun s => TokensChained service (requests s) /\
                         last_token service (requests s)
                         = nextPageToken response)) in Hfor.
      * destruct Hfor as [Hc2 Ht2]. cbn [next_page_token].
        destruct (negb (token_truthy (nextPageToken response))).
        -- intros H; now injection H as <-.
        -- apply IH; simpl; [exact Hc2 | now symmetry].
      * intros s msg headers [Hcs Hts] _ _. simpl.
        split; [now apply chained_snoc_get |].
        now rewrite last_token_snoc_get.
      * simpl. split; [exact Hc1 |]. now rewrite <- Ht.
      * exact Hlt.
Qed.

End TokenChain.

(** X5. In both scans the pages are asked for in sequence: the first
    page request carries no token, and every later one carries the
    token that the page before it was answered with. *)
Theorem page_tokens_are_chained
        (fuel : nat) (service : GmailService) (query : string)
        (max_results : Z) :
  (forall st,
      subscriptions_scan fuel service max_results = Some (Returned st) ->
      TokensChained service (requests st)) /\
  (forall st,
      search_scan fuel service query max_results = Some (Returned st) ->
      TokensChained service (requests st)).
Proof.
  assert (Hnil : TokensChained service []).
  { intros l1 l2 q n tok H. destruct l1; discriminate. }
  split; intros st Hscan.
  - apply (subscriptions_loop_chained service max_results fuel
                                      (scan_start []) st Hnil eq_refl Hscan).
  - apply (search_loop_chained service query max_results fuel
                               (scan_start []) st Hnil eq_refl Hscan).
Qed.

Lemma page_tokens_are_chained_witness :
  exists st,
    subscriptions_scan 5 (Example.service Example.inbox) 3
    = Some (Returned st) /\
    pages_requested (requests st) = 2%nat /\
    TokensChained (Example.service Example.inbox) (requests st).
Proof.
  eexists. split; [vm_compute; reflexivity |].
  split; [reflexivity |].
  apply (proj1 (page_tokens_are_chained
                  5 (Example.service Example.inbox) "is:unread" 3)).
  vm_compute; reflexivity.
Defined.

(** X6. [list_subscriptions] returns one subscription per sender: no
    two of them have the same sender address up to case. *)
Theorem one_subscription_per_sender
        (fuel : nat) (service : GmailService) (max_results : Z)
        (out : list Subscription) :
  list_subscriptions fuel service max_results = Some (Returned out) ->
  NoDup (map (fun s => PyStr.lower (sender_email s)) out).
Proof.
  intros H. apply list_subscriptions_of_scan in H.
  destruct H as [st [Hscan ->]].
  destruct (subscriptions_scan_inv _ _ _ _ Hscan) as [Hk He _ _].
  apply (Permutation_NoDup
           (l := map (fun s => PyStr.lower (sender_email s))
                     (Dict.values (acc st)))).
  - apply Permutation_map, Permutation_sym, sorted_reverse_perm.
  - rewrite (entries_keyed_by_sender _ He), Hk. apply first_seen_NoDup.
Qed.

Lemma one_subscription_per_sender_witness :
  exists out,
    list_subscriptions 5 (Example.service Example.inbox) 100
    = Some (Returned out) /\
    NoDup (map (fun s => PyStr.lower (sender_email s)) out).
Proof.
  eexists. split; [vm_compute; reflexivity |].
  apply (one_subscription_per_sender 5 (Example.service Example.inbox) 100).
  vm_compute; reflexivity.
Defined.

Section Totals.

Lemma total_emails_perm (l l' : list Subscription) :
  Permutation l l' -> total_emails l = total_emails l'.
Proof.
  unfold total_emails. induction 1; simpl; lia.
Qed.

Lemma total_emails_set (k : string) (v : Subscription)
      (d : Dict.t Subscription) :
  total_emails (Dict.values (Dict.set k v d))
  = total_emails (Dict.values d)
    - match Dict.get k d with Some old => email_count old | None => 0 end
    + email_count v.
Proof.
  unfold total_emails, Dict.values.
  induction d as [|[k' v'] d IH]; simpl; [lia |].
  destruct (String.eqb k k'); simpl; [lia | rewrite IH; lia].
Qed.

Lemma total_emails_aggregate (d : Dict.t Subscription)
      (msg_id list_unsub : string) (headers : list Header) :
  total_emails (Dict.values (aggregate d msg_id headers list_unsub))
  = total_emails (Dict.values d) + 1.
Proof.
  destruct (aggregate_get d msg_id list_unsub headers)
    as [sub [Hsub ->]].
  rewrite total_emails_set. unfold record_message. cbn [email_count].
  destruct Hsub as [Hget | [Hget ->]].
  - unfold Dict.mem. rewrite Hget. cbv iota. rewrite Hget. lia.
  - unfold Dict.mem. rewrite Hget. cbv iota.
    rewrite Dict_get_set, total_emails_set, Hget. simpl. lia.
Qed.

End Totals.

(** X7. The subscriptions that [list_subscriptions] returns account
    together for as many messages as the scan retained, and for no more
    than [max_results]: the [email_count]s add up to the count that
    ended the scan. *)
Theorem email_counts_add_up_to_budget
        (fuel : nat) (service : GmailService) (max_results : Z)
        (out : list Subscription) :
  list_subscriptions fuel service max_results = Some (Returned out) ->
  total_emails out <= Z.max 0 max_results /\
  exists st,
    subscriptions_scan fuel service max_results = Some (Returned st) /\
    total_emails out = processed st /\
    total_emails out
    = Z.of_nat (List.length (senders_met service (requests st))).
Proof.
  intros H. apply list_subscriptions_of_scan in H.
  destruct H as [st [Hscan ->]].
  destruct (subscriptions_scan_inv _ _ _ _ Hscan) as [_ _ Hp Hb].
  assert (Ht : total_emails (Dict.values (acc st)) = processed st).
  { unfold subscriptions_scan in Hscan.
    apply (subscriptions_loop_invariant
             service max_results
             (fun s => total_emails (Dict.values (acc s)) = processed s))
      with (fuel := fuel) (st := scan_start []) (st' := st); trivial.
    intros s msg headers v Hs _ _ _ _. simpl.
    rewrite total_emails_aggregate. lia. }
  rewrite (total_emails_perm _ _ (sorted_reverse_perm email_count _)).
  split; [lia |]. exists st. repeat split; trivial. lia.
Qed.

Lemma email_counts_add_up_to_budget_witness :
  exists out,
    list_subscriptions 5 (Example.service Example.inbox) 4
    = Some (Returned out) /\
    total_emails out = 4 /\
    total_emails out <= Z.max 0 4 /\
    exists st,
      subscriptions_scan 5 (Example.service Example.inbox) 4
      = Some (Returned st) /\
      total_emails out = processed st /\
      total_emails out
      = Z.of_nat (List.length
                    (senders_met (Example.service Example.inbox)
                                 (requests st))).
Proof.
  eexists. split; [vm_compute; reflexivity |].
  split; [reflexivity |].
  apply (email_counts_add_up_to_budget
           5 (Example.service Example.inbox) 4).
  vm_compute; reflexivity.
Defined.

Section AggregateAsSet.

Context {V : Type}.

Lemma Dict_set_set (k : string) (v1 v2 : V) (d : Dict.t V) :
  Dict.set k v2 (Dict.set k v1 d) = Dict.set k v2 d.
Proof.
  induction d as [|[k' v'] d IH]; simpl.
  - now rewrite String.eqb_refl.
  - destruct (String.eqb k k') eqn:E; simpl; rewrite E; [reflexivity |].
    now rewrite IH.
Qed.

Lemma Dict_get_set_other (k k' : string) (v : V) (d : Dict.t V) :
  k <> k' -> Dict.get k (Dict.set k' v d) = Dict.get k d.
Proof.
  intros Hne. induction d as [|[k0 v0] d IH]; simpl.
  - apply String.eqb_neq in Hne. now rewrite Hne.
  - destruct (String.eqb_spec k' k0) as [<- | Hk]; simpl.
    + apply String.eqb_neq in Hne. now rewrite Hne.
    + destruct (String.eqb k k0); [reflexivity | exact IH].
Qed.

End AggregateAsSet.

(** The whole of [aggregate]: the record of the sender, the one it had
    or a new one, is replaced by that record with the message written
    into it. *)
Lemma aggregate_as_set (d : Dict.t Subscription)
      (msg_id list_unsub : string) (headers : list Header) :
  exists sub : Subscription,
    (Dict.get (PyStr.lower (snd (_extract_sender_info headers))) d = Some sub \/
     Dict.get (PyStr.lower (snd (_extract_sender_info headers))) d = None /\
     sub = mkSubscription (snd (_extract_sender_info headers))
                          (fst (_extract_sender_info headers))
                          [] [] [] [] 0) /\
    aggregate d msg_id headers list_unsub
    = Dict.set (PyStr.lower (snd (_extract_sender_info headers)))
               (record_message
                  sub (or_empty (_get_header_value headers "Subject")) msg_id
                  (fst (_parse_unsubscribe_header list_unsub))
                  (snd (_parse_unsubscribe_header list_unsub)))
               d.
Proof.
  destruct (aggregate_get d msg_id list_unsub headers) as [sub [Hsub E]].
  exists sub. split; [exact Hsub |]. rewrite E.
  destruct Hsub as [Hget | [Hget _]]; unfold Dict.mem; rewrite Hget;
    cbv iota; [reflexivity | apply Dict_set_set].
Qed.

(** X8. Every subscription that [list_subscriptions] returns stands for
    at least one message, has as many subject examples as message ids,
    and holds only ids of messages that the scan fetched. *)
Theorem subscriptions_are_well_formed
        (fuel : nat) (service : GmailService) (max_results : Z)
        (out : list Subscription) :
  list_subscriptions fuel service max_results = Some (Returned out) ->
  exists st,
    subscriptions_scan fuel service max_results = Some (Returned st) /\
    Forall (well_formed_record (requests st)) out.
Proof.
  intros H. apply list_subscriptions_of_scan in H.
  destruct H as [st [Hscan ->]]. exists st. split; [exact Hscan |].
  apply (Permutation_Forall
           (Permutation_sym (sorted_reverse_perm email_count _))).
  unfold Dict.values. apply Forall_map.
  unfold subscriptions_scan in Hscan.
  assert (Hgrow : forall (log : list Request) (r : Request)
                         (d : Dict.t Subscription),
             Forall (fun kv => well_formed_record log (snd kv)) d ->
             Forall (fun kv => well_formed_record (log ++ [r]) (snd kv)) d).
  { intros log r d. apply Forall_impl. intros kv [Hc [Hl Hi]].
    repeat split; trivial. intros x Hx. rewrite examined_snoc.
    apply in_or_app. left. now apply Hi. }
  apply (subscriptions_loop_invariant
           service max_results
           (fun s => Forall (fun kv => well_formed_record (requests s) (snd kv))
                            (acc s)))
    with (fuel := fuel) (st := scan_start []) (st' := st); trivial.
  - intros s msg headers Hs _ _. simpl. now apply Hgrow.
  - intros s msg headers v Hs _ _ _ _. simpl.
    destruct (aggregate_as_set (acc s) (id msg) v headers)
      as [sub [Hsub ->]].
    apply Dict_set_Forall; [now apply Hgrow |].
    assert (Hold : 0 <= email_count sub /\
                   List.length (subject_examples sub)
                   = List.length (message_ids sub) /\
                   incl (message_ids sub) (examined (requests s))).
    { destruct Hsub as [Hget | [_ ->]].
      - apply Dict_get_In in Hget. rewrite Forall_forall in Hs.
        destruct (Hs _ Hget) as [Hc [Hl Hi]]. simpl in *.
        repeat split; trivial. lia.
      - simpl. repeat split; [lia |]. intros x []. }
    destruct Hold as [Hc [Hl Hi]].
    unfold well_formed_record, record_message. simpl.
    rewrite !length_app, Hl, examined_snoc. simpl.
    repeat split; [lia |].
    intros x Hx. apply in_app_or in Hx. apply in_or_app.
    destruct Hx as [Hx | Hx]; [left; now apply Hi | now right].
  - intros s Hs _. simpl. now apply Hgrow.
Qed.

Lemma subscriptions_are_well_formed_witness :
  exists out st,
    list_subscriptions 5 (Example.service Example.inbox) 100
    = Some (Returned out) /\
    subscriptions_scan 5 (Example.service Example.inbox) 100
    = Some (Returned st) /\
    Forall (well_formed_record (requests st)) out.
Proof.
  destruct (subscriptions_are_well_formed
              5 (Example.service Example.inbox) 100
              (match list_subscriptions 5 (Example.service Example.inbox) 100
               with Some (Returned out) => out | _ => [] end))
    as [st [Hscan Hout]].
  - vm_compute; reflexivity.
  - eexists. exists st. split; [vm_compute; reflexivity |].
    split; [exact Hscan | exact Hout].
Defined.

(** X9. Aggregating a message changes the record of its sender and no
    other.  A sender that is already known keeps the address and the
    name first seen, whatever the case and the name of the new message,
    and gets the subject, the id and the links appended and one more
    on its count; a new sender gets a record with this one message. *)
Theorem aggregate_touches_one_sender
        (d : Dict.t Subscription) (msg_id list_unsub : string)
        (headers : list Header) :
  let key := PyStr.lower (snd (_extract_sender_info headers)) in
  let d' := aggregate d msg_id headers list_unsub in
  let subject := or_empty (_get_header_value headers "Subject") in
  let links := _parse_unsubscribe_header list_unsub in
  (forall k : string, k <> key -> Dict.get k d' = Dict.get k d) /\
  (forall sub : Subscription,
      Dict.get key d = Some sub ->
      Dict.get key d'
      = Some (mkSubscription
                (sender_email sub) (sender_name sub)
                (subject_examples sub ++ [subject])
                (message_ids sub ++ [msg_id])
                (unsubscribe_links sub ++ fst links)
                (unsubscribe_mailto sub ++ snd links)
                (email_count sub + 1))) /\
  (Dict.get key d = None ->
   Dict.get key d'
   = Some (mkSubscription
             (snd (_extract_sender_info headers))
             (fst (_extract_sender_info headers))
             [subject] [msg_id] (fst links) (snd links) 1)).
Proof.
  cbv zeta.
  destruct (aggregate_as_set d msg_id list_unsub headers) as [sub [Hsub ->]].
  split; [| split].
  - intros k Hk. now apply Dict_get_set_other.
  - intros sub0 Hget. rewrite Dict_get_set.
    destruct Hsub as [Hg | [Hg _]]; [| congruence].
    rewrite Hg in Hget. now injection Hget as ->.
  - intros Hnone. rewrite Dict_get_set.
    destruct Hsub as [Hg | [_ ->]]; [congruence | reflexivity].
Qed.

Lemma aggregate_touches_one_sender_witness :
  let d := aggregate [] "m1" (Example.headers_of "m1")
                     "<https://shop.com/u?1>, <mailto:off@shop.com>" in
  Dict.get "news@shop.com"
           (aggregate d "m4" (Example.headers_of "m4")
                      "<https://shop.com/u?4>")
  = Some (mkSubscription
            "news@shop.com" "Shop" ["Sale"; ""] ["m1"; "m4"]
            ["https://shop.com/u?1"; "https://shop.com/u?4"]
            ["mailto:off@shop.com"] 2).
Proof.
  cbv zeta.
  exact (proj1 (proj2 (aggregate_touches_one_sender
                         (aggregate [] "m1" (Example.headers_of "m1")
                                    "<https://shop.com/u?1>, <mailto:off@shop.com>")
                         "m4" "<https://shop.com/u?4>"
                         (Example.headers_of "m4")))
               (mkSubscription
                  "news@shop.com" "Shop" ["Sale"] ["m1"]
                  ["https://shop.com/u?1"] ["mailto:off@shop.com"] 1)
               eq_refl).
Defined.

(** ** Further properties of the header parser *)

Section FindAllMore.

Import UnsubRegex.
Local Open Scope string_scope.

Lemma until_gt_none (s : string) : gt_free s = true -> until_gt s = None.
Proof.
  unfold gt_free. induction s as [|c s IH]; [reflexivity |].
  cbn [PyStr.all_chars until_gt]. intros H. apply andb_true_iff in H.
  destruct H as [Hc Hs]. apply negb_true_iff in Hc.
  now rewrite Hc, (IH Hs).
Qed.

Lemma findall_without_gt (s : string) : gt_free s = true -> findall s = [].
Proof.
  induction s as [|c s IH]; [reflexivity |]. intros H.
  assert (Hs : gt_free s = true).
  { unfold gt_free in *. cbn [PyStr.all_chars] in H.
    now apply andb_true_iff in H. }
  rewrite findall_unfold. unfold match_at.
  rewrite (until_gt_none s Hs). destruct (is_lt c); now apply IH.
Qed.

Lemma findall_without_lt (s : string) : lt_free s = true -> findall s = [].
Proof.
  unfold lt_free. induction s as [|c s IH]; [reflexivity |].
  cbn [PyStr.all_chars]. intros H. apply andb_true_iff in H.
  destruct H as [Hc Hs]. apply negb_true_iff in Hc.
  rewrite findall_unfold. unfold match_at. rewrite Hc. now apply IH.
Qed.

Lemma findall_first_token (pre t rest : string) :
  lt_free pre = true -> t <> "" -> gt_free t = true ->
  findall (pre ++ "<" ++ t ++ ">" ++ rest) = t :: findall rest.
Proof.
  unfold lt_free. intros Hpre Hne Hfree. induction pre as [|c pre IH].
  - change ("" ++ "<" ++ t ++ ">" ++ rest) with ("<" ++ t ++ ">" ++ rest).
    rewrite findall_unfold, (match_at_complete t rest Hne Hfree).
    reflexivity.
  - cbn [PyStr.all_chars] in Hpre. apply andb_true_iff in Hpre.
    destruct Hpre as [Hc Hpre]. apply negb_true_iff in Hc.
    change (String c pre ++ "<" ++ t ++ ">" ++ rest)
      with (String c (pre ++ "<" ++ t ++ ">" ++ rest)).
    rewrite findall_unfold. unfold match_at. rewrite Hc. now apply IH.
Qed.

End FindAllMore.

(** X10. The parse of a List-Unsubscribe value goes token by token:
    what stands before the first [<] is passed over, the first
    bracketed token is classified, and the rest of the value is parsed
    on its own. *)
Theorem parse_unsubscribe_header_token_by_token (pre t rest : string) :
  lt_free pre = true -> t <> "" -> gt_free t = true ->
  _parse_unsubscribe_header (pre ++ "<" ++ t ++ ">" ++ rest)%string
  = ((if is_http_token t then [t] else [])
       ++ fst (_parse_unsubscribe_header rest),
     (if is_mailto_token t then [t] else [])
       ++ snd (_parse_unsubscribe_header rest)).
Proof.
  intros Hpre Hne Hfree. rewrite !parse_as_filters.
  rewrite (findall_first_token pre t rest Hpre Hne Hfree). cbn [fst snd filter].
  destruct (is_http_token t), (is_mailto_token t); reflexivity.
Qed.

Lemma parse_unsubscribe_header_token_by_token_witness :
  _parse_unsubscribe_header
    ("List: " ++ "<" ++ "mailto:off@shop.com" ++ ">"
              ++ ", <https://shop.com/u>")%string
  = ((if is_http_token "mailto:off@shop.com"
      then ["mailto:off@shop.com"] else [])
       ++ fst (_parse_unsubscribe_header ", <https://shop.com/u>"),
     (if is_mailto_token "mailto:off@shop.com"
      then ["mailto:off@shop.com"] else [])
       ++ snd (_parse_unsubscribe_header ", <https://shop.com/u>")).
Proof.
  apply (parse_unsubscribe_header_token_by_token
           "List: " "mailto:off@shop.com" ", <https://shop.com/u>");
    [reflexivity | discriminate | reflexivity].
Defined.

(** X11. A List-Unsubscribe value that lacks an opening or a closing
    angle bracket, such as a bare URL, gives no link at all. *)
Theorem unbracketed_header_gives_no_link (header_value : string) :
  lt_free header_value = true \/ gt_free header_value = true ->
  _parse_unsubscribe_header header_value = ([], []).
Proof.
  intros H. rewrite parse_as_filters.
  assert (E : UnsubRegex.findall header_value = []).
  { destruct H; [now apply findall_without_lt | now apply findall_without_gt]. }
  now rewrite E.
Qed.

Lemma unbracketed_header_gives_no_link_witness :
  _parse_unsubscribe_header "https://shop.com/unsubscribe?u=1" = ([], []).
Proof.
  apply unbracketed_header_gives_no_link. left. reflexivity.
Defined.

(** X12. The address that [_extract_sender_info] returns never has
    white space at its ends; and either the name is that same string
    (the pattern did not match) or the name has no double quote at its
    ends. *)
Theorem extract_sender_info_is_trimmed (headers : list Header) :
  let name := fst (_extract_sender_info headers) in
  let address := snd (_extract_sender_info headers) in
  starts_in PyStr.isspace address = false /\
  ends_in PyStr.isspace address = false /\
  (name = address \/
   starts_in (fun c => Ascii.eqb c PyStr.dquote) name = false /\
   ends_in (fun c => Ascii.eqb c PyStr.dquote) name = false).
Proof.
  cbv zeta. rewrite extract_sender_info_from. cbv zeta.
  destruct (SenderRegex.re_match _) as [[g1 g2] |]; cbn [fst snd].
  - destruct (strip_by_Stripped PyStr.isspace g2)
      as [l [r [_ [_ [_ [Hs He]]]]]].
    destruct (strip_by_Stripped (fun c => Ascii.eqb c PyStr.dquote)
                                (PyStr.strip g1))
      as [l' [r' [_ [_ [_ [Hs' He']]]]]].
    split; [exact Hs | split; [exact He |]]. right. now split.
  - match goal with
    | |- context [PyStr.strip ?v] =>
        destruct (strip_by_Stripped PyStr.isspace v)
        as [l [r [_ [_ [_ [Hs He]]]]]]
    end.
    split; [exact Hs | split; [exact He |]]. now left.
Qed.

(** X13. [unsubscribe_http] catches [Exception] and nothing wider: a
    failure of the fetch that does not derive from [Exception], such as
    the cancellation of the task, is raised to the caller. *)
Theorem base_exception_escapes (web : Web) (url : string) (e : PyExc) :
  is_Exception e = false ->
  fetch_fails web url e ->
  unsubscribe_http web url = Raised e.
Proof.
  intros He Hfail. unfold unsubscribe_http, unsubscribe_http_with,
                   confirm_attempt.
  destruct Hfail as [Hget | resp Hget Htext | resp body Hget Htext Hsoup].
  - now rewrite Hget, He.
  - now rewrite Hget, Htext, He.
  - now rewrite Hget, Htext, Hsoup, He.
Qed.

Lemma base_exception_escapes_witness :
  unsubscribe_http (Example.web_down CancelledError) "https://shop.com/u?1"
  = Raised CancelledError.
Proof.
  apply (base_exception_escapes
           (Example.web_down CancelledError) "https://shop.com/u?1"
           CancelledError); [reflexivity |].
  apply fails_in_get. reflexivity.
Defined.

(** X14. [_get_header_value] ignores case on both sides: the case of
    the name asked for and the case of the names of the headers. *)
Theorem get_header_value_ignores_case
        (headers headers' : list Header) (header_name header_name' : string) :
  PyStr.lower header_name = PyStr.lower header_name' ->
  Forall2 (fun h h' => PyStr.lower (name h) = PyStr.lower (name h') /\
                       value h = value h') headers headers' ->
  _get_header_value headers header_name
  = _get_header_value headers' header_name'.
Proof.
  intros Hn H. induction H as [|h h' hs hs' [Hname Hvalue] _ IH];
    [reflexivity |].
  simpl. rewrite Hname, Hn, Hvalue, IH. reflexivity.
Qed.

Lemma get_header_value_ignores_case_witness :
  _get_header_value [mkHeader "SUBJECT" "Sale"; mkHeader "from" "a@b.c"]
                    "From"
  = _get_header_value [mkHeader "subject" "Sale"; mkHeader "FROM" "a@b.c"]
                      "fROM".
Proof.
  apply get_header_value_ignores_case; [reflexivity |].
  repeat constructor.
Defined.

Section PlainSender.

Import SenderRegex.
Local Open Scope string_scope.

Lemma all_chars_append (p : ascii -> bool) (a b : string) :
  PyStr.all_chars p (a ++ b) = PyStr.all_chars p a && PyStr.all_chars p b.
Proof.
  induction a as [|c a IH]; simpl; [reflexivity |].
  now rewrite IH, andb_assoc.
Qed.

Lemma lstrip_all (p : ascii -> bool) (ws : string) :
  PyStr.all_chars p ws = true -> PyStr.lstrip_by p ws = "".
Proof.
  induction ws as [|c ws IH]; simpl; [reflexivity |].
  intros H. apply andb_true_iff in H. destruct H as [Hc Hws].
  now rewrite Hc, IH.
Qed.

Lemma rstrip_all (p : ascii -> bool) (ws : string) :
  PyStr.all_chars p ws = true -> PyStr.rstrip_by p ws = "".
Proof.
  induction ws as [|c ws IH]; simpl; [reflexivity |].
  intros H. apply andb_true_iff in H. destruct H as [Hc Hws].
  now rewrite (IH Hws), Hc.
Qed.

Lemma rstrip_append_all (p : ascii -> bool) (y ws : string) :
  PyStr.all_chars p ws = true ->
  PyStr.rstrip_by p (y ++ ws) = PyStr.rstrip_by p y.
Proof.
  intros Hws. induction y as [|c y IH].
  - simpl. now apply rstrip_all.
  - change (String c y ++ ws) with (String c (y ++ ws)).
    cbn [PyStr.rstrip_by]. now rewrite IH.
Qed.

(** White space after a string does not change what [strip] gives. *)
Lemma strip_append_all (p : ascii -> bool) (x ws : string) :
  PyStr.all_chars p ws = true ->
  PyStr.strip_by p (x ++ ws) = PyStr.strip_by p x.
Proof.
  intros Hws. unfold PyStr.strip_by. induction x as [|c x IH].
  - simpl. now rewrite (lstrip_all p ws Hws).
  - change (String c x ++ ws) with (String c (x ++ ws)).
    cbn [PyStr.lstrip_by]. destruct (p c); [exact IH |].
    change (String c (x ++ ws)) with (String c x ++ ws).
    now apply rstrip_append_all.
Qed.

Lemma append_prefix_split (a b c d : string) :
  a ++ b = c ++ d -> (String.length a <= String.length c)%nat ->
  exists m, c = a ++ m.
Proof.
  revert c. induction a as [|x a IH]; intros c H Hl.
  - now exists c.
  - destruct c as [|y c]; [simpl in Hl; lia |].
    simpl in H. injection H as -> H. simpl in Hl.
    destruct (IH c H ltac:(lia)) as [m ->]. now exists m.
Qed.

Lemma first_lt_unique (x y x' y' : string) :
  lt_free x = true -> lt_free x' = true ->
  x ++ "<" ++ y = x' ++ "<" ++ y' -> x = x' /\ y = y'.
Proof.
  unfold lt_free. revert x'. induction x as [|c x IH]; intros [|c' x'];
    cbn [PyStr.all_chars]; intros Hx Hx' H.
  - simpl in H. now injection H as ->.
  - simpl in H. injection H as <- _. discriminate.
  - simpl in H. injection H as -> _. discriminate.
  - simpl in H. injection H as -> H.
    apply andb_true_iff in Hx, Hx'.
    destruct (IH x' (proj2 Hx) (proj2 Hx') H) as [-> ->]. now split.
Qed.

Lemma string_snoc_inj (x y : string) (c d : ascii) :
  x ++ String c "" = y ++ String d "" -> x = y /\ c = d.
Proof.
  revert y. induction x as [|a x IH]; intros [|b y] H; simpl in H.
  - now injection H as ->.
  - injection H as _ H. destruct y; discriminate.
  - injection H as _ H. destruct x; discriminate.
  - injection H as -> H. destruct (IH y H) as [-> ->]. now split.
Qed.

Lemma space_is_not_lt (ws : string) :
  all_space ws = true -> lt_free ws = true.
Proof.
  unfold all_space, lt_free. induction ws as [|c ws IH]; [reflexivity |].
  cbn [PyStr.all_chars]. intros H. apply andb_true_iff in H.
  destruct H as [Hc Hws]. rewrite (IH Hws), andb_true_r.
  apply negb_true_iff. unfold UnsubRegex.is_lt.
  destruct (Ascii.eqb_spec c "<"%char) as [-> | _]; [discriminate | trivial].
Qed.

(** The match on a value with one opening bracket after the name. *)
Lemma re_match_plain (n ws a : string) :
  n <> "" -> newline_free n = true -> lt_free n = true ->
  all_space ws = true ->
  a <> "" -> newline_free a = true ->
  exists n0 ws0,
    re_match (n ++ ws ++ "<" ++ a ++ ">") = Some (n0, a) /\
    all_space ws0 = true /\ n0 ++ ws0 = n ++ ws.
Proof.
  intros Hn Hnf Hlt Hws Ha Haf.
  assert (Hp : SenderPattern (n ++ ws ++ "<" ++ a ++ ">") n a).
  { exists ws, "". rewrite append_nil_r. now repeat split. }
  destruct (re_match (n ++ ws ++ "<" ++ a ++ ">")) as [[n0 a0] |] eqn:E;
    [| exfalso; now apply (re_match_complete _ _ _ Hp)].
  pose proof (re_match_lazy _ _ _ E _ _ Hp) as Hshort.
  destruct (re_match_sound _ _ _ E)
    as [ws0 [tl0 [Hv [_ [_ [Hws0 [_ [_ Hend]]]]]]]].
  destruct (append_prefix_split _ _ _ _ (eq_sym Hv) Hshort) as [m Hm].
  assert (Hlt0 : lt_free (n0 ++ ws0) = true).
  { unfold lt_free in *. rewrite all_chars_append.
    rewrite Hm, all_chars_append in Hlt. apply andb_true_iff in Hlt.
    rewrite (proj1 Hlt). now apply space_is_not_lt. }
  assert (Hlt1 : lt_free (n ++ ws) = true).
  { unfold lt_free in *. rewrite all_chars_append, Hlt.
    now apply space_is_not_lt. }
  rewrite <- (append_assoc n0), <- (append_assoc n) in Hv.
  destruct (first_lt_unique _ _ _ _ Hlt1 Hlt0 Hv) as [Hx Hy].
  exists n0, ws0. split; [| split; [exact Hws0 | now symmetry]].
  f_equal. f_equal.
  destruct tl0 as [|c [|d tl0]]; try discriminate.
  - rewrite !append_nil_r in Hy.
    destruct (string_snoc_inj _ _ _ _ Hy) as [-> _]. reflexivity.
  - exfalso. simpl in Hend. apply Ascii.eqb_eq in Hend. subst c.
    change (a0 ++ ">" ++ String PyStr.newline "")
      with (a0 ++ String ">" "" ++ String PyStr.newline "") in Hy.
    rewrite <- append_assoc in Hy.
    destruct (string_snoc_inj _ _ _ _ Hy) as [_ Hc]. discriminate.
Qed.

End PlainSender.

(** X15. For a From header of the usual shape, a display name without
    [<], white space, and the address between angle brackets up to the
    end of the value, [_extract_sender_info] returns the name without
    the white space and then the double quotes at its ends, and the
    address without its brackets and without white space at its ends. *)
Theorem extract_sender_info_of_usual_header
        (headers : list Header) (first : Header) (n ws a : string) :
  FirstNamed "From" headers first ->
  value first = (n ++ ws ++ "<" ++ a ++ ">")%string ->
  n <> "" -> newline_free n = true -> lt_free n = true ->
  all_space ws = true ->
  a <> "" -> newline_free a = true ->
  _extract_sender_info headers
  = (PyStr.strip_quotes (PyStr.strip n), PyStr.strip a).
Proof.
  intros Hfirst Hv Hn Hnf Hlt Hws Ha Haf.
  assert (E : _get_header_value headers "From" = Some (value first))
    by (apply get_header_value_first; now exists first).
  rewrite extract_sender_info_from, E, Hv. cbv zeta.
  destruct (re_match_plain n ws a Hn Hnf Hlt Hws Ha Haf)
    as [n0 [ws0 [-> [Hws0 Heq]]]].
  f_equal. f_equal. unfold PyStr.strip.
  rewrite <- (strip_append_all PyStr.isspace n0 ws0 Hws0), Heq.
  now apply strip_append_all.
Qed.

Lemma extract_sender_info_of_usual_header_witness :
  _extract_sender_info
    [mkHeader "Subject" "Sale";
     mkHeader "From"
              (String PyStr.dquote "Shop News"
                 ++ String PyStr.dquote "" ++ "  " ++ "<"
                 ++ " news@shop.com " ++ ">")%string]
  = ("Shop News", "news@shop.com").
Proof.
  apply (extract_sender_info_of_usual_header
           [mkHeader "Subject" "Sale";
            mkHeader "From"
                     (String PyStr.dquote "Shop News"
                        ++ String PyStr.dquote "" ++ "  " ++ "<"
                        ++ " news@shop.com " ++ ">")%string]
           (mkHeader "From"
                     (String PyStr.dquote "Shop News"
                        ++ String PyStr.dquote "" ++ "  " ++ "<"
                        ++ " news@shop.com " ++ ">")%string)
           (String PyStr.dquote "Shop News" ++ String PyStr.dquote "")%string
           "  "%string " news@shop.com "%string);
    try reflexivity; try discriminate.
  exists [mkHeader "Subject" "Sale"], [].
  split; [reflexivity | split; [reflexivity |]].
  constructor; [discriminate | constructor].
Defined.

(** ** The tool layer *)

(** X16. [desuscribirse] turns down a url whose lower-case form starts
    with neither "http://" nor "https://": it returns the error object
    and does not consult the web at all, so the answer is the same
    whatever the web would have said. *)
Theorem invalid_url_is_rejected (web web' : Web) (url : string) :
  url_accepted url = false ->
  desuscribirse web url
  = Returned (Json.dumps [("ok"%string, Json.Bool false);
                          ("error"%string, Json.Str invalid_url_message)]) /\
  desuscribirse web url = desuscribirse web' url.
Proof.
  intros H. unfold desuscribirse. rewrite H. now split.
Qed.

Lemma invalid_url_is_rejected_witness :
  desuscribirse (Example.web_ok Example.landing_page "unsubscribed")
                "mailto:off@shop.com"
  = Returned (Json.dumps [("ok"%string, Json.Bool false);
                          ("error"%string, Json.Str invalid_url_message)]) /\
  desuscribirse (Example.web_ok Example.landing_page "unsubscribed")
                "mailto:off@shop.com"
  = desuscribirse (Example.web_down TimeoutException) "mailto:off@shop.com".
Proof.
  apply (invalid_url_is_rejected
           (Example.web_ok Example.landing_page "unsubscribed")
           (Example.web_down TimeoutException) "mailto:off@shop.com").
  reflexivity.
Defined.

(** X17. [desuscribirse] answers every failure that derives from
    [Exception] with an object: for an accepted url whose fetch fails
    so, it returns "ok": false with the url; and whatever it raises
    does not derive from [Exception]. *)
Theorem desuscribirse_reports_failures (web : Web) (url : string) :
  (forall e : PyExc,
      url_accepted url = true ->
      is_Exception e = true ->
      fetch_fails web url e ->
      desuscribirse web url
      = Returned (Json.dumps [("ok"%string, Json.Bool false);
                              ("url"%string, Json.Str url)])) /\
  (forall e : PyExc,
      desuscribirse web url = Raised e -> is_Exception e = false).
Proof.
  split.
  - intros e Hurl He Hfail. unfold desuscribirse, unsubscribe_http.
    rewrite Hurl, (exception_swallowed web url keywords e He Hfail).
    reflexivity.
  - intros e. unfold desuscribirse.
    destruct (negb (url_accepted url)); [discriminate |].
    unfold unsubscribe_http, unsubscribe_http_with.
    destruct (confirm_attempt keywords web url) as [b | e0];
      [discriminate |].
    destruct (is_Exception e0) eqn:E; [discriminate |].
    intros H; injection H as <-. exact E.
Qed.

Lemma desuscribirse_reports_failures_witness :
  desuscribirse (Example.web_down ConnectError) "HTTPS://shop.com/u?1"
  = Returned (Json.dumps [("ok"%string, Json.Bool false);
                          ("url"%string, Json.Str "HTTPS://shop.com/u?1")]).
Proof.
  apply (proj1 (desuscribirse_reports_failures
                  (Example.web_down ConnectError) "HTTPS://shop.com/u?1")
               ConnectError); [reflexivity | reflexivity |].
  apply fails_in_get. reflexivity.
Defined.

Lemma http_token_is_accepted (m : string) :
  is_http_token m = true -> url_accepted m = true.
Proof.
  unfold is_http_token, url_accepted. intros H.
  apply orb_true_iff in H. apply orb_true_iff.
  destruct H as [H | H]; [left | right];
    apply startswith_spec in H; destruct H as [r ->];
    rewrite lower_append; apply startswith_spec; eexists; reflexivity.
Qed.

(** X18. Every link that a subscription returned by
    [list_subscriptions] holds in [unsubscribe_links] is a url that
    [desuscribirse] accepts, and every entry of [unsubscribe_mailto]
    starts with "mailto:". *)
Theorem listed_links_are_accepted
        (fuel : nat) (service : GmailService) (max_results : Z)
        (out : list Subscription) :
  list_subscriptions fuel service max_results = Some (Returned out) ->
  Forall (fun s =>
            Forall (fun link => url_accepted link = true)
                   (unsubscribe_links s) /\
            Forall (fun m => PyStr.startswith "mailto:" m = true)
                   (unsubscribe_mailto s)) out.
Proof.
  intros H. apply list_subscriptions_of_scan in H.
  destruct H as [st [Hscan ->]].
  apply (Permutation_Forall
           (Permutation_sym (sorted_reverse_perm email_count _))).
  unfold Dict.values. apply Forall_map.
  unfold subscriptions_scan in Hscan.
  apply (subscriptions_loop_invariant
           service max_results
           (fun s =>
              Forall (fun kv =>
                        Forall (fun link => url_accepted link = true)
                               (unsubscribe_links (snd kv)) /\
                        Forall (fun m => PyStr.startswith "mailto:" m = true)
                               (unsubscribe_mailto (snd kv)))
                     (acc s)))
    with (fuel := fuel) (st := scan_start []) (st' := st); trivial.
  intros s msg headers v Hs _ _ _ _. simpl.
  destruct (aggregate_as_set (acc s) (id msg) v headers) as [sub [Hsub ->]].
  apply Dict_set_Forall; [exact Hs |].
  assert (Hold : Forall (fun link => url_accepted link = true)
                        (unsubscribe_links sub) /\
                 Forall (fun m => PyStr.startswith "mailto:" m = true)
                        (unsubscribe_mailto sub)).
  { destruct Hsub as [Hget | [_ ->]].
    - apply Dict_get_In in Hget. rewrite Forall_forall in Hs.
      exact (Hs _ Hget).
    - split; constructor. }
  destruct Hold as [Hl Hm]. unfold record_message. simpl.
  rewrite parse_as_filters. cbn [fst snd]. split; apply Forall_app; split;
    trivial; apply Forall_forall; intros x Hx; apply filter_In in Hx;
    destruct Hx as [_ Hx]; [now apply http_token_is_accepted | exact Hx].
Qed.

Lemma listed_links_are_accepted_witness :
  exists out,
    list_subscriptions 5 (Example.service Example.inbox) 100
    = Some (Returned out) /\
    Forall (fun s =>
              Forall (fun link => url_accepted link = true)
                     (unsubscribe_links s) /\
              Forall (fun m => PyStr.startswith "mailto:" m = true)
                     (unsubscribe_mailto s)) out.
Proof.
  eexists. split; [vm_compute; reflexivity |].
  apply (listed_links_are_accepted 5 (Example.service Example.inbox) 100).
  vm_compute; reflexivity.
Defined.

Section Rendering.

Local Open Scope string_scope.

Lemma str_join_cons (sep x : string) (l : list string) :
  exists rest, str_join sep (x :: l) = x ++ rest.
Proof.
  destruct l as [|y l]; simpl.
  - exists "". now rewrite append_nil_r.
  - eexists. reflexivity.
Qed.

Lemma str_join_In (sep x : string) (l : list string) :
  In x l -> Substring x (str_join sep l).
Proof.
  induction l as [|y l IH]; [intros [] |]. intros [-> | Hin].
  - destruct (str_join_cons sep x l) as [rest ->]. now exists "", rest.
  - destruct l as [|z l]; [destruct Hin |].
    destruct (IH Hin) as [pre [post E]].
    change (str_join sep (y :: z :: l))
      with (y ++ sep ++ str_join sep (z :: l)).
    rewrite E. exists (y ++ sep ++ pre), post.
    now rewrite !append_assoc.
Qed.

Lemma listing_lines_In (line : string) (sub : Subscription)
      (subs : list Subscription) :
  In sub subs ->
  (forall i, In line (subscription_lines i sub)) ->
  forall i, In line (listing_lines i subs).
Proof.
  intros Hsub Hline. induction subs as [|s subs IH]; [destruct Hsub |].
  intros i. cbn [listing_lines]. apply in_or_app.
  destruct Hsub as [-> | Hsub]; [left; apply Hline | right; now apply IH].
Qed.

End Rendering.

(** X19. The two listing tools never give an ambiguous answer: the text
    is the "nothing found" sentence exactly when the scan returned an
    empty list, and otherwise it starts with the heading. *)
Theorem listings_are_never_ambiguous
        (fuel : nat) (service : GmailService) (consulta : string)
        (max_resultados : Z) (text : string) :
  (_listar_suscripciones fuel service max_resultados = Some (Returned text) ->
   exists subs,
     list_subscriptions fuel service max_resultados = Some (Returned subs) /\
     (text = no_subscriptions_message <-> subs = []) /\
     (subs <> [] -> PyStr.startswith subscriptions_heading text = true)) /\
  (buscar_emails fuel service consulta max_resultados = Some (Returned text) ->
   exists resultados,
     search_emails fuel service consulta max_resultados
     = Some (Returned resultados) /\
     (text = no_emails_message <-> resultados = []) /\
     (resultados <> [] -> PyStr.startswith results_heading text = true)).
Proof.
  split.
  - unfold _listar_suscripciones.
    destruct (list_subscriptions fuel service max_resultados)
      as [[subs | e] |]; try discriminate.
    intros H; injection H as <-. exists subs. split; [reflexivity |].
    destruct subs as [|s subs].
    + split; [now split | intros H; now contradiction H].
    + unfold render_subscriptions.
      destruct (str_join_cons nl subscriptions_heading
                              (listing_lines 1 (s :: subs))) as [rest ->].
      split; [split; discriminate |].
      intros _. apply startswith_spec. now exists rest.
  - unfold buscar_emails.
    destruct (search_emails fuel service consulta max_resultados)
      as [[rs | e] |]; try discriminate.
    intros H; injection H as <-. exists rs. split; [reflexivity |].
    destruct rs as [|r rs].
    + split; [now split | intros H; now contradiction H].
    + unfold render_results.
      destruct (str_join_cons nl results_heading
                              (flat_map result_lines (r :: rs))) as [rest ->].
      split; [split; discriminate |].
      intros _. apply startswith_spec. now exists rest.
Qed.

Lemma listings_are_never_ambiguous_witness :
  exists subs,
    list_subscriptions 5 (Example.service ["m2"]) 10 = Some (Returned subs) /\
    (no_subscriptions_message = no_subscriptions_message <-> subs = []) /\
    (subs <> [] ->
     PyStr.startswith subscriptions_heading no_subscriptions_message = true).
Proof.
  apply (proj1 (listings_are_never_ambiguous
                  5 (Example.service ["m2"]) "is:unread" 10
                  no_subscriptions_message)).
  vm_compute; reflexivity.
Defined.

Lemma listing_lines_In_indexed (line : Z -> string) (sub : Subscription)
      (subs : list Subscription) :
  In sub subs ->
  (forall i, In (line i) (subscription_lines i sub)) ->
  forall j, exists i, In (line i) (listing_lines j subs).
Proof.
  intros Hsub Hline. induction subs as [|s subs IH]; [destruct Hsub |].
  intros j. cbn [listing_lines]. destruct Hsub as [-> | Hsub].
  - exists j. apply in_or_app. left. apply Hline.
  - destruct (IH Hsub (j + 1)) as [i Hi]. exists i.
    apply in_or_app. now right.
Qed.

(** X20. The listing of [_listar_suscripciones] shows every
    unsubscribe link and every mailto entry of every subscription that
    the scan returned, and the address of every sender. *)
Theorem listing_shows_every_link
        (fuel : nat) (service : GmailService) (max_resultados : Z)
        (text : string) :
  _listar_suscripciones fuel service max_resultados = Some (Returned text) ->
  exists subs,
    list_subscriptions fuel service max_resultados = Some (Returned subs) /\
    forall sub : Subscription,
      In sub subs ->
      Substring ("(<" ++ sender_email sub ++ ">)")%string text /\
      (forall link, In link (unsubscribe_links sub) ->
                    Substring ("[Desuscribirse](" ++ link ++ ")")%string text) /\
      (forall mailto, In mailto (unsubscribe_mailto sub) ->
                      Substring ("por email: " ++ mailto)%string text).
Proof.
  unfold _listar_suscripciones.
  destruct (list_subscriptions fuel service max_resultados)
    as [[subs | e] |]; try discriminate.
  intros H; injection H as <-. exists subs. split; [reflexivity |].
  intros sub Hsub.
  assert (Hline : forall line : Z -> string,
             (forall i, In (line i) (subscription_lines i sub)) ->
             exists i, Substring (line i) (render_subscriptions subs)).
  { intros line Hl.
    destruct (listing_lines_In_indexed line sub subs Hsub Hl 1) as [i Hi].
    exists i. destruct subs as [|s subs]; [destruct Hsub |].
    unfold render_subscriptions. apply str_join_In. now right. }
  split; [| split].
  - destruct (Hline (fun i => (str_of_int i ++ ". **" ++ sender_name sub
                                 ++ "** (<" ++ sender_email sub
                                 ++ ">)  ")%string)) as [i Hi].
    { intros i. now left. }
    refine (Substring_trans _ _ _ _ Hi).
    exists (str_of_int i ++ ". **" ++ sender_name sub ++ "** ")%string,
      "  "%string.
    now rewrite !append_assoc.
  - intros link Hlink.
    destruct (Hline (fun _ => ("   - [Desuscribirse](" ++ link
                                 ++ ")  (Autom" ++ a_acute
                                 ++ "tico)")%string)) as [_ Hi].
    { intros i. unfold subscription_lines.
      apply in_or_app. right. apply in_or_app. right.
      apply in_or_app. left.
      now apply (in_map (fun l => ("   - [Desuscribirse](" ++ l
                                     ++ ")  (Autom" ++ a_acute
                                     ++ "tico)")%string)). }
    refine (Substring_trans _ _ _ _ Hi).
    exists "   - "%string, ("  (Autom" ++ a_acute ++ "tico)")%string.
    now rewrite !append_assoc.
  - intros mailto Hm.
    destruct (Hline (fun _ => ("   - Opci" ++ o_acute ++ "n de desuscripci"
                                 ++ o_acute ++ "n por email: "
                                 ++ mailto)%string)) as [_ Hi].
    { intros i. unfold subscription_lines.
      apply in_or_app. right. apply in_or_app. right.
      apply in_or_app. right. apply in_or_app. left.
      now apply (in_map (fun m => ("   - Opci" ++ o_acute
                                     ++ "n de desuscripci" ++ o_acute
                                     ++ "n por email: " ++ m)%string)). }
    refine (Substring_trans _ _ _ _ Hi).
    exists ("   - Opci" ++ o_acute ++ "n de desuscripci" ++ o_acute
                        ++ "n ")%string, ""%string.
    rewrite append_nil_r. now rewrite !append_assoc.
Qed.

Lemma listing_shows_every_link_witness :
  exists text subs,
    _listar_suscripciones 5 (Example.service ["m1"]) 10
    = Some (Returned text) /\
    list_subscriptions 5 (Example.service ["m1"]) 10
    = Some (Returned subs) /\
    forall sub : Subscription,
      In sub subs ->
      Substring ("(<" ++ sender_email sub ++ ">)")%string text /\
      (forall link, In link (unsubscribe_links sub) ->
                    Substring ("[Desuscribirse](" ++ link ++ ")")%string text) /\
      (forall mailto, In mailto (unsubscribe_mailto sub) ->
                      Substring ("por email: " ++ mailto)%string text).
Proof.
  eexists.
  refine ((fun H => match H with
                    | ex_intro _ subs P => ex_intro _ subs (conj _ P)
                    end)
            (listing_shows_every_link 5 (Example.service ["m1"]) 10 _ _));
    vm_compute; reflexivity.
Defined.

(** ** Authentication *)

(** X21. When [get_credentials] returns credentials, either they are
    the stored token, valid as it was loaded, and nothing was
    refreshed, authorized or written; or they come from one refresh or
    one browser flow and their JSON form was written to the token file
    before they were returned. *)
Theorem returned_credentials_are_saved (w : Auth.World)
        (creds : Auth.Credentials) :
  Auth.result (Auth.get_credentials w) = Returned creds ->
  (Auth.stored w creds /\ Auth.valid creds = true /\
   Auth.steps (Auth.get_credentials w) = []) \/
  Auth.steps (Auth.get_credentials w)
  = [Auth.Refresh; Auth.WriteToken (Auth.to_json creds)] \/
  Auth.steps (Auth.get_credentials w)
  = [Auth.BrowserFlow; Auth.WriteToken (Auth.to_json creds)].
Proof.
  unfold Auth.get_credentials, Auth.stored.
  assert (Hsave : forall done c,
             Auth.result (Auth.save w done c) = Returned creds ->
             Auth.steps (Auth.save w done c)
             = done ++ [Auth.WriteToken (Auth.to_json creds)]).
  { intros done c. unfold Auth.save.
    destruct (Auth.write_token w (Auth.to_json c)); simpl;
      [| discriminate].
    intros H; now injection H as ->. }
  assert (Hauth :
            Auth.result (Auth.authorize_and_save w) = Returned creds ->
            Auth.steps (Auth.authorize_and_save w)
            = [Auth.BrowserFlow; Auth.WriteToken (Auth.to_json creds)]).
  { unfold Auth.authorize_and_save.
    destruct (Auth.credentials_file w) as [secrets |]; [| discriminate].
    destruct (Auth.run_local_server w secrets) as [c |]; [| discriminate].
    apply (Hsave [Auth.BrowserFlow]). }
  destruct (Auth.token_file w) as [content |]; [| intros H; auto].
  destruct (Auth.from_authorized_user_file w content) as [c |] eqn:Hload;
    [| discriminate].
  destruct (Auth.valid c) eqn:Hvalid.
  - simpl. intros H; injection H as <-. left.
    split; [now exists content | now split].
  - destruct (Auth.expired c && token_truthy (Auth.refresh_token c));
      [| intros H; auto].
    unfold Auth.refresh_and_save.
    destruct (Auth.refresh w c) as [c' |]; [| discriminate].
    intros H. right. left. now apply (Hsave [Auth.Refresh]).
Qed.

Lemma returned_credentials_are_saved_witness :
  Auth.steps (Auth.get_credentials Auth.example_world)
  = [Auth.Refresh; Auth.WriteToken "new"].
Proof.
  destruct (returned_credentials_are_saved
              Auth.example_world
              (Auth.mkCredentials true false (Some "r1") "new") eq_refl)
    as [[_ [_ H]] | [H | H]]; try discriminate H.
  exact H.
Defined.

(** X22. [get_credentials] starts the browser flow only when
    credentials.json is there and no stored token can be used: there is
    no token file, or the stored token is not valid and is not both
    expired and refreshable.  A call never does both a refresh and a
    browser flow. *)
Theorem browser_flow_is_last_resort (w : Auth.World) :
  (In Auth.BrowserFlow (Auth.steps (Auth.get_credentials w)) ->
   Auth.credentials_file w <> None /\
   (Auth.token_file w = None \/
    exists creds,
      Auth.stored w creds /\ Auth.valid creds = false /\
      (Auth.expired creds = false \/
       token_truthy (Auth.refresh_token creds) = false))) /\
  ~ (In Auth.Refresh (Auth.steps (Auth.get_credentials w)) /\
     In Auth.BrowserFlow (Auth.steps (Auth.get_credentials w))).
Proof.
  assert (Hsave : forall done c x,
             In x (Auth.steps (Auth.save w done c)) ->
             In x done \/ x = Auth.WriteToken (Auth.to_json c)).
  { intros done c x. unfold Auth.save.
    destruct (Auth.write_token w (Auth.to_json c)); simpl; [| now left].
    intros H. apply in_app_or in H.
    destruct H as [H | [H | []]]; [now left | now right]. }
  assert (Hauth : forall x,
             In x (Auth.steps (Auth.authorize_and_save w)) ->
             Auth.credentials_file w <> None /\ x <> Auth.Refresh).
  { intros x. unfold Auth.authorize_and_save.
    destruct (Auth.credentials_file w) as [secrets |]; [| intros []].
    split; [discriminate |].
    destruct (Auth.run_local_server w secrets) as [c |].
    - apply Hsave in H. destruct H as [[<- | []] | ->]; discriminate.
    - destruct H as [<- | []]. discriminate. }
  assert (Hrefresh : forall c x,
             In x (Auth.steps (Auth.refresh_and_save w c)) ->
             x <> Auth.BrowserFlow).
  { intros c x. unfold Auth.refresh_and_save.
    destruct (Auth.refresh w c) as [c' |].
    - intros H. apply Hsave in H.
      destruct H as [[<- | []] | ->]; discriminate.
    - intros [<- | []]. discriminate. }
  unfold Auth.get_credentials, Auth.stored.
  destruct (Auth.token_file w) as [content |].
  - destruct (Auth.from_authorized_user_file w content) as [c |] eqn:Hload.
    + destruct (Auth.valid c) eqn:Hvalid.
      * simpl. split; [intros [] | intros [[] _]].
      * destruct (Auth.expired c && token_truthy (Auth.refresh_token c))
          eqn:Htry.
        -- split.
           ++ intros H. exfalso. now apply (Hrefresh c _ H).
           ++ intros [_ H]. now apply (Hrefresh c _ H).
        -- split.
           ++ intros H. split; [exact (proj1 (Hauth _ H)) |].
              right. exists c. split; [now exists content |].
              split; [exact Hvalid |].
              apply andb_false_iff in Htry. exact Htry.
           ++ intros [H _]. now apply (proj2 (Hauth _ H)).
    + simpl. split; [intros [] | intros [[] _]].
  - split.
    + intros H. split; [exact (proj1 (Hauth _ H)) | now left].
    + intros [H _]. now apply (proj2 (Hauth _ H)).
Qed.

Lemma browser_flow_is_last_resort_witness :
  let w := Auth.mkWorld None (Some "secrets") (fun _ => Raised DecodingError)
                        (fun c => Returned c)
                        (fun _ => Returned (Auth.mkCredentials
                                              true false (Some "r1") "new"))
                        (fun _ => Returned tt) in
  Auth.steps (Auth.get_credentials w)
  = [Auth.BrowserFlow; Auth.WriteToken "new"] /\
  Auth.credentials_file w <> None /\
  (Auth.token_file w = None \/
   exists creds,
     Auth.stored w creds /\ Auth.valid creds = false /\
     (Auth.expired creds = false \/
      token_truthy (Auth.refresh_token creds) = false)).
Proof.
  cbv zeta. split; [reflexivity |].
  apply (proj1 (browser_flow_is_last_resort _)). now left.
Defined.

(** X23. With no usable stored token and no credentials.json,
    [get_credentials] raises [FileNotFoundError] and does nothing
    else: no browser flow is started and no token is written. *)
Theorem missing_credentials_file_raises (w : Auth.World) :
  Auth.credentials_file w = None ->
  (Auth.token_file w = None \/
   exists creds,
     Auth.stored w creds /\ Auth.valid creds = false /\
     (Auth.expired creds = false \/
      token_truthy (Auth.refresh_token creds) = false)) ->
  Auth.get_credentials w = Auth.mkRun (Raised Auth.FileNotFoundError) [].
Proof.
  intros Hfile Htoken.
  assert (Hauth : Auth.authorize_and_save w
                  = Auth.mkRun (Raised Auth.FileNotFoundError) []).
  { unfold Auth.authorize_and_save. now rewrite Hfile. }
  unfold Auth.get_credentials.
  destruct Htoken as [-> | [c [[content [-> Hload]] [Hvalid Hno]]]];
    [exact Hauth |].
  rewrite Hload, Hvalid.
  assert (E : Auth.expired c && token_truthy (Auth.refresh_token c) = false)
    by (now apply andb_false_iff).
  now rewrite E.
Qed.

Lemma missing_credentials_file_raises_witness :
  Auth.get_credentials
    (Auth.mkWorld None None (fun _ => Raised DecodingError)
                  (fun c => Returned c) (fun _ => Raised ConnectError)
                  (fun _ => Returned tt))
  = Auth.mkRun (Raised Auth.FileNotFoundError) [].
Proof.
  apply missing_credentials_file_raises; [reflexivity | now left].
Defined.

(** ** More on the sender and on the aggregation *)

Lemma lt_free_with_lt (x y : string) :
  lt_free (x ++ "<" ++ y)%string = false.
Proof.
  unfold lt_free. rewrite all_chars_append. simpl.
  now rewrite andb_false_r.
Qed.

(** X24. A From header whose value has no [<] is not matched by the
    pattern: the name and the address are both the value without the
    white space at its ends. *)
Theorem extract_sender_info_of_bare_address
        (headers : list Header) (first : Header) :
  FirstNamed "From" headers first ->
  lt_free (value first) = true ->
  _extract_sender_info headers
  = (PyStr.strip (value first), PyStr.strip (value first)).
Proof.
  intros Hfirst Hfree.
  assert (E : _get_header_value headers "From" = Some (value first))
    by (apply get_header_value_first; now exists first).
  rewrite extract_sender_info_from, E. cbv zeta.
  destruct (SenderRegex.re_match (value first)) as [[n a] |] eqn:Em;
    [| reflexivity].
  exfalso. destruct (re_match_sound _ _ _ Em) as [ws [tl [Hv _]]].
  rewrite Hv in Hfree.
  rewrite <- (append_assoc n ws), lt_free_with_lt in Hfree. discriminate.
Qed.

Lemma extract_sender_info_of_bare_address_witness :
  _extract_sender_info [mkHeader "from" " deals@mart.com "]
  = ("deals@mart.com", "deals@mart.com").
Proof.
  apply (extract_sender_info_of_bare_address
           [mkHeader "from" " deals@mart.com "]
           (mkHeader "from" " deals@mart.com ")); [| reflexivity].
  exists [], []. split; [reflexivity | split; [reflexivity | constructor]].
Defined.

Lemma emails_of_aggregate (k : string) (d : Dict.t Subscription)
      (msg_id list_unsub : string) (headers : list Header) :
  emails_of k (aggregate d msg_id headers list_unsub)
  = emails_of k d
    + (if String.eqb k (PyStr.lower (snd (_extract_sender_info headers)))
       then 1 else 0).
Proof.
  unfold emails_of.
  destruct (aggregate_as_set d msg_id list_unsub headers) as [sub [Hsub ->]].
  destruct (String.eqb_spec
              k (PyStr.lower (snd (_extract_sender_info headers))))
    as [-> | Hne].
  - rewrite Dict_get_set. unfold record_message. cbn [email_count].
    destruct Hsub as [-> | [-> ->]]; reflexivity.
  - rewrite (Dict_get_set_other _ _ _ _ Hne). lia.
Qed.

(** X25. Aggregating a message adds one to the count of its sender and
    leaves every other count as it was; so the counts that two
    messages leave do not depend on the order in which the two were
    aggregated. *)
Theorem aggregate_counts_commute
        (d : Dict.t Subscription) (k : string)
        (id1 unsub1 : string) (headers1 : list Header)
        (id2 unsub2 : string) (headers2 : list Header) :
  emails_of k (aggregate d id1 headers1 unsub1)
  = emails_of k d
    + (if String.eqb k (PyStr.lower (snd (_extract_sender_info headers1)))
       then 1 else 0) /\
  emails_of k (aggregate (aggregate d id1 headers1 unsub1)
                         id2 headers2 unsub2)
  = emails_of k (aggregate (aggregate d id2 headers2 unsub2)
                           id1 headers1 unsub1).
Proof.
  split; [apply emails_of_aggregate |].
  rewrite !emails_of_aggregate. lia.
Qed.
